(** * The webview / extension-host message bridge

    A shallow embedding of
      - [src/services/vscodeApi.ts]  (class [VscodeApi], the client bridge
        that runs in the webview), and
      - [src/vscode-extension/src/panels/CodeAssistantPanel.ts]
        ([_setWebviewMessageListener], the command dispatcher that runs in
        the extension host),
    together with the properties of the request / notification protocol
    they implement.

    Conventions of the embedding.
      - A JavaScript [Map] keyed by strings is a [gmap string _].
      - A JavaScript [Set] of callbacks is an object on a heap: the map of
        subscribers stores its address, and so does every closure that
        captured it.  Its content is the list of its members in insertion
        order (the order [forEach] visits them).
      - A promise's [{resolve, reject}] pair is named by a number; calling
        one of the two functions is recorded as an effect.
      - Code that can throw lives in a small monad with state, a log of
        effects and exceptions; [try_catch] is [try { } catch (e) { }].
      - [Date.now()], [Math.random()], the answers of the user to dialogs
        and the failures of the file system are inputs.
      - A file holds bytes, and a JavaScript string is written as the
        bytes of its UTF-8 form; a uri is written as its path.
      - A callback of the page returns or throws; the calls it makes to
        the bridge while a notification is delivered to it are the
        subject of [Live]. *)

From stdpp Require Import gmap strings list fin_maps.

Set Warnings "-register-all".

(** ** A monad for code that mutates a state, emits effects and may throw *)

Inductive result (A : Type) : Type :=
| Ok (a : A)
| Throw (e : string).
Arguments Ok {A} a.
Arguments Throw {A} e.

Section monad.
Context {St Ev : Type}.

Definition M (A : Type) : Type := St -> result A * St * list Ev.

Definition ret {A} (a : A) : M A := fun s => (Ok a, s, []).

Definition bind {A B} (c : M A) (f : A -> M B) : M B := fun s =>
  match c s with
  | (Ok a, s1, t1) =>
      match f a s1 with (r, s2, t2) => (r, s2, t1 ++ t2) end
  | (Throw e, s1, t1) => (Throw e, s1, t1)
  end.

Definition throw {A} (e : string) : M A := fun s => (Throw e, s, []).

(** [try { c } catch (e) { h e }] *)
Definition try_catch {A} (c : M A) (h : string -> M A) : M A := fun s =>
  match c s with
  | (Ok a, s1, t1) => (Ok a, s1, t1)
  | (Throw e, s1, t1) =>
      match h e s1 with (r, s2, t2) => (r, s2, t1 ++ t2) end
  end.

Definition emit (e : Ev) : M unit := fun s => (Ok tt, s, [e]).
Definition gets {A} (f : St -> A) : M A := fun s => (Ok (f s), s, []).
Definition modify (f : St -> St) : M unit := fun s => (Ok tt, f s, []).

(** [xs.forEach(f)]: an exception thrown by [f] leaves the loop. *)
Fixpoint forEach {A} (xs : list A) (f : A -> M unit) : M unit :=
  match xs with
  | [] => ret tt
  | x :: rest => bind (f x) (fun _ => forEach rest f)
  end.
End monad.
Arguments M : clear implicits.

Declare Scope js_scope.
Delimit Scope js_scope with js.
Notation "x <- c ;; k" := (bind c (fun x => k))
  (at level 100, c at next level, k at level 200, right associativity) : js_scope.
Notation "c ;; k" := (bind c (fun _ => k))
  (at level 100, k at level 200, right associativity) : js_scope.
Open Scope js_scope.

(** ** Values and message envelopes *)

(** The payloads that cross the channel ([any] in the source). *)
Inductive value : Type :=
| VUndefined
| VNull
| VBool (b : bool)
| VStr (s : string)
| VArr (items : list value)
| VObj (fields : list (string * value)).

(** [{ command: string; payload: any, requestId?: string, error?: string }]:
    an optional field that is absent (or [undefined]) is [None]. *)
Record message : Type := Message {
  command : string;
  payload : value;
  requestId : option string;
  error : option string;
}.

(** JavaScript truthiness of an optional string, as tested by
    [if (requestId)], [if (error)] and [if (newFilePath)]: [undefined] and
    the empty string are falsy. *)
Definition truthy (o : option string) : option string :=
  match o with
  | Some s => if String.eqb s "" then None else Some s
  | None => None
  end.

(** ** The client bridge: [class VscodeApi] *)

(** The [{resolve, reject}] pair of one promise. *)
Abbreviation cont := nat (only parsing).
(** A callback function, compared by identity as [Set] does. *)
Abbreviation callback := nat (only parsing).
(** The address of a [Set<MessageCallback>] object. *)
Abbreviation loc := nat (only parsing).

(** The closure passed to [setTimeout] by [request]: it captured [command]
    and [requestId]. *)
Record timer : Type := Timer {
  t_command : string;
  t_requestId : string;
}.

(** The closure returned by [subscribe]: it captured [command], [callback]
    and the set object [commandSubscribers]. *)
Record unsubscribe : Type := Unsubscribe {
  u_command : string;
  u_set : loc;
  u_callback : callback;
}.

Inductive effect : Type :=
| Resolve (k : cont) (v : value)            (* pending.resolve(payload) *)
| Reject (k : cont) (msg : string)          (* pending.reject(new Error(error)) *)
| Call (cb : callback) (v : value)          (* callback(payload) *)
| ConsoleError (cmd : string) (e : string)  (* console.error(..., e) *)
| ConsoleWarn (msg : string)                (* console.warn(...) *)
| PostMessage (m : message)                 (* this.vscodeApi.postMessage(...) *)
| SetTimeout (t : timer) (ms : nat).        (* setTimeout(() => ..., ms) *)

Record bridge : Type := Bridge {
  vscodeApi : bool;                   (* false: [undefined], no transport *)
  pendingRequests : gmap string cont;
  subscribers : gmap string loc;
  heap : list (list callback);        (* the Set objects, by address *)
}.

(** [constructor()]: [acquired] tells whether [acquireVsCodeApi] is a
    function; only then is the window listener installed. *)
Definition constructor (acquired : bool) : bridge :=
  {| vscodeApi := acquired; pendingRequests := ∅; subscribers := ∅; heap := [] |}.

Definition set_pendingRequests (f : gmap string cont -> gmap string cont)
    (b : bridge) : bridge :=
  {| vscodeApi := vscodeApi b; pendingRequests := f (pendingRequests b);
     subscribers := subscribers b; heap := heap b |}.

Definition set_subscribers (f : gmap string loc -> gmap string loc)
    (b : bridge) : bridge :=
  {| vscodeApi := vscodeApi b; pendingRequests := pendingRequests b;
     subscribers := f (subscribers b); heap := heap b |}.

Definition set_heap (f : list (list callback) -> list (list callback))
    (b : bridge) : bridge :=
  {| vscodeApi := vscodeApi b; pendingRequests := pendingRequests b;
     subscribers := subscribers b; heap := f (heap b) |}.

(** The members of the set object at address [l]. *)
Definition members (l : loc) (b : bridge) : list callback :=
  default [] (heap b !! l).

(** [Set.prototype.add] and [Set.prototype.delete] on the member list. *)
Definition set_add (cb : callback) (s : list callback) : list callback :=
  if decide (cb ∈ s) then s else s ++ [cb].

Definition set_delete (cb : callback) (s : list callback) : list callback :=
  filter (λ x, x ≠ cb) s.

(** The callbacks a notification for [cmd] reaches. *)
Definition registered (cmd : string) (b : bridge) : list callback :=
  match subscribers b !! cmd with
  | Some l => members l b
  | None => []
  end.

Section client.
(** What a callback does when it is called with a payload: it returns
    ([None]) or throws ([Some e]).  This is the handler for callbacks that
    make no call to the bridge while a notification is delivered to them;
    the handler for callbacks that do is [Live.handleMessage] below, and
    it is this one when they do not ([handleMessage_plain]). *)
Variable behaviour : callback -> value -> option string.

Definition C : Type -> Type := M bridge effect.

(** [callback(payload)] *)
Definition call (cb : callback) (v : value) : C unit :=
  emit (Call cb v) ;;
  match behaviour cb v with
  | Some e => throw e
  | None => ret tt
  end.

(** [private handleMessage(message)] *)
Definition handleMessage (message : message) : C unit :=
  let '(Message command payload requestId error) := message in
  match truthy requestId with
  | Some requestId =>                       (* a response to a request *)
      pending <- gets (λ this, pendingRequests this !! requestId) ;;
      match pending with
      | Some pending =>
          match truthy error with
          | Some error => emit (Reject pending error)
          | None => emit (Resolve pending payload)
          end ;;
          modify (set_pendingRequests (delete requestId))
      | None => ret tt
      end
  | None =>                                 (* a notification *)
      commandSubscribers <- gets (λ this, subscribers this !! command) ;;
      match commandSubscribers with
      | Some commandSubscribers =>
          cbs <- gets (members commandSubscribers) ;;
          forEach cbs (λ callback,
            try_catch (call callback payload)
                      (λ e, emit (ConsoleError command e)))
      | None => ret tt
      end
  end.

(** [`${command}_${Date.now()}_${Math.random()}`], with the two numbers
    already printed. *)
Definition make_requestId (command now rnd : string) : string :=
  command +:+ "_" +:+ now +:+ "_" +:+ rnd.

(** The double-quote character of the message below. *)
Definition dquote : Ascii.ascii := Ascii.ascii_of_nat 34.

(** [mockError.message] *)
Definition mockError_message (command : string) : string :=
  "VS Code API is not available in a standard browser environment. Command "
  +:+ String dquote command
  +:+ String dquote " was not sent.".

(** The body of the closure given to [setTimeout]. *)
Definition run_timer (t : timer) : C unit :=
  handleMessage {| command := "response"; requestId := Some (t_requestId t);
                   payload := VNull;
                   error := Some (mockError_message (t_command t)) |}.

(** [public request<T>(command, payload)]: the executor of the promise
    whose continuation pair is [k]. *)
Definition request (k : cont) (command : string) (payload : value)
    (now rnd : string) : C unit :=
  let requestId := make_requestId command now rnd in
  modify (set_pendingRequests <[requestId := k]>) ;;
  api <- gets vscodeApi ;;
  if api then
    emit (PostMessage {| command := command; payload := payload;
                         requestId := Some requestId; error := None |})
  else
    emit (ConsoleWarn ("VS Code API not available. Rejecting request for command: "
                       +:+ command)) ;;
    emit (SetTimeout {| t_command := command; t_requestId := requestId |} 100).

(** [public subscribe(command, callback)] *)
Definition subscribe (command : string) (callback : callback) : C unsubscribe :=
  has <- gets (λ this, bool_decide (is_Some (subscribers this !! command))) ;;
  (if has then ret tt
   else
     l <- gets (λ this, length (heap this)) ;;       (* new Set() *)
     modify (set_heap (λ h, h ++ [[]])) ;;
     modify (set_subscribers <[command := l]>)) ;;
  commandSubscribers <- gets (λ this, subscribers this !! command) ;;
  match commandSubscribers with
  | None => throw "TypeError"                        (* the [!] assertion *)
  | Some commandSubscribers =>
      modify (set_heap (alter (set_add callback) commandSubscribers)) ;;
      ret {| u_command := command; u_set := commandSubscribers;
             u_callback := callback |}
  end.

(** The body of the closure returned by [subscribe]. *)
Definition run_unsubscribe (u : unsubscribe) : C unit :=
  modify (set_heap (alter (set_delete (u_callback u)) (u_set u))) ;;
  size <- gets (λ this, length (members (u_set u) this)) ;;
  if decide (size = 0) then modify (set_subscribers (delete (u_command u)))
  else ret tt.
End client.

(** ** The event loop of the webview *)

(** The page around the bridge: the bridge object, the queue of timers
    (all of them wait the same 100 ms, so they fire in the order they were
    set), everything observed so far, oldest first, and the number of
    promises [request] has created. *)
Record world : Type := World {
  br : bridge;
  timers : list timer;
  log : list effect;
  nextCont : cont;
}.

(** One turn of the event loop. *)
Inductive op : Type :=
| OpRequest (command : string) (payload : value) (now rnd : string)
| OpReceive (m : message)        (* a 'message' event on the window *)
| OpTimer                        (* the oldest timer fires *)
| OpSubscribe (command : string) (cb : callback)
| OpUnsubscribe (u : unsubscribe).

Definition scheduled (t : list effect) : list timer :=
  omap (λ e, match e with SetTimeout t _ => Some t | _ => None end) t.

Definition posted (t : list effect) : list message :=
  omap (λ e, match e with PostMessage m => Some m | _ => None end) t.

(** Runs a piece of bridge code in the page; [fresh] promises were created
    for it.  An exception that leaves the turn is reported by the browser
    and the loop goes on. *)
Definition exec {A} (c : C A) (fresh : nat) (w : world) : world :=
  match c (br w) with
  | (_, b, t) =>
      {| br := b; timers := timers w ++ scheduled t; log := log w ++ t;
         nextCont := nextCont w + fresh |}
  end.

Definition pop_timer (w : world) : world :=
  {| br := br w; timers := tail (timers w); log := log w; nextCont := nextCont w |}.

Definition step (behaviour : callback -> value -> option string)
    (o : op) (w : world) : world :=
  match o with
  | OpRequest command payload now rnd =>
      exec (request (nextCont w) command payload now rnd) 1 w
  | OpReceive m =>
      (* the listener exists only when the transport was acquired *)
      if vscodeApi (br w) then exec (handleMessage behaviour m) 0 w else w
  | OpTimer =>
      match timers w with
      | t :: _ => exec (run_timer behaviour t) 0 (pop_timer w)
      | [] => w
      end
  | OpSubscribe command cb => exec (subscribe command cb) 0 w
  | OpUnsubscribe u => exec (run_unsubscribe u) 0 w
  end.

Definition run (behaviour : callback -> value -> option string)
    (ops : list op) (w : world) : world :=
  foldl (λ w o, step behaviour o w) w ops.

(** The page right after [new VscodeApi()]. *)
Definition boot (acquired : bool) : world :=
  {| br := constructor acquired; timers := []; log := []; nextCont := 0 |}.

(** Whether an effect settles the promise [k]. *)
Definition settles (k : cont) (e : effect) : bool :=
  match e with
  | Resolve k' _ | Reject k' _ => bool_decide (k' = k)
  | _ => false
  end.

(** How many times [resolve] or [reject] of promise [k] was called. *)
Fixpoint settle_count (k : cont) (t : list effect) : nat :=
  match t with
  | [] => 0
  | e :: rest => (if settles k e then 1 else 0) + settle_count k rest
  end.

(** The payloads callback [cb] was called with, in order. *)
Definition calls_of (cb : callback) (t : list effect) : list value :=
  omap (λ e, match e with
             | Call cb' v => if decide (cb' = cb) then Some v else None
             | _ => None
             end) t.

(** The callbacks a list of effects called, in order. *)
Definition called (t : list effect) : list callback :=
  omap (λ e, match e with Call cb _ => Some cb | _ => None end) t.

(** What delivering a notification of [cmd] with payload [v] to the one
    callback [cb] leaves in the log: the call, and the report of the
    exception if the callback threw. *)
Definition delivery (behaviour : callback -> value -> option string)
    (cmd : string) (v : value) (cb : callback) : list effect :=
  Call cb v ::
  match behaviour cb v with
  | Some e => [ConsoleError cmd e]
  | None => []
  end.

(** The effect that settles [k] for a response with the given payload and
    error field. *)
Definition settlement (k : cont) (v : value) (error : option string) : effect :=
  match truthy error with
  | Some e => Reject k e
  | None => Resolve k v
  end.

(** A notification as the host sends it. *)
Definition notification (cmd : string) (v : value) : message :=
  {| command := cmd; payload := v; requestId := None; error := None |}.

(** What the bridge maintains between turns: every registered set object
    exists, two commands never share one, a set lists a callback once, and
    no pending request has the empty id. *)
Record bridge_wf (b : bridge) : Prop := {
  wf_alloc : ∀ c l, subscribers b !! c = Some l → l < length (heap b);
  wf_inj : ∀ c1 c2 l,
    subscribers b !! c1 = Some l → subscribers b !! c2 = Some l → c1 = c2;
  wf_nodup : ∀ l s, heap b !! l = Some s → NoDup s;
  wf_ids : pendingRequests b !! "" = None;
}.

(** ** The extension host: [CodeAssistantPanel._setWebviewMessageListener] *)

(** [vscode.workspace.workspaceFolders?.[0]] *)
Record folder : Type := Folder {
  f_uri : string;
  f_name : string;
}.

(** The host process as the dispatcher sees it: the first workspace folder,
    if one is open, and the files of [vscode.workspace.fs], their bytes by
    uri. *)
Record host : Type := Host {
  workspaceFolder : option folder;
  files : gmap string string;
}.

Definition set_files (f : gmap string string -> gmap string string)
    (h : host) : host :=
  {| workspaceFolder := workspaceFolder h; files := f (files h) |}.

(** What the handler of one message gets from outside while it waits. *)
Record host_env : Type := HostEnv {
  confirmation : option string;   (* showWarningMessage: the item picked, or undefined *)
  inputBox : option string;       (* showInputBox: the text, or undefined *)
  io_fault : option string;       (* the message of the error a file operation fails with *)
  found : list string;            (* findFiles, each made relative by asRelativePath *)
  clock : string;                 (* new Date(), printed *)
}.

(** The handler of one message: it changes the host and posts messages to
    the webview.  The points where the source awaits are not points where
    this model lets another handler run. *)
Definition H : Type -> Type := M host message.

Fixpoint lookup_field (name : string) (fields : list (string * value)) : value :=
  match fields with
  | [] => VUndefined
  | (n, v) :: rest => if String.eqb n name then v else lookup_field name rest
  end.

(** [v.name] *)
Definition get_prop (v : value) (name : string) : H value :=
  match v with
  | VUndefined | VNull => throw "TypeError: Cannot read properties of undefined"
  | VObj fields => ret (lookup_field name fields)
  | _ => ret VUndefined
  end.

(** [`${v}`]; an array prints its elements separated by commas, with
    nothing for [null] and [undefined]. *)
Fixpoint to_string (v : value) : string :=
  match v with
  | VUndefined => "undefined"
  | VNull => "null"
  | VBool true => "true"
  | VBool false => "false"
  | VStr s => s
  | VArr items =>
      String.concat ","
        (map (λ x, match x with
                   | VUndefined | VNull => ""
                   | _ => to_string x
                   end) items)
  | VObj _ => "[object Object]"
  end.

(** [workspaceFolder!.uri] *)
Definition uri_of (workspaceFolder : option folder) : H string :=
  match workspaceFolder with
  | Some f => ret (f_uri f)
  | None => throw "TypeError: Cannot read properties of undefined"
  end.

(** ** Paths and text of the platform *)

(** [paths.posix.join] and [paths.posix.normalize], which
    [vscode.Uri.joinPath] applies to the path of the uri and the fragment
    (on a host with posix paths).  A path is cut into its segments; empty
    segments and [.] are dropped, [..] takes the segment before it away,
    and above the root of an absolute path there is nothing to take. *)
Definition slash : Ascii.ascii := Ascii.ascii_of_nat 47.

Module posix.

(** [path.split('/')], the segment being read is [cur]. *)
Fixpoint segments_from (cur path : string) : list string :=
  match path with
  | EmptyString => [cur]
  | String c rest =>
      if Ascii.eqb c slash then cur :: segments_from "" rest
      else segments_from (cur +:+ String c "") rest
  end.

Definition segments (path : string) : list string := segments_from "" path.

(** One segment of the loop of [normalizeString]; [res] holds the segments
    kept so far, the last one first. *)
Definition keep (allowAboveRoot : bool) (res : list string) (segment : string)
    : list string :=
  if String.eqb segment "" || String.eqb segment "." then res
  else if String.eqb segment ".." then
    match res with
    | last :: before =>
        if String.eqb last ".."
        then (if allowAboveRoot then ".." :: res else res)
        else before
    | [] => if allowAboveRoot then [".."] else []
    end
  else segment :: res.

Definition normalizeString (path : string) (allowAboveRoot : bool) : string :=
  String.concat "/" (rev (foldl (keep allowAboveRoot) [] (segments path))).

Definition isAbsolute (path : string) : bool :=
  match path with
  | String c _ => Ascii.eqb c slash
  | EmptyString => false
  end.

Fixpoint trailingSeparator (path : string) : bool :=
  match path with
  | EmptyString => false
  | String c EmptyString => Ascii.eqb c slash
  | String _ rest => trailingSeparator rest
  end.

Definition normalize (path : string) : string :=
  if String.eqb path "" then "."
  else
    let p := normalizeString path (negb (isAbsolute path)) in
    if String.eqb p "" then
      if isAbsolute path then "/"
      else if trailingSeparator path then "./" else "."
    else
      let p := if trailingSeparator path then p +:+ "/" else p in
      if isAbsolute path then "/" +:+ p else p.

Definition join (a b : string) : string :=
  if String.eqb a "" then (if String.eqb b "" then "." else normalize b)
  else if String.eqb b "" then normalize a
  else normalize (a +:+ "/" +:+ b).
End posix.

(** [new TextDecoder().decode(bytes)]: the UTF-8 decoder of the Encoding
    standard, without [fatal] and without [ignoreBOM].  A text is written
    as the bytes of its UTF-8 form, so a character that is decoded is
    written back as the bytes it was read from; a byte sequence that is
    not well formed gives U+FFFD, and the byte that broke the sequence is
    looked at again; one byte order mark at the start is dropped. *)
Definition byte_in (lo hi : N) (c : Ascii.ascii) : bool :=
  bool_decide (lo ≤ Ascii.N_of_ascii c ≤ hi)%N.

Definition byte_string (bytes : list N) : string :=
  String.string_of_list_ascii (map Ascii.ascii_of_N bytes).

Definition replacement : string := byte_string [0xEF; 0xBF; 0xBD]%N.
Definition BOM : string := byte_string [0xEF; 0xBB; 0xBF]%N.

(** What the first byte of a character of more than one byte asks for:
    how many bytes follow and the bounds of the next one. *)
Definition lead (c : Ascii.ascii) : option (nat * N * N) :=
  let n := Ascii.N_of_ascii c in
  if bool_decide (0xC2 ≤ n ≤ 0xDF)%N then Some (1, 0x80%N, 0xBF%N)
  else if bool_decide (0xE0 ≤ n ≤ 0xEF)%N then
    Some (2, if bool_decide (n = 0xE0%N) then 0xA0%N else 0x80%N,
             if bool_decide (n = 0xED%N) then 0x9F%N else 0xBF%N)
  else if bool_decide (0xF0 ≤ n ≤ 0xF4)%N then
    Some (3, if bool_decide (n = 0xF0%N) then 0x90%N else 0x80%N,
             if bool_decide (n = 0xF4%N) then 0x8F%N else 0xBF%N)
  else None.

(** The decoder in the state [st]: [None] between characters, or the bytes
    seen of the current character, the number of bytes still needed and
    the bounds of the next byte. *)
Fixpoint utf8_decode (st : option (string * nat * N * N)) (bytes : string)
    : string :=
  match bytes with
  | EmptyString =>
      match st with
      | Some _ => replacement
      | None => ""
      end
  | String c rest =>
      let start :=
        if byte_in 0x00 0x7F c then String c (utf8_decode None rest)
        else
          match lead c with
          | Some (needed, lo, hi) =>
              utf8_decode (Some (String c "", needed, lo, hi)) rest
          | None => replacement +:+ utf8_decode None rest
          end in
      match st with
      | None => start
      | Some (seen, needed, lo, hi) =>
          if byte_in lo hi c then
            match needed with
            | S (S n) =>
                utf8_decode (Some (seen +:+ String c "", S n, 0x80%N, 0xBF%N)) rest
            | _ => seen +:+ String c (utf8_decode None rest)
            end
          else replacement +:+ start
      end
  end.

Definition strip_BOM (bytes : string) : string :=
  match bytes with
  | String c1 (String c2 (String c3 rest)) =>
      if String.eqb (String c1 (String c2 (String c3 ""))) BOM then rest
      else bytes
  | _ => bytes
  end.

Definition TextDecoder_decode (bytes : string) : string :=
  utf8_decode None (strip_BOM bytes).

(** Well-formed UTF-8 (the table of well-formed byte sequences of the
    Unicode standard). *)
Fixpoint well_formed (bytes : string) : bool :=
  match bytes with
  | EmptyString => true
  | String b1 r1 =>
      if byte_in 0x00 0x7F b1 then well_formed r1
      else
        match r1 with
        | String b2 r2 =>
            if byte_in 0xC2 0xDF b1 then byte_in 0x80 0xBF b2 && well_formed r2
            else
              match r2 with
              | String b3 r3 =>
                  if byte_in 0xE0 0xE0 b1 && byte_in 0xA0 0xBF b2
                     || byte_in 0xE1 0xEC b1 && byte_in 0x80 0xBF b2
                     || byte_in 0xED 0xED b1 && byte_in 0x80 0x9F b2
                     || byte_in 0xEE 0xEF b1 && byte_in 0x80 0xBF b2
                  then byte_in 0x80 0xBF b3 && well_formed r3
                  else
                    match r3 with
                    | String b4 r4 =>
                        (byte_in 0xF0 0xF0 b1 && byte_in 0x90 0xBF b2
                         || byte_in 0xF1 0xF3 b1 && byte_in 0x80 0xBF b2
                         || byte_in 0xF4 0xF4 b1 && byte_in 0x80 0x8F b2)
                        && byte_in 0x80 0xBF b3 && byte_in 0x80 0xBF b4
                        && well_formed r4
                    | EmptyString => false
                    end
              | EmptyString => false
              end
        | EmptyString => false
        end
  end.

Arguments posix.join : simpl never.
Arguments TextDecoder_decode : simpl never.

(** [vscode.Uri.joinPath(base, p)]: a fragment that is no string is
    refused; the path of the uri and the fragment are joined and
    normalised.  A uri is written as its path; with the scheme [file], as
    for a folder on disk, the path is never empty, so [joinPath] does not
    refuse the uri. *)
Definition joinPath (base : string) (p : value) : H string :=
  match p with
  | VStr s => ret (posix.join base s)
  | _ => throw "TypeError: The path argument must be of type string"
  end.

(** [new TextEncoder().encode(v)]: the bytes of the UTF-8 form of the
    text of [v] (a string with a lone surrogate has no such form and is
    not represented). *)
Definition encode (v : value) : string :=
  match v with
  | VUndefined => ""
  | _ => to_string v
  end.

Section dispatcher.
Variable env : host_env.

(** [vscode.workspace.fs]: an operation fails when the environment says
    so, and reading or deleting fails when the file does not exist.
    [readFile] gives the bytes of the file. *)
Definition fs_readFile (uri : string) : H string :=
  match io_fault env with
  | Some e => throw e
  | None =>
      f <- gets (λ h, files h !! uri) ;;
      match f with
      | Some content => ret content
      | None => throw "FileNotFound"
      end
  end.

Definition fs_writeFile (uri content : string) : H unit :=
  match io_fault env with
  | Some e => throw e
  | None => modify (set_files <[uri := content]>)
  end.

Definition fs_delete (uri : string) : H unit :=
  match io_fault env with
  | Some e => throw e
  | None =>
      f <- gets (λ h, files h !! uri) ;;
      match f with
      | Some _ => modify (set_files (delete uri))
      | None => throw "FileNotFound"
      end
  end.

(** [webview.postMessage({ command: 'refreshFileTree' })] *)
Definition refreshFileTree : message :=
  {| command := "refreshFileTree"; payload := VUndefined;
     requestId := None; error := None |}.

(** [{ command: 'response', requestId, payload: data, error }] *)
Definition reply (requestId : option string) (data : value)
    (error : option string) : message :=
  {| command := "response"; requestId := requestId;
     payload := data; error := error |}.

(** [respond(data, error)] for the request with id [requestId] *)
Definition respond (requestId : option string) (data : value)
    (error : option string) : H unit :=
  emit (reply requestId data error).

Definition initialData (f : folder) : value :=
  VObj [("user", VObj [("id", VStr "vscode-user"); ("name", VStr "VS Code User");
                       ("avatarUrl", VStr "")]);
        ("repo", VObj [("id", VStr ("vscode-repo-" +:+ f_uri f));
                       ("name", VStr (f_name f));
                       ("owner", VObj [("login", VStr "local")]);
                       ("description", VStr "A local project open in VS Code.");
                       ("private", VBool true); ("updatedAt", VStr (clock env));
                       ("language", VStr "Local"); ("defaultBranch", VStr "main");
                       ("fileTree", VArr [])]);
        ("fileTree", VArr (map (λ p, VObj [("path", VStr p); ("type", VStr "blob");
                                            ("sha", VStr "")]) (found env)))].

(** The listener given to [webview.onDidReceiveMessage]. *)
Definition onDidReceiveMessage (message : message) : H unit :=
  let '(Message command payload requestId _) := message in
  workspaceFolder <- gets workspaceFolder ;;
  let respond := respond requestId in
  if negb (bool_decide (is_Some workspaceFolder))
     && negb (String.eqb command "getInitialData")
  then respond VNull (Some "No workspace is open.")
  else if String.eqb command "getInitialData" then
    match workspaceFolder with
    | None =>
        respond VNull
          (Some "No workspace folder is open. Please open a project to use the assistant.")
    | Some f => respond (initialData f) None
    end
  else if String.eqb command "getFileContent" then
    try_catch
      (base <- uri_of workspaceFolder ;;
       path <- get_prop payload "path" ;;
       fileUri <- joinPath base path ;;
       contentBytes <- fs_readFile fileUri ;;
       let content := TextDecoder_decode contentBytes in
       respond (VObj [("content", VStr content); ("sha", VStr (clock env))]) None)
      (λ e, path <- get_prop payload "path" ;;
            respond VNull
              (Some ("Failed to read file " +:+ to_string path +:+ ": " +:+ e)))
  else if String.eqb command "updateFileContent" then
    try_catch
      (base <- uri_of workspaceFolder ;;
       path <- get_prop payload "path" ;;
       fileUri <- joinPath base path ;;
       newContent <- get_prop payload "newContent" ;;
       fs_writeFile fileUri (encode newContent) ;;
       respond (VObj [("newSha", VStr (clock env))]) None)
      (λ e, path <- get_prop payload "path" ;;
            respond VNull
              (Some ("Failed to write file " +:+ to_string path +:+ ": " +:+ e)))
  else if String.eqb command "deleteFile" then
    try_catch
      (base <- uri_of workspaceFolder ;;
       path <- get_prop payload "path" ;;
       fileUri <- joinPath base path ;;
       (* await showWarningMessage(..., { modal: true }, 'Delete') *)
       if bool_decide (confirmation env = Some "Delete") then
         fs_delete fileUri ;;
         emit refreshFileTree ;;
         respond (VObj [("success", VBool true)]) None
       else
         respond VNull (Some "Deletion cancelled by user."))
      (λ e, path <- get_prop payload "path" ;;
            respond VNull
              (Some ("Failed to delete file " +:+ to_string path +:+ ": " +:+ e)))
  else if String.eqb command "createFile" then
    try_catch
      ((* await showInputBox({ prompt, placeHolder }) *)
       match truthy (inputBox env) with
       | Some newFilePath =>
           base <- uri_of workspaceFolder ;;
           fileUri <- joinPath base (VStr newFilePath) ;;
           fs_writeFile fileUri "" ;;
           emit refreshFileTree ;;
           respond (VObj [("success", VBool true); ("path", VStr newFilePath)]) None
       | None =>
           respond VNull (Some "File creation cancelled by user.")
       end)
      (λ e, respond VNull (Some ("Failed to create file: " +:+ e)))
  else ret tt.
End dispatcher.

(** The names the [switch] of the dispatcher has a case for. *)
Definition catalog : list string :=
  ["getInitialData"; "getFileContent"; "updateFileContent"; "deleteFile"; "createFile"].

(** ** The two sides connected *)

(** The host handles the messages it received, one handler after the
    other; a handler that ends with an exception posts nothing more and
    the next message is handled all the same. *)
Fixpoint deliver (env : host_env) (ms : list message) (h : host)
    : host * list message :=
  match ms with
  | [] => (h, [])
  | m :: rest =>
      match onDidReceiveMessage env m h with
      | (_, h1, out1) =>
          match deliver env rest h1 with
          | (h2, out2) => (h2, out1 ++ out2)
          end
      end
  end.

(** One request carried all the way: the page calls [request], the host
    handles every message the bridge posted, and the page receives every
    message the host posted, in order. *)
Definition round_trip (behaviour : callback -> value -> option string)
    (env : host_env) (h : host) (command : string) (payload : value)
    (now rnd : string) (w : world) : world * host :=
  let w1 := step behaviour (OpRequest command payload now rnd) w in
  let sent := posted (drop (length (log w)) (log w1)) in
  match deliver env sent h with
  | (h', replies) => (run behaviour (map OpReceive replies) w1, h')
  end.

(** ** Callbacks that use the bridge *)

(** A callback is any function of the page.  As far as the bridge goes,
    what it does when it is called is the calls it makes to the bridge
    before it returns or throws: [subscribe], whose result it gets, the
    closures that earlier calls of [subscribe] returned, and [request]
    (with the clock and the random number the call reads).  What it does
    after an [await] is a later turn of the page.  A callback that never
    returns stops the page and is not considered. *)
Inductive script : Type :=
| Return                                      (* the callback returns *)
| Raise (e : string)                          (* it throws *)
| DoSubscribe (command : string) (cb : callback) (rest : unsubscribe → script)
| DoUnsubscribe (u : unsubscribe) (rest : script)
| DoRequest (command : string) (payload : value) (now rnd : string)
    (rest : script).

(** The script of a callback that only returns or throws. *)
Definition plain (thrown : option string) : script :=
  match thrown with
  | Some e => Raise e
  | None => Return
  end.

(** The script leaves the subscriptions of [cmd], whose set is at [l],
    alone: it does not subscribe to [cmd] and calls no closure that
    [subscribe] made for [cmd] or for that set. *)
Fixpoint leaves_alone (l : loc) (cmd : string) (s : script) : Prop :=
  match s with
  | Return | Raise _ => True
  | DoSubscribe c _ rest => c ≠ cmd ∧ ∀ u, leaves_alone l cmd (rest u)
  | DoUnsubscribe u rest =>
      u_set u ≠ l ∧ u_command u ≠ cmd ∧ leaves_alone l cmd rest
  | DoRequest _ _ _ _ rest => leaves_alone l cmd rest
  end.

(** The script ends by throwing [e], whatever [subscribe] returns to it. *)
Fixpoint raises (s : script) (e : string) : Prop :=
  match s with
  | Return => False
  | Raise e' => e' = e
  | DoSubscribe _ _ rest => ∀ u, raises (rest u) e
  | DoUnsubscribe _ rest => raises rest e
  | DoRequest _ _ _ _ rest => raises rest e
  end.

(** The subscriber of the page ([fetchVsCodeInitialData], registered for
    [refreshFileTree] by [App] and by the second copy of the component):
    called with the notification, it calls [request('getInitialData', {})]
    before it returns; what follows its [await] is not part of the call. *)
Definition fetchVsCodeInitialData (now rnd : string) : script :=
  DoRequest "getInitialData" (VObj []) now rnd Return.

(** One more effect in the log of the page. *)
Definition record (e : effect) (w : world) : world :=
  {| br := br w; timers := timers w; log := log w ++ [e];
     nextCont := nextCont w |}.

(** The handler of [handleMessage] with such callbacks.  [forEach] walks
    the set object itself: a member that is deleted before its turn is not
    visited, a member that is added during the walk is, and one that is
    deleted and added again is visited again.  With the members kept in
    insertion order, the place of the walk is the number of members that
    are before it; deleting one of those moves it back by one.  The walk
    need not end, so it is given [fuel], one unit for each visit. *)
Module Live.
Section live.
(** What the callback [cb] does when it is called with a payload on the
    page as it is. *)
Variable react : world → callback → value → script.

(** Runs a piece of bridge code in the page, as [exec] does, and gives its
    result. *)
Definition exec_result {A} (c : C A) (fresh : nat) (w : world)
    : result A * world :=
  match c (br w) with
  | (r, b, t) =>
      (r, {| br := b; timers := timers w ++ scheduled t; log := log w ++ t;
             nextCont := nextCont w + fresh |})
  end.

(** The callback runs while [forEach] is at [position] in the set at
    [l]: every call it makes is carried out on the page at once.  The
    result is what it threw, if it did, and the new place of the walk. *)
Fixpoint perform (l : loc) (s : script) (position : nat) (w : world)
    : option string * nat * world :=
  match s with
  | Return => (None, position, w)
  | Raise e => (Some e, position, w)
  | DoSubscribe command cb rest =>
      match exec_result (subscribe command cb) 0 w with
      | (Ok u, w1) => perform l (rest u) position w1
      | (Throw e, w1) => (Some e, position, w1)
      end
  | DoUnsubscribe u rest =>
      let position :=
        if decide (u_set u = l)
        then length (set_delete (u_callback u)
                       (take position (members l (br w))))
        else position in
      perform l rest position (exec (run_unsubscribe u) 0 w)
  | DoRequest command payload now rnd rest =>
      perform l rest position
        (exec (request (nextCont w) command payload now rnd) 1 w)
  end.

(** [commandSubscribers.forEach(callback => { try { callback(payload) }
    catch (e) { console.error(...) } })] on the set at [l]. *)
Fixpoint forEach (fuel : nat) (l : loc) (command : string) (payload : value)
    (position : nat) (w : world) : option world :=
  match fuel with
  | 0 => None
  | S fuel =>
      match members l (br w) !! position with
      | None => Some w
      | Some callback =>
          match perform l (react w callback payload) (S position)
                  (record (Call callback payload) w) with
          | (Some e, position, w) =>
              forEach fuel l command payload position
                (record (ConsoleError command e) w)
          | (None, position, w) =>
              forEach fuel l command payload position w
          end
      end
  end.

(** The branch of [handleMessage] for a response. *)
Definition settle (requestId : string) (payload : value)
    (error : option string) : C unit :=
  pending <- gets (λ this, pendingRequests this !! requestId) ;;
  match pending with
  | Some pending =>
      match truthy error with
      | Some error => emit (Reject pending error)
      | None => emit (Resolve pending payload)
      end ;;
      modify (set_pendingRequests (delete requestId))
  | None => ret tt
  end.

(** [private handleMessage(message)] *)
Definition handleMessage (fuel : nat) (message : message) (w : world)
    : option world :=
  let '(Message command payload requestId error) := message in
  match truthy requestId with
  | Some requestId => Some (exec (settle requestId payload error) 0 w)
  | None =>
      match subscribers (br w) !! command with
      | Some commandSubscribers =>
          forEach fuel commandSubscribers command payload 0 w
      | None => Some w
      end
  end.

(** The page receives messages, one after the other; the listener exists
    only when the transport was acquired. *)
Fixpoint receive (fuel : nat) (ms : list message) (w : world) : option world :=
  match ms with
  | [] => Some w
  | m :: rest =>
      if vscodeApi (br w) then
        match handleMessage fuel m w with
        | Some w1 => receive fuel rest w1
        | None => None
        end
      else receive fuel rest w
  end.

(** A call of [request] by the page. *)
Definition request (command : string) (payload : value) (now rnd : string)
    (w : world) : world :=
  exec (request (nextCont w) command payload now rnd) 1 w.

(** One request carried all the way, as [round_trip] above. *)
Definition round_trip (fuel : nat) (env : host_env) (h : host)
    (command : string) (payload : value) (now rnd : string) (w : world)
    : option (world * host) :=
  let w1 := request command payload now rnd w in
  let sent := posted (drop (length (log w)) (log w1)) in
  match deliver env sent h with
  | (h', replies) =>
      match receive fuel replies w1 with
      | Some w2 => Some (w2, h')
      | None => None
      end
  end.
End live.
End Live.

(** ** Runs of the page *)

(** What every run of the page maintains about promises: a request that is
    still pending has not been settled and was created by [request]; no
    two pending requests share a promise; no promise was settled twice; a
    promise that does not exist yet was not settled; no pending request
    has the empty id. *)
Record world_inv (w : world) : Prop := {
  inv_pending : ∀ rid k, pendingRequests (br w) !! rid = Some k →
                         k < nextCont w ∧ settle_count k (log w) = 0;
  inv_inj : ∀ r1 r2 k, pendingRequests (br w) !! r1 = Some k →
                       pendingRequests (br w) !! r2 = Some k → r1 = r2;
  inv_once : ∀ k, settle_count k (log w) ≤ 1;
  inv_fresh : ∀ k, nextCont w ≤ k → settle_count k (log w) = 0;
  inv_ids : pendingRequests (br w) !! "" = None;
}.

(** One call [request(command, payload)], with the clock and the random
    number it read. *)
Record invocation : Type := Invocation {
  i_command : string;
  i_payload : value;
  i_now : string;
  i_rnd : string;
}.

Definition id_of (i : invocation) : string :=
  make_requestId (i_command i) (i_now i) (i_rnd i).

Definition issue (i : invocation) : op :=
  OpRequest (i_command i) (i_payload i) (i_now i) (i_rnd i).

(** The id a turn gives to a new request, if the turn is a call of
    [request]. *)
Definition issued_id (o : op) : option string :=
  match o with
  | OpRequest command _ now rnd => Some (make_requestId command now rnd)
  | _ => None
  end.

(** The id a turn brings a response for, if the turn is the arrival of an
    envelope with a (non-empty) [requestId]. *)
Definition answered_id (o : op) : option string :=
  match o with
  | OpReceive m => truthy (requestId m)
  | _ => None
  end.

(** How many turns of a run are timers firing. *)
Fixpoint timer_turns (ops : list op) : nat :=
  match ops with
  | [] => 0
  | OpTimer :: rest => S (timer_turns rest)
  | _ :: rest => timer_turns rest
  end.

(** The request with id [rid] and promise [k], made for [cmd] without a
    transport, is waiting for its timer, which is the [n]-th of the queue;
    the timers before it are for other ids. *)
Definition awaiting (rid : string) (k : cont) (cmd : string) (n : nat)
    (w : world) : Prop :=
  vscodeApi (br w) = false ∧
  pendingRequests (br w) !! rid = Some k ∧
  timers w !! n = Some {| t_command := cmd; t_requestId := rid |} ∧
  ∀ i t, i < n → timers w !! i = Some t → t_requestId t ≠ rid.

(** That request has been rejected, once, with the synthesized error, and
    its entry is gone. *)
Definition rejected (rid : string) (k : cont) (cmd : string) (w : world) : Prop :=
  vscodeApi (br w) = false ∧
  settle_count k (log w) = 1 ∧
  Reject k (mockError_message cmd) ∈ log w ∧
  pendingRequests (br w) !! rid = None.

(** ** The tabs of the assistant: [CodeAssistant] *)

(** [OpenFile]: a file shown in a tab. *)
Record OpenFile : Type := {
  of_path : string;
  of_content : string;
  of_sha : string;
}.

(** The two pieces of state of the component that the tab handlers use:
    [openFiles] and [activeFilePath] ([None] is [null]). *)
Record tabs : Type := Tabs {
  openFiles : list OpenFile;
  activeFilePath : option string;
}.

Definition set_openFiles (f : list OpenFile -> list OpenFile) (s : tabs) : tabs :=
  {| openFiles := f (openFiles s); activeFilePath := activeFilePath s |}.

Definition set_activeFilePath (a : option string) (s : tabs) : tabs :=
  {| openFiles := openFiles s; activeFilePath := a |}.

(** A handler of the component: it changes the tabs and may throw. *)
Definition T : Type -> Type := M tabs Empty_set.

(** [files.findIndex(f => f.path === path)], counting from [i]; -1 when no
    file has the path. *)
Fixpoint findIndex_from (i : Z) (path : string) (fs : list OpenFile) : Z :=
  match fs with
  | [] => (-1)%Z
  | f :: rest =>
      if String.eqb (of_path f) path then i
      else findIndex_from (i + 1)%Z path rest
  end.

Definition findIndex (path : string) (fs : list OpenFile) : Z :=
  findIndex_from 0%Z path fs.

(** [closeTab(path)], as the render that showed the tabs [openFiles] and
    the active path [activeFilePath] built it: the function reads the two
    values of its render and sets the state of the component. *)
Definition closeTab (openFiles : list OpenFile) (activeFilePath : option string)
    (path : string) : T unit :=
  let files := openFiles in
  let active := activeFilePath in
  let fileIndex := findIndex path files in
  let newOpenFiles := filter (λ f, of_path f ≠ path) files in
  modify (set_openFiles (λ _, newOpenFiles)) ;;
  if bool_decide (active = Some path) then
    if bool_decide (length newOpenFiles = 0) then
      modify (set_activeFilePath None)
    else
      let newIndex := Z.max 0 (fileIndex - 1) in
      match newOpenFiles !! Z.to_nat newIndex with
      | Some f => modify (set_activeFilePath (Some (of_path f)))
      | None => throw "TypeError"           (* undefined.path *)
      end
  else ret tt.

(** [handleCloseTab(e, path)]: the close button of a tab, with the
    [closeTab] of the render of the state as it is. *)
Definition handleCloseTab (path : string) : T unit :=
  files <- gets openFiles ;;
  active <- gets activeFilePath ;;
  closeTab files active path.

(** The loop of [handleConfirmCleanup], as far as the tabs go.  Every
    file comes with the outcome of its [deleteFile] request ([true]:
    fulfilled); the [openFiles] and the [closeTab] the loop uses are those
    of the render in which the handler was started, whatever was rendered
    while it awaited. *)
Definition cleanup_tabs (openFiles : list OpenFile)
    (activeFilePath : option string) (results : list (string * bool)) : T unit :=
  forEach results (λ r,
    try_catch
      (if r.2 then
         if bool_decide (Exists (λ f, of_path f = r.1) openFiles)
         then closeTab openFiles activeFilePath r.1
         else ret tt
       else throw "deleteFile")
      (λ _, ret tt)).

(** The files of the loop whose tab the loop closes. *)
Definition cleanup_closed (openFiles : list OpenFile)
    (results : list (string * bool)) : list string :=
  map fst (filter (λ r, r.2 = true ∧ Exists (λ f, of_path f = r.1) openFiles)
             results).

(** [handleFileSelect(path)] up to its request: [true] when the file is
    open already and is only made the active one, [false] when its content
    has to be asked for. *)
Definition fileSelected (path : string) : T bool :=
  files <- gets openFiles ;;
  if bool_decide (Exists (λ f, of_path f = path) files) then
    modify (set_activeFilePath (Some path)) ;; ret true
  else ret false.

(** [handleFileSelect(path)] after the content has arrived:
    [setOpenFiles(prev => [...prev, newFile]); setActiveFilePath(path)]. *)
Definition fileLoaded (path content sha : string) : T unit :=
  modify (set_openFiles (λ prev, prev ++ [{| of_path := path;
                                               of_content := content;
                                               of_sha := sha |}])) ;;
  modify (set_activeFilePath (Some path)).

(** [setOpenFiles(prev => prev.map(f => f.path === path ? {...f, content,
    sha} : f))], after a change was written. *)
Definition fileUpdated (path content sha : string) : T unit :=
  modify (set_openFiles
            (map (λ f, if String.eqb (of_path f) path
                       then {| of_path := of_path f; of_content := content;
                               of_sha := sha |}
                       else f))).

(** What happens to the tabs, one event after the other, each handler
    being that of the render of the state as it is.  A click is on a tab,
    so on an open file; a tab is closed by its button. *)
Inductive tab_op : Type :=
| TabSelect (path : string)
| TabLoaded (path content sha : string)
| TabClose (path : string)
| TabClick (i : nat)
| TabUpdated (path content sha : string).

Definition tab_step (o : tab_op) : T unit :=
  match o with
  | TabSelect path => fileSelected path ;; ret tt
  | TabLoaded path content sha => fileLoaded path content sha
  | TabClose path => handleCloseTab path
  | TabClick i =>
      files <- gets openFiles ;;
      match files !! i with
      | Some file => modify (set_activeFilePath (Some (of_path file)))
      | None => ret tt
      end
  | TabUpdated path content sha => fileUpdated path content sha
  end.

(** The active path is [null] or the path of an open file. *)
Definition active_is_open (s : tabs) : Prop :=
  match activeFilePath s with
  | Some p => p ∈ map of_path (openFiles s)
  | None => True
  end.

(** ** The panel of the extension: [CodeAssistantPanel.render], [dispose] *)

(** The two listeners the constructor registers, each of which vscode
    adds to [_disposables]. *)
Inductive listener : Type := OnDidDispose | OnDidReceiveMessage.

Inductive panel_event : Type :=
| CreatePanel (p : nat)                  (* vscode.window.createWebviewPanel *)
| RevealPanel (p : nat)                  (* _panel.reveal *)
| DisposePanel (p : nat)                 (* _panel.dispose() *)
| DisposeListener (p : nat) (l : listener).  (* disposable.dispose() *)

(** The class: the static [currentPanel] and, for every instance made so
    far (one per panel), its [_disposables]. *)
Record extension : Type := Extension {
  currentPanel : option nat;
  disposables : list (list listener);
}.

Definition set_currentPanel (c : option nat) (s : extension) : extension :=
  {| currentPanel := c; disposables := disposables s |}.

Definition set_disposables (f : list (list listener) -> list (list listener))
    (s : extension) : extension :=
  {| currentPanel := currentPanel s; disposables := f (disposables s) |}.

Definition P : Type -> Type := M extension panel_event.

(** [public static render(extensionUri)], with the constructor. *)
Definition render : P unit :=
  current <- gets currentPanel ;;
  match current with
  | Some p => emit (RevealPanel p)
  | None =>
      p <- gets (λ s, length (disposables s)) ;;
      emit (CreatePanel p) ;;
      modify (set_disposables (λ d, d ++ [[OnDidDispose; OnDidReceiveMessage]])) ;;
      modify (set_currentPanel (Some p))
  end.

(** [while (this._disposables.length) { const d = this._disposables.pop();
    if (d) d.dispose(); }], with enough fuel for the turns it makes. *)
Fixpoint dispose_loop (fuel : nat) (p : nat) : P unit :=
  match fuel with
  | 0 => ret tt
  | S fuel =>
      ds <- gets (λ s, default [] (disposables s !! p)) ;;
      match last ds with
      | None => ret tt
      | Some d =>
          modify (set_disposables (alter (λ l, removelast l) p)) ;;   (* pop() *)
          emit (DisposeListener p d) ;;
          dispose_loop fuel p
      end
  end.

(** [public dispose()] of the instance made for panel [p].  The call
    [this._panel.dispose()] is an event of the trace: vscode runs the
    [onDidDispose] listeners of a panel once, so the call does not come
    back into [dispose]. *)
Definition dispose (p : nat) : P unit :=
  modify (set_currentPanel None) ;;
  emit (DisposePanel p) ;;
  n <- gets (λ s, length (default [] (disposables s !! p))) ;;
  dispose_loop n p.

(** What happens to the extension: the command is run, or the current
    panel is closed, which makes vscode call the [onDidDispose] listener of
    its instance. *)
Inductive panel_op : Type := RunCommand | ClosePanel.

Definition panel_step (o : panel_op) : P unit :=
  match o with
  | RunCommand => render
  | ClosePanel =>
      current <- gets currentPanel ;;
      match current with
      | Some p => dispose p
      | None => ret tt
      end
  end.

(** The panels that were created and those [dispose] was called on. *)
Definition created_panels (t : list panel_event) : list nat :=
  omap (λ e, match e with CreatePanel p => Some p | _ => None end) t.

Definition disposed_panels (t : list panel_event) : list nat :=
  omap (λ e, match e with DisposePanel p => Some p | _ => None end) t.

(** The panels that are open: created and not disposed. *)
Definition live_panels (t : list panel_event) : list nat :=
  filter (λ p, p ∉ disposed_panels t) (created_panels t).

(** Runs of the tabs and of the extension: the handlers one after the
    other, up to the first that throws. *)
Definition run_tabs (ops : list tab_op) : T unit := forEach ops tab_step.

Definition run_panel (ops : list panel_op) : P unit := forEach ops panel_step.

(** What the extension maintains: the panels created so far are one per
    instance; [dispose] was called on all of them but the current one; the
    current instance holds its two listeners and the others none. *)
Record panel_inv (s : extension) (t : list panel_event) : Prop := {
  pi_created : created_panels t = seq 0 (length (disposables s));
  pi_disposed : ∀ p, p ∈ disposed_panels t ↔
                     p < length (disposables s) ∧ currentPanel s ≠ Some p;
  pi_current : ∀ p, currentPanel s = Some p → p < length (disposables s);
  pi_listeners : ∀ p ds, disposables s !! p = Some ds →
                   ds = if decide (currentPanel s = Some p)
                        then [OnDidDispose; OnDidReceiveMessage] else [];
}.

(** * Properties *)

(** ** The equations of the bridge operations *)

Lemma truthy_Some o s : truthy o = Some s ↔ o = Some s ∧ s ≠ "".
Proof.
  destruct o as [x|]; simpl.
  - destruct (String.eqb_spec x "") as [->|Hx].
    + split; [discriminate | intros [[= <-] ?]; congruence].
    + split; [intros [= <-]; done | intros [[= <-] _]; done].
  - split; [discriminate | intros [? _]; discriminate].
Qed.

Lemma truthy_None o : truthy o = None ↔ o = None ∨ o = Some "".
Proof.
  destruct o as [x|]; simpl.
  - destruct (String.eqb_spec x "") as [->|Hx].
    + split; [by right | done].
    + split; [discriminate | intros [|[= ->]]; done].
  - split; [by left | done].
Qed.

Lemma call_isolated behaviour cmd v cb b :
  try_catch (call behaviour cb v) (λ e, emit (ConsoleError cmd e)) b
  = (Ok tt, b, delivery behaviour cmd v cb).
Proof.
  unfold try_catch, call, bind, emit, throw, ret, delivery.
  by destruct (behaviour cb v).
Qed.

Lemma forEach_isolated behaviour cmd v cbs b :
  forEach cbs (λ cb, try_catch (call behaviour cb v)
                               (λ e, emit (ConsoleError cmd e))) b
  = (Ok tt, b, flat_map (delivery behaviour cmd v) cbs).
Proof.
  induction cbs as [|cb cbs IH]; [done|].
  cbn [forEach flat_map]. unfold bind.
  by rewrite call_isolated, IH.
Qed.

Lemma handleMessage_response behaviour m rid b :
  truthy (requestId m) = Some rid →
  handleMessage behaviour m b =
    match pendingRequests b !! rid with
    | Some k => (Ok tt, set_pendingRequests (delete rid) b,
                 [settlement k (payload m) (error m)])
    | None => (Ok tt, b, [])
    end.
Proof.
  destruct m as [cmd v r e]; simpl. intros ->.
  unfold bind, gets, modify, emit, ret, settlement.
  destruct (pendingRequests b !! rid); [|done].
  by destruct (truthy e).
Qed.

Lemma handleMessage_notification behaviour m b :
  truthy (requestId m) = None →
  handleMessage behaviour m b =
    (Ok tt, b, flat_map (delivery behaviour (command m) (payload m))
                        (registered (command m) b)).
Proof.
  destruct m as [cmd v r e]; simpl. intros ->.
  unfold bind at 1. unfold gets at 1. unfold registered.
  destruct (subscribers b !! cmd) as [l|]; [|done].
  unfold bind, gets. by rewrite forEach_isolated.
Qed.

Lemma request_eq k cmd v now rnd b :
  request k cmd v now rnd b =
    (Ok tt, set_pendingRequests <[make_requestId cmd now rnd := k]> b,
     if vscodeApi b then
       [PostMessage {| command := cmd; payload := v;
                       requestId := Some (make_requestId cmd now rnd);
                       error := None |}]
     else
       [ConsoleWarn ("VS Code API not available. Rejecting request for command: "
                     +:+ cmd);
        SetTimeout {| t_command := cmd;
                      t_requestId := make_requestId cmd now rnd |} 100]).
Proof.
  unfold request, bind, gets, modify, emit. simpl.
  by destruct (vscodeApi b).
Qed.

Lemma make_requestId_nonempty cmd now rnd : make_requestId cmd now rnd ≠ "".
Proof.
  unfold make_requestId. destruct cmd; simpl; discriminate.
Qed.

(** ** Responses *)

(** C3 (as amended).  An inbound envelope that carries a non-empty
    [requestId] with no entry in the pending table is dropped: the handler
    returns normally, calls nothing, settles nothing and leaves the bridge,
    so the pending table and the subscriber map, as it was. *)
Theorem unmatched_response_dropped behaviour (b : bridge) (m : message) rid :
  requestId m = Some rid →
  rid ≠ "" →
  pendingRequests b !! rid = None →
  handleMessage behaviour m b = (Ok tt, b, []).
Proof.
  intros Hrid Hne Hnone.
  rewrite (handleMessage_response _ _ rid); [by rewrite Hnone|].
  by apply truthy_Some.
Qed.

Lemma unmatched_response_dropped_witness :
  handleMessage (λ _ _, None)
    {| command := "response"; payload := VNull;
       requestId := Some "getFileContent_1_0.5"; error := None |}
    (constructor true)
  = (Ok tt, constructor true, []).
Proof.
  apply (unmatched_response_dropped _ _ _ "getFileContent_1_0.5");
    [reflexivity | discriminate | reflexivity].
Defined.

(** C3: the claim as it stands fails for an envelope whose [requestId] is
    the empty string.  The pending table is empty, so the id matches
    nothing, yet the envelope is not dropped: [if (requestId)] takes it for
    a notification and the subscriber of its command is called. *)
Lemma empty_requestId_not_dropped :
  log (run (λ _ _, None)
         [OpSubscribe "refreshFileTree" 7;
          OpReceive {| command := "refreshFileTree"; payload := VStr "x";
                       requestId := Some ""; error := None |}]
         (boot true))
  = [Call 7 (VStr "x")].
Proof. vm_compute. reflexivity. Qed.

(** C4 (as amended).  When the [requestId] of an inbound envelope has an
    entry in the pending table, the handler rejects the entry's
    continuation with the envelope's error text if the error field is
    present and not empty, resolves it with the envelope's payload
    otherwise, and deletes the entry in both cases. *)
Theorem matched_response_settles behaviour (b : bridge) (m : message) rid k :
  pendingRequests b !! "" = None →
  requestId m = Some rid →
  pendingRequests b !! rid = Some k →
  handleMessage behaviour m b =
    (Ok tt, set_pendingRequests (delete rid) b,
     [match error m with
      | Some e => if String.eqb e "" then Resolve k (payload m) else Reject k e
      | None => Resolve k (payload m)
      end]).
Proof.
  intros Hids Hrid Hk.
  assert (rid ≠ "") as Hne by (intros ->; congruence).
  rewrite (handleMessage_response _ _ rid) by by apply truthy_Some.
  rewrite Hk. unfold settlement, truthy.
  destruct (error m) as [e|]; [|done]. by destruct (String.eqb e "").
Qed.

Lemma matched_response_settles_witness :
  handleMessage (λ _ _, None)
    {| command := "response"; payload := VNull; requestId := Some "r_1_0.5";
       error := Some "Failed to read file a.ts: FileNotFound" |}
    {| vscodeApi := true; pendingRequests := {["r_1_0.5" := 4]};
       subscribers := ∅; heap := [] |}
  = (Ok tt,
     set_pendingRequests (delete "r_1_0.5")
       {| vscodeApi := true; pendingRequests := {["r_1_0.5" := 4]};
          subscribers := ∅; heap := [] |},
     [Reject 4 "Failed to read file a.ts: FileNotFound"]).
Proof.
  etrans; [apply (matched_response_settles _ _ _ "r_1_0.5" 4)|]; reflexivity.
Defined.

(** C4: the claim as it stands fails for a response whose error field is
    present but empty.  The request is pending under the id the response
    carries, and the handler resolves its promise instead of rejecting it. *)
Lemma empty_error_resolves :
  log (run (λ _ _, None)
         [OpRequest "getFileContent" (VObj [("path", VStr "a.ts")]) "1" "0.5";
          OpReceive {| command := "response"; payload := VStr "late";
                       requestId := Some "getFileContent_1_0.5";
                       error := Some "" |}]
         (boot true))
  = [PostMessage {| command := "getFileContent";
                    payload := VObj [("path", VStr "a.ts")];
                    requestId := Some "getFileContent_1_0.5"; error := None |};
     Resolve 0 (VStr "late")].
Proof. vm_compute. reflexivity. Qed.

(** ** Notifications *)

Lemma calls_of_app cb t1 t2 : calls_of cb (t1 ++ t2) = calls_of cb t1 ++ calls_of cb t2.
Proof. unfold calls_of. apply omap_app. Qed.

Lemma registered_NoDup b cmd : bridge_wf b → NoDup (registered cmd b).
Proof.
  intros Hwf. unfold registered, members.
  destruct (subscribers b !! cmd) as [l|]; [|constructor].
  destruct (heap b !! l) as [s|] eqn:Hs; [|constructor].
  by eapply wf_nodup.
Qed.

(** ** Subscriptions *)

Lemma subscribe_old cmd cb b l :
  subscribers b !! cmd = Some l →
  subscribe cmd cb b =
    (Ok {| u_command := cmd; u_set := l; u_callback := cb |},
     set_heap (alter (set_add cb) l) b, []).
Proof.
  intros Hl. unfold subscribe, bind, gets, modify, ret. simpl.
  rewrite Hl, bool_decide_eq_true_2 by eauto. simpl. by rewrite Hl.
Qed.

Lemma subscribe_new cmd cb b :
  subscribers b !! cmd = None →
  subscribe cmd cb b =
    (Ok {| u_command := cmd; u_set := length (heap b); u_callback := cb |},
     {| vscodeApi := vscodeApi b; pendingRequests := pendingRequests b;
        subscribers := <[cmd := length (heap b)]> (subscribers b);
        heap := heap b ++ [[cb]] |}, []).
Proof.
  intros Hl. unfold subscribe, bind, gets, modify, ret. simpl.
  rewrite Hl, bool_decide_eq_false_2 by (by intros [? ?]).
  simpl. rewrite lookup_insert_eq.
  unfold set_heap; simpl.
  by rewrite alter_app_r_alt, Nat.sub_diag by done.
Qed.

Lemma run_unsubscribe_eq u b :
  run_unsubscribe u b =
    (Ok tt,
     if decide (length (members (u_set u)
                  (set_heap (alter (set_delete (u_callback u)) (u_set u)) b)) = 0)
     then set_subscribers (delete (u_command u))
            (set_heap (alter (set_delete (u_callback u)) (u_set u)) b)
     else set_heap (alter (set_delete (u_callback u)) (u_set u)) b,
     []).
Proof.
  unfold run_unsubscribe, bind, gets, modify, ret. simpl.
  by case_decide.
Qed.

Lemma set_add_NoDup cb s : NoDup s → NoDup (set_add cb s).
Proof.
  intros Hs. unfold set_add. case_decide; [done|].
  apply NoDup_app. split_and!; [done| |apply NoDup_singleton].
  intros x Hx ->%list_elem_of_singleton. done.
Qed.

Lemma set_delete_NoDup cb s : NoDup s → NoDup (set_delete cb s).
Proof. intros Hs. unfold set_delete. by apply NoDup_filter. Qed.

Lemma constructor_wf acquired : bridge_wf (constructor acquired).
Proof. split; simpl; intros; simplify_map_eq; done. Qed.

Lemma alter_heap_wf f l b :
  (∀ s, NoDup s → NoDup (f s)) →
  bridge_wf b → bridge_wf (set_heap (alter f l) b).
Proof.
  intros Hf [Ha Hi Hn Hid]. split; simpl; [|done| |done].
  - intros c l' Hl'. rewrite length_alter. eauto.
  - intros l' s. rewrite list_lookup_alter. case_decide as Hll.
    + subst l'. destruct (heap b !! l) as [s'|] eqn:Hs'; simpl; [|done].
      intros [= <-]. eauto.
    + eauto.
Qed.

Lemma subscribe_wf cmd cb b r b' t :
  bridge_wf b → subscribe cmd cb b = (r, b', t) → bridge_wf b'.
Proof.
  intros Hwf. destruct (subscribers b !! cmd) as [l|] eqn:Hl.
  - rewrite (subscribe_old _ _ _ l) by done. intros [= <- <- <-].
    apply alter_heap_wf; [apply set_add_NoDup|done].
  - rewrite subscribe_new by done. intros [= <- <- <-].
    destruct Hwf as [Ha Hi Hn Hid]. split; simpl; [| | |done].
    + intros c l. rewrite length_app; simpl.
      intros [[-> <-]|[_ Hc]]%lookup_insert_Some; [lia|].
      apply Ha in Hc. lia.
    + intros c1 c2 l.
      intros [[<- <-]|[? H1]]%lookup_insert_Some
             [[<- E]|[? H2]]%lookup_insert_Some; try done.
      * apply Ha in H2. lia.
      * apply Ha in H1. lia.
      * eauto.
    + intros l s [Hs|[_ Hs]]%lookup_app_Some; [eauto|].
      apply list_lookup_singleton_Some in Hs as [_ <-]. apply NoDup_singleton.
Qed.

Lemma run_unsubscribe_wf u b r b' t :
  bridge_wf b → run_unsubscribe u b = (r, b', t) → bridge_wf b'.
Proof.
  intros Hwf. rewrite run_unsubscribe_eq. intros [= <- <- <-].
  pose proof (alter_heap_wf (set_delete (u_callback u)) (u_set u) b
                (set_delete_NoDup _) Hwf) as Hwf1.
  case_decide; [|done].
  destruct Hwf1 as [Ha Hi Hn Hid]. split; simpl in *; [| | done | done].
  - intros c l [_ Hc]%lookup_delete_Some. eauto.
  - intros c1 c2 l [_ H1]%lookup_delete_Some [_ H2]%lookup_delete_Some. eauto.
Qed.

Lemma request_wf k cmd v now rnd b r b' t :
  bridge_wf b → request k cmd v now rnd b = (r, b', t) → bridge_wf b'.
Proof.
  intros [Ha Hi Hn Hid]. rewrite request_eq. intros [= <- <- <-].
  split; simpl; [done..|].
  rewrite lookup_insert_ne; [done|]. apply make_requestId_nonempty.
Qed.

Lemma handleMessage_wf behaviour m b r b' t :
  bridge_wf b → handleMessage behaviour m b = (r, b', t) → bridge_wf b'.
Proof.
  intros Hwf. destruct (truthy (requestId m)) as [rid|] eqn:Hrid.
  - rewrite (handleMessage_response _ _ rid) by done.
    destruct (pendingRequests b !! rid); intros [= <- <- <-]; [|done].
    destruct Hwf as [Ha Hi Hn Hid]. split; simpl; [done..|].
    apply lookup_delete_None. by right.
  - rewrite handleMessage_notification by done. by intros [= <- <- <-].
Qed.

Lemma step_wf behaviour o w :
  bridge_wf (br w) → bridge_wf (br (step behaviour o w)).
Proof.
  intros Hwf. destruct o as [cmd v now rnd|m| |cmd cb|u]; simpl.
  - unfold exec.
    destruct (request _ _ _ _ _ _) as [[r b'] t] eqn:E. simpl.
    by eapply request_wf.
  - destruct (vscodeApi (br w)); [|done]. unfold exec.
    destruct (handleMessage _ _ _) as [[r b'] t] eqn:E. simpl.
    by eapply handleMessage_wf.
  - destruct (timers w) as [|tm rest]; [done|]. unfold exec, run_timer.
    destruct (handleMessage _ _ _) as [[r b'] t] eqn:E. simpl.
    by eapply handleMessage_wf.
  - unfold exec. destruct (subscribe _ _ _) as [[r b'] t] eqn:E. simpl.
    by eapply subscribe_wf.
  - unfold exec. destruct (run_unsubscribe _ _) as [[r b'] t] eqn:E. simpl.
    by eapply run_unsubscribe_wf.
Qed.

Lemma run_wf behaviour ops w :
  bridge_wf (br w) → bridge_wf (br (run behaviour ops w)).
Proof.
  revert w. induction ops as [|o ops IH]; intros w Hwf; [done|].
  simpl. apply IH. by apply step_wf.
Qed.

Lemma boot_run_wf behaviour acquired ops :
  bridge_wf (br (run behaviour ops (boot acquired))).
Proof. apply run_wf. apply constructor_wf. Qed.

Lemma members_alter_delete cb l l' b :
  members l (set_heap (alter (set_delete cb) l') b) =
    if decide (l' = l) then set_delete cb (members l b) else members l b.
Proof.
  unfold members.
  change (heap (set_heap (alter (set_delete cb) l') b))
    with (alter (set_delete cb) l' (heap b)).
  destruct (decide (l' = l)) as [->|Hne].
  - rewrite list_lookup_alter_eq. destruct (heap b !! l); reflexivity.
  - by rewrite list_lookup_alter_ne.
Qed.

Lemma set_delete_notin cb s : cb ∉ set_delete cb s.
Proof. unfold set_delete. rewrite list_elem_of_filter. by intros [? _]. Qed.

(** What the closure returned by [subscribe] does as long as the set it
    captured is still the one registered under its command: it removes its
    callback and no other, it leaves the other commands alone, and it
    removes the command from the map exactly when no callback is left. *)
Lemma unsubscribe_while_current u b :
  bridge_wf b →
  subscribers b !! u_command u = Some (u_set u) →
  ∃ b', run_unsubscribe u b = (Ok tt, b', []) ∧
    registered (u_command u) b'
      = set_delete (u_callback u) (registered (u_command u) b) ∧
    (∀ c, c ≠ u_command u → registered c b' = registered c b) ∧
    (subscribers b' !! u_command u = None
       ↔ set_delete (u_callback u) (registered (u_command u) b) = []).
Proof.
  destruct u as [cmd l cb]; simpl. intros Hwf Hcur.
  rewrite run_unsubscribe_eq; simpl. eexists; split; [done|].
  assert (∀ c, c ≠ cmd → subscribers b !! c ≠ Some l) as Hother.
  { intros c Hc Hl. apply Hc. by eapply (wf_inj b Hwf). }
  assert (registered cmd b = members l b) as Hreg.
  { unfold registered. by rewrite Hcur. }
  rewrite Hreg.
  assert (∀ c, c ≠ cmd →
    registered c (set_heap (alter (set_delete cb) l) b) = registered c b) as Hframe.
  { intros c Hc. unfold registered; simpl.
    destruct (subscribers b !! c) as [l'|] eqn:Hl'; [|done].
    rewrite members_alter_delete, decide_False; [done|].
    intros ->. by apply (Hother c). }
  pose proof (members_alter_delete cb l l b) as Hm.
  rewrite decide_True in Hm by done.
  case_decide as Hsize; rewrite Hm in Hsize.
  - apply nil_length_inv in Hsize. rewrite Hsize. split_and!.
    + unfold registered; simpl. by rewrite lookup_delete_eq.
    + intros c Hc. rewrite <- Hframe by done.
      unfold registered; simpl. by rewrite lookup_delete_ne.
    + simpl. by rewrite lookup_delete_eq.
  - split_and!.
    + unfold registered; simpl. by rewrite Hcur.
    + done.
    + simpl. rewrite Hcur. split; [done|]. intros E. by rewrite E in Hsize.
Qed.

(** C5: the code at the failing scenario, on a fresh bridge.
      [u1 = subscribe(c, f); u2 = subscribe(c, f); u1();
       subscribe(c, g); u2();]
    The same function [f] (callback 1) is registered twice under the
    command, so [u1] and [u2] captured the same set.  [u1()] empties that
    set and removes the command from the map.  Another callback [g]
    (callback 2) is registered, in a new set.  [u2()], called for the first
    time, finds its own set empty and removes the command from the map
    again: it does not remove "exactly this callback" but the registration
    of [g], which no notification reaches any more although [g] was never
    unsubscribed. *)
Theorem unsubscribe_removes_sibling :
  ∃ u1 b1 u2 b2 b3 ug b4 b5,
    subscribe "refreshFileTree" 1 (constructor true) = (Ok u1, b1, []) ∧
    subscribe "refreshFileTree" 1 b1 = (Ok u2, b2, []) ∧
    run_unsubscribe u1 b2 = (Ok tt, b3, []) ∧
    subscribe "refreshFileTree" 2 b3 = (Ok ug, b4, []) ∧
    registered "refreshFileTree" b4 = [2] ∧
    run_unsubscribe u2 b4 = (Ok tt, b5, []) ∧
    registered "refreshFileTree" b5 = [] ∧
    members (u_set ug) b5 = [2] ∧
    handleMessage (λ _ _, None) (notification "refreshFileTree" VUndefined) b5
      = (Ok tt, b5, []).
Proof.
  eexists _, _, _, _, _, _, _, _. split_and!; vm_compute; reflexivity.
Qed.

(** The closure of an unsubscribe function whose captured set is empty
    removes its command from the map even when the set registered under
    the command is another one, which keeps its members but is no longer
    reached by any notification. *)
Lemma stale_unsubscribe_deletes_command behaviour (b : bridge) u l' v :
  members (u_set u) b = [] →
  subscribers b !! u_command u = Some l' →
  l' ≠ u_set u →
  ∃ b', run_unsubscribe u b = (Ok tt, b', []) ∧
    subscribers b' !! u_command u = None ∧
    members l' b' = members l' b ∧
    handleMessage behaviour (notification (u_command u) v) b' = (Ok tt, b', []).
Proof.
  intros Hempty Hnew Hne. rewrite run_unsubscribe_eq.
  pose proof (members_alter_delete (u_callback u) (u_set u) (u_set u) b) as Hm.
  rewrite decide_True, Hempty in Hm by done.
  rewrite Hm, decide_True by done. eexists. split; [done|]. split_and!.
  - simpl. apply lookup_delete_eq.
  - change (members l' (set_heap (alter (set_delete (u_callback u)) (u_set u)) b)
            = members l' b).
    rewrite members_alter_delete. by rewrite decide_False by done.
  - rewrite handleMessage_notification by done. unfold registered. simpl.
    by rewrite lookup_delete_eq.
Qed.

(** C10.  The function returned by [subscribe] keeps the set object that
    was registered when it was made.  Once that set is empty and the
    command has been removed from the map, and another callback has been
    registered under the command (in a new set), calling the function a
    second time removes the command from the map again: the new callback
    is still in its set but no notification reaches it any more, although
    its own unsubscribe function was never called. *)
Theorem stale_unsubscribe_drops_new_set behaviour (b : bridge)
    cmd (cb1 cb2 : callback) (v : value) :
  subscribers b !! cmd = None →
  ∃ u1 b1 b2 u2 b3 b4,
    subscribe cmd cb1 b = (Ok u1, b1, []) ∧
    run_unsubscribe u1 b1 = (Ok tt, b2, []) ∧
    subscribers b2 !! cmd = None ∧
    subscribe cmd cb2 b2 = (Ok u2, b3, []) ∧
    u_set u2 ≠ u_set u1 ∧
    registered cmd b3 = [cb2] ∧
    run_unsubscribe u1 b3 = (Ok tt, b4, []) ∧
    subscribers b4 !! cmd = None ∧
    members (u_set u2) b4 = [cb2] ∧
    handleMessage behaviour (notification cmd v) b4 = (Ok tt, b4, []).
Proof.
  intros Hnew.
  set (n := length (heap b)).
  set (b2 := {| vscodeApi := vscodeApi b; pendingRequests := pendingRequests b;
                subscribers := delete cmd (<[cmd := n]> (subscribers b));
                heap := heap b ++ [[]] |}).
  set (b4 := {| vscodeApi := vscodeApi b; pendingRequests := pendingRequests b;
                subscribers := delete cmd (<[cmd := S n]> (subscribers b2));
                heap := (heap b ++ [[]]) ++ [[cb2]] |}).
  assert (set_delete cb1 [cb1] = []) as Hdel.
  { unfold set_delete. by rewrite filter_cons_False by (intros Hne; by apply Hne). }
  assert (length (heap b2) = S n) as Hlen.
  { simpl. rewrite length_app. simpl. lia. }
  assert (heap b2 !! n = Some []) as Hn.
  { simpl. by rewrite lookup_app_r, Nat.sub_diag by done. }
  assert (subscribers b2 !! cmd = None) as H2 by apply lookup_delete_eq.
  eexists _, _, b2, _, _, b4. split_and!.
  - by apply subscribe_new.
  - rewrite run_unsubscribe_eq. unfold members, set_heap; simpl.
    rewrite alter_app_r_alt, Nat.sub_diag by done. simpl. rewrite Hdel.
    by rewrite lookup_app_r, Nat.sub_diag by done.
  - done.
  - rewrite subscribe_new by done. by rewrite Hlen.
  - simpl. lia.
  - unfold registered, members; simpl. rewrite lookup_insert_eq.
    rewrite lookup_app_r; rewrite length_app; simpl; [|lia].
    by replace (S n - (length (heap b) + 1)) with 0 by lia.
  - rewrite run_unsubscribe_eq. unfold members, set_heap; simpl.
    rewrite list_lookup_alter_eq.
    rewrite (lookup_app_l_Some _ _ _ _ Hn). simpl.
    rewrite alter_app_l by (rewrite length_app; simpl; lia).
    by rewrite alter_app_r_alt, Nat.sub_diag by done.
  - apply lookup_delete_eq.
  - unfold members; simpl.
    rewrite lookup_app_r; rewrite length_app; simpl; [|lia].
    by replace (S n - (length (heap b) + 1)) with 0 by lia.
  - rewrite handleMessage_notification by done. unfold registered; simpl.
    by rewrite lookup_delete_eq.
Qed.

Lemma stale_unsubscribe_drops_new_set_witness :
  ∃ u1 b1 b2 u2 b3 b4,
    subscribe "refreshFileTree" 1 (constructor true) = (Ok u1, b1, []) ∧
    run_unsubscribe u1 b1 = (Ok tt, b2, []) ∧
    subscribers b2 !! "refreshFileTree" = None ∧
    subscribe "refreshFileTree" 2 b2 = (Ok u2, b3, []) ∧
    u_set u2 ≠ u_set u1 ∧
    registered "refreshFileTree" b3 = [2] ∧
    run_unsubscribe u1 b3 = (Ok tt, b4, []) ∧
    subscribers b4 !! "refreshFileTree" = None ∧
    members (u_set u2) b4 = [2] ∧
    handleMessage (λ _ _, None) (notification "refreshFileTree" VNull) b4
      = (Ok tt, b4, []).
Proof.
  apply (stale_unsubscribe_drops_new_set (λ _ _, None) (constructor true)
           "refreshFileTree" 1 2 VNull).
  reflexivity.
Defined.

(** ** The text decoder *)

Lemma utf8_decode_start c rest :
  utf8_decode None (String c rest) =
    if byte_in 0x00 0x7F c then String c (utf8_decode None rest)
    else match lead c with
         | Some (needed, lo, hi) =>
             utf8_decode (Some (String c "", needed, lo, hi)) rest
         | None => replacement +:+ utf8_decode None rest
         end.
Proof. done. Qed.

Lemma utf8_decode_last seen lo hi c rest :
  byte_in lo hi c = true →
  utf8_decode (Some (seen, 1, lo, hi)) (String c rest)
  = seen +:+ String c (utf8_decode None rest).
Proof. intros H. cbn [utf8_decode]. by rewrite H. Qed.

Lemma utf8_decode_more seen n lo hi c rest :
  byte_in lo hi c = true →
  utf8_decode (Some (seen, S (S n), lo, hi)) (String c rest)
  = utf8_decode (Some (seen +:+ String c "", S n, 0x80%N, 0xBF%N)) rest.
Proof. intros H. cbn [utf8_decode]. by rewrite H. Qed.

Ltac bytes_lia :=
  unfold byte_in in *;
  repeat match goal with
  | H : bool_decide _ = true |- _ => apply bool_decide_eq_true_1 in H
  | H : bool_decide _ = false |- _ => apply bool_decide_eq_false_1 in H
  | H : _ && _ = true |- _ => apply andb_true_iff in H as [? ?]
  | H : _ || _ = true |- _ => apply orb_true_iff in H as [?|?]
  end.

Lemma lead_2 c :
  byte_in 0xC2 0xDF c = true → lead c = Some (1, 0x80%N, 0xBF%N).
Proof. intros H. unfold lead. unfold byte_in in H. by rewrite H. Qed.

Lemma lead_3 c d :
  byte_in 0xC2 0xDF c = false →
  byte_in 0xE0 0xE0 c && byte_in 0xA0 0xBF d
  || byte_in 0xE1 0xEC c && byte_in 0x80 0xBF d
  || byte_in 0xED 0xED c && byte_in 0x80 0x9F d
  || byte_in 0xEE 0xEF c && byte_in 0x80 0xBF d = true →
  ∃ lo hi, lead c = Some (2, lo, hi) ∧ byte_in lo hi d = true.
Proof.
  intros H2 H. unfold lead.
  rewrite bool_decide_eq_false_2 by (bytes_lia; lia).
  rewrite (bool_decide_eq_true_2 (0xE0 ≤ _ ≤ 0xEF)%N) by (bytes_lia; lia).
  eexists _, _. split; [done|]. unfold byte_in.
  apply bool_decide_eq_true_2.
  bytes_lia; repeat case_bool_decide; lia.
Qed.

Lemma lead_4 c d :
  byte_in 0xC2 0xDF c = false →
  byte_in 0xF0 0xF0 c && byte_in 0x90 0xBF d
  || byte_in 0xF1 0xF3 c && byte_in 0x80 0xBF d
  || byte_in 0xF4 0xF4 c && byte_in 0x80 0x8F d = true →
  ∃ lo hi, lead c = Some (3, lo, hi) ∧ byte_in lo hi d = true.
Proof.
  intros H2 H. unfold lead.
  rewrite bool_decide_eq_false_2 by (bytes_lia; lia).
  rewrite (bool_decide_eq_false_2 (0xE0 ≤ _ ≤ 0xEF)%N) by (bytes_lia; lia).
  rewrite (bool_decide_eq_true_2 (0xF0 ≤ _ ≤ 0xF4)%N) by (bytes_lia; lia).
  eexists _, _. split; [done|]. unfold byte_in.
  apply bool_decide_eq_true_2.
  bytes_lia; repeat case_bool_decide; lia.
Qed.

(** The decoder leaves well-formed text as it is. *)
Lemma utf8_decode_well_formed : ∀ n bytes,
  String.length bytes ≤ n → well_formed bytes = true →
  utf8_decode None bytes = bytes.
Proof.
  induction n as [|n IH]; intros bytes Hlen Hwf.
  { destruct bytes; [done|simpl in Hlen; lia]. }
  destruct bytes as [|b1 r1]; [done|].
  rewrite utf8_decode_start. cbn [well_formed] in Hwf. simpl in Hlen.
  destruct (byte_in 0x00 0x7F b1) eqn:H1.
  { rewrite IH; [done|lia|done]. }
  destruct r1 as [|b2 r2]; [done|]. simpl in Hlen.
  destruct (byte_in 0xC2 0xDF b1) eqn:H2.
  { apply andb_true_iff in Hwf as [Hb2 Hwf].
    rewrite (lead_2 _ H2), utf8_decode_last by done.
    rewrite IH; [done|lia|done]. }
  destruct r2 as [|b3 r3]; [done|]. simpl in Hlen.
  match type of Hwf with (if ?c then _ else _) = _ => destruct c eqn:H3 end.
  { apply andb_true_iff in Hwf as [Hb3 Hwf].
    destruct (lead_3 _ _ H2 H3) as (lo & hi & -> & Hb2).
    rewrite utf8_decode_more, utf8_decode_last by done.
    rewrite IH; [done|lia|done]. }
  destruct r3 as [|b4 r4]; [done|]. simpl in Hlen.
  apply andb_true_iff in Hwf as [Hwf' Hwf].
  apply andb_true_iff in Hwf' as [Hwf' Hb4].
  apply andb_true_iff in Hwf' as [H4 Hb3].
  destruct (lead_4 _ _ H2 H4) as (lo & hi & -> & Hb2).
  rewrite !utf8_decode_more, utf8_decode_last by done.
  rewrite IH; [done|lia|done].
Qed.

Lemma well_formed_strip_BOM bytes :
  well_formed bytes = true → well_formed (strip_BOM bytes) = true.
Proof.
  destruct bytes as [|c1 [|c2 [|c3 rest]]]; try done.
  unfold strip_BOM.
  destruct (String.eqb_spec (String c1 (String c2 (String c3 ""))) BOM)
    as [E|_]; [|done].
  injection E as -> -> ->. intros H. exact H.
Qed.

(** [decode] returns well-formed text as it is, without the byte order
    mark it may start with. *)
Lemma TextDecoder_decode_well_formed bytes :
  well_formed bytes = true → TextDecoder_decode bytes = strip_BOM bytes.
Proof.
  intros H. unfold TextDecoder_decode.
  apply (utf8_decode_well_formed (String.length (strip_BOM bytes)));
    [done|by apply well_formed_strip_BOM].
Qed.

(** ** The dispatcher *)

Lemma not_in_catalog cmd :
  cmd ∉ catalog →
  String.eqb cmd "getInitialData" = false ∧
  String.eqb cmd "getFileContent" = false ∧
  String.eqb cmd "updateFileContent" = false ∧
  String.eqb cmd "deleteFile" = false ∧
  String.eqb cmd "createFile" = false.
Proof.
  intros Hnotin. unfold catalog in Hnotin.
  repeat (apply not_elem_of_cons in Hnotin as [? Hnotin]).
  by rewrite !String.eqb_neq.
Qed.

(** C7 (as amended).  A request whose command is none of the five the
    dispatcher knows is ignored when a workspace is open: no message is
    posted, so no response for its id, and the host is left as it was.
    When no workspace is open the request is answered like any other, with
    the error "No workspace is open.". *)
Theorem unknown_command_outcome env (h : host) (m : message) :
  command m ∉ catalog →
  onDidReceiveMessage env m h =
    (Ok tt, h,
     match workspaceFolder h with
     | Some _ => []
     | None => [reply (requestId m) VNull (Some "No workspace is open.")]
     end).
Proof.
  intros (E1 & E2 & E3 & E4 & E5)%not_in_catalog.
  destruct m as [cmd v rid e]; simpl in *.
  unfold bind, gets. rewrite E1.
  destruct (workspaceFolder h) as [f|]; simpl; [|done].
  by rewrite E2, E3, E4, E5.
Qed.

Lemma unknown_command_outcome_witness :
  onDidReceiveMessage
    {| confirmation := None; inputBox := None; io_fault := None;
       found := []; clock := "0" |}
    {| command := "renameFile"; payload := VObj [];
       requestId := Some "renameFile_1_0.5"; error := None |}
    {| workspaceFolder := Some {| f_uri := "/ws"; f_name := "ws" |};
       files := {["/ws/a.ts" := "x"]} |}
  = (Ok tt,
     {| workspaceFolder := Some {| f_uri := "/ws"; f_name := "ws" |};
        files := {["/ws/a.ts" := "x"]} |},
     []).
Proof.
  etrans; [apply unknown_command_outcome|reflexivity].
  unfold catalog. simpl. intros Hin.
  repeat (apply elem_of_cons in Hin as [Hin|Hin]; [discriminate Hin|]).
  by apply elem_of_nil in Hin.
Defined.

(** C7: the claim as it stands fails when no workspace is open: the
    command is unknown, and a response for its id is sent. *)
Lemma unknown_command_answered :
  onDidReceiveMessage
    {| confirmation := None; inputBox := None; io_fault := None;
       found := []; clock := "0" |}
    {| command := "renameFile"; payload := VObj [];
       requestId := Some "renameFile_1_0.5"; error := None |}
    {| workspaceFolder := None; files := ∅ |}
  = (Ok tt, {| workspaceFolder := None; files := ∅ |},
     [{| command := "response"; payload := VNull;
         requestId := Some "renameFile_1_0.5";
         error := Some "No workspace is open." |}]).
Proof. vm_compute. reflexivity. Qed.

(** C8 (as amended).  A [deleteFile] request for [path], received while a
    workspace is open; the file it names is the one at the path joined to
    the folder and normalised.  If the user does not pick "Delete"
    (declines or dismisses the dialog), the dispatcher replies with the
    error "Deletion cancelled by user.", deletes nothing and posts no
    notification.  If the user picks "Delete" and the file system deletes
    the file, the file is gone, one [refreshFileTree] notification is
    posted and the reply carries [{success: true}].  If the user picks
    "Delete" and the deletion fails (the file does not exist, or the file
    system reports an error), the dispatcher replies with the error
    "Failed to delete file ...", deletes nothing and posts no
    notification. *)
Theorem deleteFile_outcome env (h : host) (m : message) f fields path :
  workspaceFolder h = Some f →
  command m = "deleteFile" →
  payload m = VObj fields →
  lookup_field "path" fields = VStr path →
  onDidReceiveMessage env m h =
    match confirmation env with
    | Some answer =>
        if String.eqb answer "Delete" then
          match io_fault env, files h !! (posix.join (f_uri f) path) with
          | None, Some _ =>
              (Ok tt, set_files (delete (posix.join (f_uri f) path)) h,
               [refreshFileTree;
                reply (requestId m) (VObj [("success", VBool true)]) None])
          | None, None =>
              (Ok tt, h,
               [reply (requestId m) VNull
                  (Some ("Failed to delete file " +:+ path +:+ ": FileNotFound"))])
          | Some e, _ =>
              (Ok tt, h,
               [reply (requestId m) VNull
                  (Some ("Failed to delete file " +:+ path +:+ ": " +:+ e))])
          end
        else
          (Ok tt, h, [reply (requestId m) VNull (Some "Deletion cancelled by user.")])
    | None =>
        (Ok tt, h, [reply (requestId m) VNull (Some "Deletion cancelled by user.")])
    end.
Proof.
  destruct m as [cmd v rid e]; simpl. intros Hf -> -> Hpath.
  unfold bind at 1. unfold gets at 1. rewrite Hf. simpl.
  unfold try_catch, bind, get_prop, ret, respond, emit. rewrite Hpath. simpl.
  destruct (confirmation env) as [answer|]; [|done].
  destruct (String.eqb_spec answer "Delete") as [->|Hne].
  - rewrite bool_decide_eq_true_2 by done.
    unfold fs_delete. destruct (io_fault env) as [err|]; [done|].
    unfold bind, gets, modify, throw.
    by destruct (files h !! (posix.join (f_uri f) path)).
  - rewrite bool_decide_eq_false_2; [done|]. by intros [= ->].
Qed.

Lemma deleteFile_outcome_witness :
  onDidReceiveMessage
    {| confirmation := Some "Delete"; inputBox := None; io_fault := None;
       found := []; clock := "0" |}
    {| command := "deleteFile"; payload := VObj [("path", VStr "src/../a.ts")];
       requestId := Some "deleteFile_1_0.5"; error := None |}
    {| workspaceFolder := Some {| f_uri := "/ws"; f_name := "ws" |};
       files := {["/ws/a.ts" := "x"]} |}
  = (Ok tt,
     set_files (delete "/ws/a.ts")
       {| workspaceFolder := Some {| f_uri := "/ws"; f_name := "ws" |};
          files := {["/ws/a.ts" := "x"]} |},
     [{| command := "refreshFileTree"; payload := VUndefined;
         requestId := None; error := None |};
      {| command := "response"; payload := VObj [("success", VBool true)];
         requestId := Some "deleteFile_1_0.5"; error := None |}]).
Proof.
  etrans;
    [apply (deleteFile_outcome _ _ _ {| f_uri := "/ws"; f_name := "ws" |}
              [("path", VStr "src/../a.ts")] "src/../a.ts"); reflexivity
    |vm_compute; reflexivity].
Defined.

(** C8: the claim as it stands fails when the user confirms the deletion
    of a file that does not exist: nothing is deleted, no notification is
    posted and the reply is an error. *)
Lemma deleteFile_confirmed_but_missing :
  onDidReceiveMessage
    {| confirmation := Some "Delete"; inputBox := None; io_fault := None;
       found := []; clock := "0" |}
    {| command := "deleteFile"; payload := VObj [("path", VStr "ghost.ts")];
       requestId := Some "deleteFile_1_0.5"; error := None |}
    {| workspaceFolder := Some {| f_uri := "/ws"; f_name := "ws" |};
       files := {["/ws/a.ts" := "x"]} |}
  = (Ok tt,
     {| workspaceFolder := Some {| f_uri := "/ws"; f_name := "ws" |};
        files := {["/ws/a.ts" := "x"]} |},
     [{| command := "response"; payload := VNull;
         requestId := Some "deleteFile_1_0.5";
         error := Some "Failed to delete file ghost.ts: FileNotFound" |}]).
Proof. vm_compute. reflexivity. Qed.

(** C9 (as amended).  A [createFile] request received while a workspace is
    open.  If the prompt is dismissed or returns the empty text, the
    dispatcher replies with the error "File creation cancelled by user."
    and writes nothing.  If the prompt returns a non-empty path [p] and the
    file system writes the file, the file at [p], joined to the folder and
    normalised, exists and is empty (whatever it held before), one
    [refreshFileTree] notification is posted and the reply carries
    [{success: true, path: p}], with the path as it was typed.  If the
    write fails, the dispatcher replies with the error "Failed to create
    file: ...", writes nothing and posts no notification. *)
Theorem createFile_outcome env (h : host) (m : message) f :
  workspaceFolder h = Some f →
  command m = "createFile" →
  onDidReceiveMessage env m h =
    match inputBox env with
    | Some p =>
        if String.eqb p "" then
          (Ok tt, h,
           [reply (requestId m) VNull (Some "File creation cancelled by user.")])
        else
          match io_fault env with
          | None =>
              (Ok tt, set_files <[posix.join (f_uri f) p := ""]> h,
               [refreshFileTree;
                reply (requestId m)
                  (VObj [("success", VBool true); ("path", VStr p)]) None])
          | Some e =>
              (Ok tt, h,
               [reply (requestId m) VNull (Some ("Failed to create file: " +:+ e))])
          end
    | None =>
        (Ok tt, h,
         [reply (requestId m) VNull (Some "File creation cancelled by user.")])
    end.
Proof.
  destruct m as [cmd v rid e]; simpl. intros Hf ->.
  unfold bind at 1. unfold gets at 1. rewrite Hf. simpl.
  unfold try_catch, truthy.
  destruct (inputBox env) as [p|]; [|done].
  destruct (String.eqb p ""); [done|].
  unfold bind, ret, respond, emit, fs_writeFile, modify, throw. simpl.
  by destruct (io_fault env).
Qed.

Lemma createFile_outcome_witness :
  onDidReceiveMessage
    {| confirmation := None; inputBox := Some "./src/new.ts"; io_fault := None;
       found := []; clock := "0" |}
    {| command := "createFile"; payload := VObj [];
       requestId := Some "createFile_1_0.5"; error := None |}
    {| workspaceFolder := Some {| f_uri := "/ws"; f_name := "ws" |};
       files := {["/ws/src/new.ts" := "old"]} |}
  = (Ok tt,
     {| workspaceFolder := Some {| f_uri := "/ws"; f_name := "ws" |};
        files := {["/ws/src/new.ts" := ""]} |},
     [{| command := "refreshFileTree"; payload := VUndefined;
         requestId := None; error := None |};
      {| command := "response";
         payload := VObj [("success", VBool true); ("path", VStr "./src/new.ts")];
         requestId := Some "createFile_1_0.5"; error := None |}]).
Proof.
  etrans;
    [apply (createFile_outcome _ _ _ {| f_uri := "/ws"; f_name := "ws" |});
       reflexivity
    |vm_compute; reflexivity].
Defined.

(** C9: the claim as it stands fails when the prompt returns a path and
    the file system refuses the write: no file is created, no notification
    is posted and the reply is an error. *)
Lemma createFile_write_refused :
  onDidReceiveMessage
    {| confirmation := None; inputBox := Some "src/new.ts";
       io_fault := Some "EACCES: permission denied";
       found := []; clock := "0" |}
    {| command := "createFile"; payload := VObj [];
       requestId := Some "createFile_1_0.5"; error := None |}
    {| workspaceFolder := Some {| f_uri := "/ws"; f_name := "ws" |};
       files := ∅ |}
  = (Ok tt,
     {| workspaceFolder := Some {| f_uri := "/ws"; f_name := "ws" |};
        files := ∅ |},
     [{| command := "response"; payload := VNull;
         requestId := Some "createFile_1_0.5";
         error := Some "Failed to create file: EACCES: permission denied" |}]).
Proof. vm_compute. reflexivity. Qed.

(** ** Runs: what one turn does to the page *)

Lemma settle_count_app k t1 t2 :
  settle_count k (t1 ++ t2) = settle_count k t1 + settle_count k t2.
Proof. induction t1 as [|e t1 IH]; simpl; lia. Qed.

Lemma settle_count_delivery behaviour cmd v cbs k :
  settle_count k (flat_map (delivery behaviour cmd v) cbs) = 0.
Proof.
  induction cbs as [|cb cbs IH]; [done|]. cbn [flat_map].
  rewrite settle_count_app, IH. unfold delivery.
  by destruct (behaviour cb v).
Qed.

Lemma scheduled_delivery behaviour cmd v cbs :
  scheduled (flat_map (delivery behaviour cmd v) cbs) = [].
Proof.
  induction cbs as [|cb cbs IH]; [done|]. cbn [flat_map].
  unfold scheduled in *. rewrite omap_app, IH. unfold delivery.
  by destruct (behaviour cb v).
Qed.

Lemma settles_settlement k k' v e :
  settles k' (settlement k v e) = bool_decide (k = k').
Proof. unfold settlement. by destruct (truthy e). Qed.

Lemma scheduled_settlement k v e : scheduled [settlement k v e] = [].
Proof. unfold settlement. by destruct (truthy e). Qed.

Lemma step_request behaviour c v now rnd w :
  step behaviour (OpRequest c v now rnd) w =
    {| br := set_pendingRequests <[make_requestId c now rnd := nextCont w]> (br w);
       timers := timers w ++
         (if vscodeApi (br w) then []
          else [{| t_command := c; t_requestId := make_requestId c now rnd |}]);
       log := log w ++
         (if vscodeApi (br w) then
            [PostMessage {| command := c; payload := v;
                            requestId := Some (make_requestId c now rnd);
                            error := None |}]
          else
            [ConsoleWarn ("VS Code API not available. Rejecting request for command: "
                          +:+ c);
             SetTimeout {| t_command := c;
                           t_requestId := make_requestId c now rnd |} 100]);
       nextCont := S (nextCont w) |}.
Proof.
  simpl. unfold exec. rewrite request_eq, Nat.add_1_r.
  by destruct (vscodeApi (br w)).
Qed.

Lemma exec_handleMessage behaviour m w :
  exec (handleMessage behaviour m) 0 w =
    match truthy (requestId m) with
    | Some rid =>
        match pendingRequests (br w) !! rid with
        | Some k =>
            {| br := set_pendingRequests (delete rid) (br w);
               timers := timers w;
               log := log w ++ [settlement k (payload m) (error m)];
               nextCont := nextCont w |}
        | None => w
        end
    | None =>
        {| br := br w; timers := timers w;
           log := log w ++ flat_map (delivery behaviour (command m) (payload m))
                                    (registered (command m) (br w));
           nextCont := nextCont w |}
    end.
Proof.
  unfold exec. destruct (truthy (requestId m)) as [rid|] eqn:Hrid.
  - rewrite (handleMessage_response _ _ rid) by done.
    destruct (pendingRequests (br w) !! rid) as [k|].
    + by rewrite scheduled_settlement, app_nil_r, Nat.add_0_r.
    + destruct w. simpl. by rewrite !app_nil_r, Nat.add_0_r.
  - rewrite handleMessage_notification by done.
    by rewrite scheduled_delivery, app_nil_r, Nat.add_0_r.
Qed.

Lemma exec_subscribe cmd cb w :
  ∃ b', exec (subscribe cmd cb) 0 w =
          {| br := b'; timers := timers w; log := log w; nextCont := nextCont w |}
        ∧ pendingRequests b' = pendingRequests (br w)
        ∧ vscodeApi b' = vscodeApi (br w).
Proof.
  unfold exec. destruct (subscribers (br w) !! cmd) as [l|] eqn:Hl.
  - rewrite (subscribe_old _ _ _ l) by done.
    eexists. by rewrite !app_nil_r, Nat.add_0_r.
  - rewrite subscribe_new by done.
    eexists. by rewrite !app_nil_r, Nat.add_0_r.
Qed.

Lemma exec_unsubscribe u w :
  ∃ b', exec (run_unsubscribe u) 0 w =
          {| br := b'; timers := timers w; log := log w; nextCont := nextCont w |}
        ∧ pendingRequests b' = pendingRequests (br w)
        ∧ vscodeApi b' = vscodeApi (br w).
Proof.
  unfold exec. rewrite run_unsubscribe_eq.
  eexists. rewrite !app_nil_r, Nat.add_0_r. split; [done|].
  by case_decide.
Qed.

(** A turn of the page is one of three things to the promises: a new
    request, the settlement of one pending request together with the
    removal of its entry, or nothing at all. *)
Lemma step_cases behaviour o w :
  vscodeApi (br (step behaviour o w)) = vscodeApi (br w) ∧
  ((∃ rid t, issued_id o = Some rid ∧
      pendingRequests (br (step behaviour o w))
        = <[rid := nextCont w]> (pendingRequests (br w)) ∧
      nextCont (step behaviour o w) = S (nextCont w) ∧
      log (step behaviour o w) = log w ++ t ∧
      ∀ k, settle_count k t = 0)
   ∨ (∃ rid k e, issued_id o = None ∧
      pendingRequests (br w) !! rid = Some k ∧
      pendingRequests (br (step behaviour o w))
        = delete rid (pendingRequests (br w)) ∧
      nextCont (step behaviour o w) = nextCont w ∧
      log (step behaviour o w) = log w ++ [e] ∧
      ∀ k', settles k' e = bool_decide (k = k'))
   ∨ (∃ t, issued_id o = None ∧
      pendingRequests (br (step behaviour o w)) = pendingRequests (br w) ∧
      nextCont (step behaviour o w) = nextCont w ∧
      log (step behaviour o w) = log w ++ t ∧
      ∀ k, settle_count k t = 0)).
Proof.
  assert (∀ m w0, vscodeApi (br w0) = vscodeApi (br w) →
            pendingRequests (br w0) = pendingRequests (br w) →
            nextCont w0 = nextCont w → log w0 = log w →
    vscodeApi (br (exec (handleMessage behaviour m) 0 w0)) = vscodeApi (br w) ∧
    ((∃ rid k e,
        pendingRequests (br w) !! rid = Some k ∧
        pendingRequests (br (exec (handleMessage behaviour m) 0 w0))
          = delete rid (pendingRequests (br w)) ∧
        nextCont (exec (handleMessage behaviour m) 0 w0) = nextCont w ∧
        log (exec (handleMessage behaviour m) 0 w0) = log w ++ [e] ∧
        ∀ k', settles k' e = bool_decide (k = k'))
     ∨ (∃ t,
        pendingRequests (br (exec (handleMessage behaviour m) 0 w0))
          = pendingRequests (br w) ∧
        nextCont (exec (handleMessage behaviour m) 0 w0) = nextCont w ∧
        log (exec (handleMessage behaviour m) 0 w0) = log w ++ t ∧
        ∀ k, settle_count k t = 0))) as Hhandle.
  { intros m w0 Hapi Hpend Hnext Hlog. rewrite exec_handleMessage.
    destruct (truthy (requestId m)) as [rid|].
    - rewrite Hpend.
      destruct (pendingRequests (br w) !! rid) as [k|] eqn:Hk.
      + simpl. split; [done|]. left. exists rid, k, (settlement k (payload m) (error m)).
        rewrite Hpend, Hnext, Hlog. split_and!; try done.
        intros k'. apply settles_settlement.
      + split; [done|]. right. exists []. by rewrite app_nil_r.
    - simpl. split; [done|]. right. eexists. rewrite Hlog. split_and!; try done.
      intros k. apply settle_count_delivery. }
  destruct o as [c v now rnd|m| |cmd cb|u].
  - rewrite step_request. simpl. split; [done|]. left.
    eexists _, _. split_and!; try done.
    intros k. by destruct (vscodeApi (br w)).
  - simpl. destruct (vscodeApi (br w)) eqn:Hapi.
    + destruct (Hhandle m w) as [? [H|H]]; try done. split; [congruence|].
      * right. left. destruct H as (rid & k & e & ?). by exists rid, k, e.
      * split; [congruence|]. right. right. destruct H as (t & ?). by exists t.
    + split; [done|]. right. right. exists []. by rewrite app_nil_r.
  - simpl. destruct (timers w) as [|tm rest] eqn:Htm.
    + split; [done|]. right. right. exists []. by rewrite app_nil_r.
    + unfold run_timer.
      destruct (Hhandle {| command := "response"; payload := VNull;
                           requestId := Some (t_requestId tm);
                           error := Some (mockError_message (t_command tm)) |}
                  (pop_timer w)) as [? [H|H]]; try done. split; [done|].
      * right. left. destruct H as (rid & k & e & ?). by exists rid, k, e.
      * split; [done|]. right. right. destruct H as (t & ?). by exists t.
  - simpl. destruct (exec_subscribe cmd cb w) as (b' & -> & Hp & Ha).
    simpl. split; [done|]. right. right. exists []. by rewrite app_nil_r.
  - simpl. destruct (exec_unsubscribe u w) as (b' & -> & Hp & Ha).
    simpl. split; [done|]. right. right. exists []. by rewrite app_nil_r.
Qed.

Lemma boot_inv acquired : world_inv (boot acquired).
Proof. split; simpl; intros; simplify_map_eq; done || lia. Qed.

Lemma step_inv behaviour o w :
  world_inv w → world_inv (step behaviour o w).
Proof.
  intros [Hp Hi Ho Hf Hid].
  destruct (step_cases behaviour o w) as [_ [H|[H|H]]].
  - destruct H as (rid & t & Hrid & Hpend & Hnext & Hlog & Hquiet).
    split; rewrite ?Hpend, ?Hnext, ?Hlog.
    + intros rid' k. rewrite settle_count_app, Hquiet.
      intros [[<- <-]|[_ Hk]]%lookup_insert_Some.
      * split; [lia|]. rewrite Hf; lia.
      * destruct (Hp _ _ Hk). split; lia.
    + intros r1 r2 k.
      intros [[<- <-]|[? H1]]%lookup_insert_Some
             [[<- E]|[? H2]]%lookup_insert_Some; try done.
      * destruct (Hp _ _ H2). lia.
      * destruct (Hp _ _ H1). lia.
      * eauto.
    + intros k. rewrite settle_count_app, Hquiet. specialize (Ho k). lia.
    + intros k Hk. rewrite settle_count_app, Hquiet, Hf; lia.
    + rewrite lookup_insert_ne; [done|].
      destruct o; simplify_eq/=. apply make_requestId_nonempty.
  - destruct H as (rid & k & e & _ & Hk & Hpend & Hnext & Hlog & He).
    destruct (Hp _ _ Hk) as [Hlt Hzero].
    assert (∀ k', settle_count k' (log w ++ [e])
                  = settle_count k' (log w) + if bool_decide (k = k') then 1 else 0)
      as Hcount.
    { intros k'. rewrite settle_count_app. simpl. rewrite He. lia. }
    split; rewrite ?Hpend, ?Hnext, ?Hlog.
    + intros rid' k' [Hne Hk']%lookup_delete_Some.
      destruct (Hp _ _ Hk') as [? ?]. split; [done|].
      rewrite Hcount, bool_decide_eq_false_2; [lia|].
      intros <-. apply Hne. eauto.
    + intros r1 r2 k' [_ H1]%lookup_delete_Some [_ H2]%lookup_delete_Some. eauto.
    + intros k'. rewrite Hcount. case_bool_decide; [subst; lia|].
      specialize (Ho k'). lia.
    + intros k' Hk'. rewrite Hcount, Hf by done.
      rewrite bool_decide_eq_false_2; lia.
    + apply lookup_delete_None. by right.
  - destruct H as (t & _ & Hpend & Hnext & Hlog & Hquiet).
    split; rewrite ?Hpend, ?Hnext, ?Hlog.
    + intros rid k Hk. rewrite settle_count_app, Hquiet.
      destruct (Hp _ _ Hk). split; lia.
    + done.
    + intros k. rewrite settle_count_app, Hquiet. specialize (Ho k). lia.
    + intros k Hk. rewrite settle_count_app, Hquiet, Hf; lia.
    + done.
Qed.

Lemma run_inv behaviour ops w :
  world_inv w → world_inv (run behaviour ops w).
Proof.
  revert w. induction ops as [|o ops IH]; intros w Hw; [done|].
  simpl. apply IH. by apply step_inv.
Qed.

Lemma run_app behaviour ops1 ops2 w :
  run behaviour (ops1 ++ ops2) w = run behaviour ops2 (run behaviour ops1 w).
Proof. unfold run. apply foldl_app. Qed.

Lemma step_log behaviour o w : ∃ t, log (step behaviour o w) = log w ++ t.
Proof.
  destruct (step_cases behaviour o w) as [_ [H|[H|H]]].
  - destruct H as (? & t & _ & _ & _ & ? & _). by exists t.
  - destruct H as (? & ? & e & _ & _ & _ & _ & ? & _). by exists [e].
  - destruct H as (t & _ & _ & _ & ? & _). by exists t.
Qed.

Lemma run_log behaviour ops w : ∃ t, log (run behaviour ops w) = log w ++ t.
Proof.
  revert w. induction ops as [|o ops IH]; intros w.
  - exists []. by rewrite app_nil_r.
  - simpl. destruct (IH (step behaviour o w)) as [t2 ->].
    destruct (step_log behaviour o w) as [t1 ->].
    exists (t1 ++ t2). by rewrite app_assoc.
Qed.

(** On every run of the page, with or without a transport, no promise is
    settled more than once, and a request whose entry is still in the
    pending table has not been settled. *)
Lemma settled_at_most_once behaviour acquired ops :
  (∀ k, settle_count k (log (run behaviour ops (boot acquired))) ≤ 1) ∧
  (∀ rid k,
     pendingRequests (br (run behaviour ops (boot acquired))) !! rid = Some k →
     settle_count k (log (run behaviour ops (boot acquired))) = 0).
Proof.
  pose proof (run_inv behaviour ops _ (boot_inv acquired)) as [Hp _ Ho _ _].
  split; [done|]. intros rid k Hk. by destruct (Hp _ _ Hk).
Qed.

(** Once settled, settled for good: the count of a promise that was
    settled once stays at one whatever the page does next. *)
Lemma settled_stays behaviour ops w k :
  world_inv w → settle_count k (log w) = 1 →
  settle_count k (log (run behaviour ops w)) = 1.
Proof.
  intros Hw Hk. pose proof (run_inv behaviour ops _ Hw) as [_ _ Ho _ _].
  specialize (Ho k). destruct (run_log behaviour ops w) as [t Ht].
  rewrite Ht, settle_count_app in *. lia.
Qed.

(** ** Concurrent requests *)

Lemma issue_all behaviour reqs w :
  NoDup (map id_of reqs) →
  nextCont (run behaviour (map issue reqs) w) = nextCont w + length reqs ∧
  vscodeApi (br (run behaviour (map issue reqs) w)) = vscodeApi (br w) ∧
  (∀ rid, rid ∉ map id_of reqs →
     pendingRequests (br (run behaviour (map issue reqs) w)) !! rid
       = pendingRequests (br w) !! rid) ∧
  (∀ i r, reqs !! i = Some r →
     pendingRequests (br (run behaviour (map issue reqs) w)) !! id_of r
       = Some (nextCont w + i)) ∧
  (∀ k, settle_count k (log (run behaviour (map issue reqs) w))
        = settle_count k (log w)).
Proof.
  revert w. induction reqs as [|r reqs IH]; intros w Hnd.
  - simpl. by split_and!.
  - change (NoDup (id_of r :: map id_of reqs)) in Hnd.
    apply NoDup_cons in Hnd as [Hr Hnd].
    change (run behaviour (map issue (r :: reqs)) w)
      with (run behaviour (map issue reqs) (step behaviour (issue r) w)).
    destruct (IH (step behaviour (issue r) w) Hnd)
      as (Hnext & Hapi & Hframe & Hidx & Hcount).
    assert (nextCont (step behaviour (issue r) w) = S (nextCont w) ∧
            vscodeApi (br (step behaviour (issue r) w)) = vscodeApi (br w) ∧
            pendingRequests (br (step behaviour (issue r) w))
              = <[id_of r := nextCont w]> (pendingRequests (br w)) ∧
            ∀ k, settle_count k (log (step behaviour (issue r) w))
                 = settle_count k (log w)) as (E1 & E2 & E3 & E4).
    { unfold issue. rewrite step_request. simpl. split_and!; try done.
      intros k. rewrite settle_count_app.
      destruct (vscodeApi (br w)); simpl; lia. }
    rewrite Hnext, Hapi, E1, E2. split_and!.
    + simpl. lia.
    + done.
    + intros rid [Hne Hnotin]%not_elem_of_cons.
      rewrite Hframe, E3 by done. by rewrite lookup_insert_ne.
    + intros [|i] r' Hi; simpl in Hi.
      * injection Hi as <-. rewrite Hframe, E3 by done.
        rewrite lookup_insert_eq. f_equal. lia.
      * rewrite (Hidx i r' Hi), E1. f_equal. lia.
    + intros k. by rewrite Hcount, E4.
Qed.

Lemma answer_all behaviour replies : ∀ rids w,
  world_inv w →
  vscodeApi (br w) = true →
  map requestId replies = map Some rids →
  NoDup rids →
  (∀ rid, rid ∈ rids → is_Some (pendingRequests (br w) !! rid)) →
  (∀ rid, pendingRequests (br (run behaviour (map OpReceive replies) w)) !! rid
          = if decide (rid ∈ rids) then None else pendingRequests (br w) !! rid) ∧
  (∀ rid k, rid ∈ rids → pendingRequests (br w) !! rid = Some k →
            settle_count k (log (run behaviour (map OpReceive replies) w)) = 1).
Proof.
  induction replies as [|m replies IH]; intros rids w Hw Hapi Hids Hnd Hpend.
  - destruct rids; [|done]. simpl. split.
    + done.
    + by intros rid k ?%elem_of_nil.
  - destruct rids as [|rid rids]; [done|].
    injection Hids as Hm Hids. apply NoDup_cons in Hnd as [Hrid Hnd].
    destruct (Hpend rid) as [k Hk]; [by left|].
    assert (rid ≠ "") as Hne.
    { intros ->. rewrite (inv_ids w Hw) in Hk. done. }
    pose proof (step_inv behaviour (OpReceive m) w Hw) as Hw1.
    cbn [map run foldl]. fold (run behaviour (map OpReceive replies)).
    assert (step behaviour (OpReceive m) w =
              {| br := set_pendingRequests (delete rid) (br w);
                 timers := timers w;
                 log := log w ++ [settlement k (payload m) (error m)];
                 nextCont := nextCont w |}) as Hstep.
    { simpl. rewrite Hapi, exec_handleMessage.
      rewrite (proj2 (truthy_Some (requestId m) rid)) by done.
      by rewrite Hk. }
    rewrite Hstep in *.
    destruct (IH rids _ Hw1 Hapi Hids Hnd) as [Hafter Hsettled].
    { intros rid' Hin. simpl. rewrite lookup_delete_ne; [|by intros <-].
      apply Hpend. by right. }
    split.
    + intros rid'. rewrite Hafter. simpl.
      destruct (decide (rid' = rid)) as [->|Hne'].
      * rewrite decide_False by done. rewrite decide_True by left.
        apply lookup_delete_eq.
      * rewrite lookup_delete_ne by done.
        destruct (decide (rid' ∈ rids)).
        -- by rewrite decide_True by by right.
        -- rewrite decide_False; [done|]. by intros [?|?]%elem_of_cons.
    + intros rid' k' Hin Hk'.
      destruct (decide (rid' = rid)) as [->|Hne'].
      * assert (k' = k) as -> by congruence.
        apply settled_stays; [done|]. simpl.
        rewrite settle_count_app. simpl.
        rewrite settles_settlement, bool_decide_eq_true_2 by done.
        destruct (inv_pending w Hw _ _ Hk) as [_ ->]. done.
      * apply elem_of_cons in Hin as [?|Hin]; [done|].
        apply (Hsettled rid'); [done|]. simpl. by rewrite lookup_delete_ne.
Qed.

(** C1 (as amended).  [reqs] are N calls of [request] whose correlation
    ids are pairwise distinct, made one after the other on a page with a
    transport, and [replies] are envelopes that carry these ids, one for
    each, in any order.  After the calls every request is pending under
    its id and none is settled.  After the replies have been handled, the
    pending table is empty and each of the N promises has been settled
    exactly once; whatever the page does afterwards, no promise is ever
    settled a second time, and a request that has an entry in the pending
    table is one that has not been settled. *)
Theorem concurrent_requests_settle behaviour reqs replies :
  NoDup (map id_of reqs) →
  map requestId replies ≡ₚ map (λ r, Some (id_of r)) reqs →
  (∀ i r, reqs !! i = Some r →
     pendingRequests (br (run behaviour (map issue reqs) (boot true))) !! id_of r
       = Some i ∧
     settle_count i (log (run behaviour (map issue reqs) (boot true))) = 0) ∧
  pendingRequests
    (br (run behaviour (map issue reqs ++ map OpReceive replies) (boot true))) = ∅ ∧
  (∀ k, k < length reqs →
     settle_count k
       (log (run behaviour (map issue reqs ++ map OpReceive replies) (boot true)))
     = 1) ∧
  (∀ more k,
     settle_count k
       (log (run behaviour more
               (run behaviour (map issue reqs ++ map OpReceive replies) (boot true))))
     ≤ 1) ∧
  (∀ more rid k,
     pendingRequests
       (br (run behaviour more
              (run behaviour (map issue reqs ++ map OpReceive replies) (boot true))))
       !! rid = Some k →
     settle_count k
       (log (run behaviour more
               (run behaviour (map issue reqs ++ map OpReceive replies) (boot true))))
     = 0).
Proof.
  intros Hnd Hperm.
  destruct (issue_all behaviour reqs (boot true) Hnd)
    as (Hnext & Hapi & Hframe & Hidx & Hcount).
  pose proof (run_inv behaviour (map issue reqs) _ (boot_inv true)) as Hw0.
  assert (∃ rids, map requestId replies = map Some rids ∧ rids ≡ₚ map id_of reqs)
    as (rids & Hrids & Hperm').
  { rewrite <- (map_map id_of Some) in Hperm.
    apply Permutation_map_inv in Hperm as (rids & ? & ?). by exists rids. }
  destruct (answer_all behaviour replies rids _ Hw0 Hapi Hrids) as [Hafter Hsettled].
  { by rewrite Hperm'. }
  { intros rid. rewrite Hperm'.
    intros (r & -> & [i Hi]%list_elem_of_lookup)%list_elem_of_fmap.
    rewrite (Hidx _ _ Hi). eauto. }
  rewrite !run_app. split_and!.
  - intros i r Hi. rewrite (Hidx _ _ Hi). split; [done|].
    by rewrite Hcount.
  - apply map_eq. intros rid. rewrite Hafter, lookup_empty.
    case_decide as Hin; [done|]. rewrite Hframe; [done|].
    by rewrite <- Hperm'.
  - intros k [r Hr]%lookup_lt_is_Some_2.
    apply (Hsettled (id_of r)).
    + rewrite Hperm'. apply list_elem_of_fmap. exists r. split; [done|].
      apply list_elem_of_lookup. eauto.
    + by rewrite (Hidx _ _ Hr).
  - intros more k. rewrite <- !run_app.
    apply settled_at_most_once.
  - intros more rid k. rewrite <- !run_app.
    apply settled_at_most_once.
Qed.

Lemma concurrent_requests_settle_witness :
  pendingRequests
    (br (run (λ _ _, None)
           (map issue
              [{| i_command := "deleteFile";
                  i_payload := VObj [("path", VStr "a.ts")];
                  i_now := "1"; i_rnd := "0.25" |};
               {| i_command := "deleteFile";
                  i_payload := VObj [("path", VStr "b.ts")];
                  i_now := "1"; i_rnd := "0.75" |}]
            ++ map OpReceive
              [{| command := "response"; payload := VObj [("success", VBool true)];
                  requestId := Some "deleteFile_1_0.75"; error := None |};
               {| command := "response"; payload := VNull;
                  requestId := Some "deleteFile_1_0.25";
                  error := Some "Deletion cancelled by user." |}])
           (boot true)))
  = ∅.
Proof.
  destruct (concurrent_requests_settle (λ _ _, None)
    [{| i_command := "deleteFile"; i_payload := VObj [("path", VStr "a.ts")];
        i_now := "1"; i_rnd := "0.25" |};
     {| i_command := "deleteFile"; i_payload := VObj [("path", VStr "b.ts")];
        i_now := "1"; i_rnd := "0.75" |}]
    [{| command := "response"; payload := VObj [("success", VBool true)];
        requestId := Some "deleteFile_1_0.75"; error := None |};
     {| command := "response"; payload := VNull;
        requestId := Some "deleteFile_1_0.25";
        error := Some "Deletion cancelled by user." |}])
    as (_ & Hempty & _).
  - apply (bool_decide_unpack _). vm_compute. exact I.
  - simpl. apply perm_swap.
  - exact Hempty.
Defined.

(** C1: the claim as it stands fails for a request that the host does not
    answer.  The page asks for a command the dispatcher has no case for
    while a workspace is open; the request is posted, the host handles it
    and posts nothing.  Afterwards no message is in flight and no timer is
    set, the entry is still in the pending table and the promise 0 has
    been neither resolved nor rejected. *)
Lemma unanswered_request_stays_pending :
  round_trip (λ _ _, None)
    {| confirmation := None; inputBox := None; io_fault := None;
       found := []; clock := "0" |}
    {| workspaceFolder := Some {| f_uri := "/ws"; f_name := "ws" |};
       files := ∅ |}
    "renameFile" (VObj []) "1" "0.5" (boot true)
  = ({| br := {| vscodeApi := true;
                 pendingRequests := {["renameFile_1_0.5" := 0]};
                 subscribers := ∅; heap := [] |};
        timers := [];
        log := [PostMessage {| command := "renameFile"; payload := VObj [];
                               requestId := Some "renameFile_1_0.5";
                               error := None |}];
        nextCont := 1 |},
     {| workspaceFolder := Some {| f_uri := "/ws"; f_name := "ws" |};
        files := ∅ |}).
Proof. vm_compute. reflexivity. Qed.

(** ** Requests without a transport *)

Lemma mockError_message_nonempty cmd : mockError_message cmd ≠ "".
Proof. unfold mockError_message. simpl. discriminate. Qed.

Lemma rejected_step behaviour o w rid k cmd :
  world_inv w → issued_id o ≠ Some rid →
  rejected rid k cmd w → rejected rid k cmd (step behaviour o w).
Proof.
  intros Hw Hid (Hapi & Hone & Hin & Hnone).
  pose proof (step_inv behaviour o w Hw) as [_ _ Ho _ _]. specialize (Ho k).
  destruct (step_cases behaviour o w) as [Hapi' Hcases].
  assert (∀ t, log (step behaviour o w) = log w ++ t →
            settle_count k (log (step behaviour o w)) = 1 ∧
            Reject k (mockError_message cmd) ∈ log (step behaviour o w))
    as Hlog.
  { intros t Ht. rewrite Ht in *. rewrite settle_count_app in *.
    split; [lia|]. apply elem_of_app. by left. }
  unfold rejected. rewrite Hapi'.
  destruct Hcases as [H|[H|H]].
  - destruct H as (rid' & t & Hrid' & Hpend & _ & Ht & _).
    destruct (Hlog t Ht). split_and!; try done.
    rewrite Hpend, lookup_insert_ne; [done|]. congruence.
  - destruct H as (rid' & k' & e & _ & _ & Hpend & _ & Ht & _).
    destruct (Hlog [e] Ht). split_and!; try done.
    rewrite Hpend. apply lookup_delete_None. by right.
  - destruct H as (t & _ & Hpend & _ & Ht & _).
    destruct (Hlog t Ht). split_and!; try done. by rewrite Hpend.
Qed.

Lemma rejected_run behaviour ops w rid k cmd :
  world_inv w → Forall (λ o, issued_id o ≠ Some rid) ops →
  rejected rid k cmd w → rejected rid k cmd (run behaviour ops w).
Proof.
  revert w. induction ops as [|o ops IH]; intros w Hw Hids Hrej; [done|].
  apply Forall_cons in Hids as [Hid Hids]. simpl.
  apply IH; [by apply step_inv|done|by apply rejected_step].
Qed.

Lemma awaiting_step behaviour o w rid k cmd n :
  o ≠ OpTimer → issued_id o ≠ Some rid →
  awaiting rid k cmd n w → awaiting rid k cmd n (step behaviour o w).
Proof.
  intros Hnt Hid (Hapi & Hk & Hn & Hbefore).
  destruct o as [c v now rnd|m| |c cb|u]; [| |done| |].
  - rewrite step_request. unfold awaiting. simpl. rewrite Hapi. split_and!.
    + done.
    + rewrite lookup_insert_ne; [done|]. simpl in Hid. congruence.
    + by apply lookup_app_l_Some.
    + intros i t Hi. rewrite lookup_app_l; [by apply Hbefore|].
      apply lookup_lt_Some in Hn. lia.
  - simpl. rewrite Hapi. by split_and!.
  - simpl. destruct (exec_subscribe c cb w) as (b' & -> & Hp & Ha).
    unfold awaiting. simpl. rewrite Hp, Ha. by split_and!.
  - simpl. destruct (exec_unsubscribe u w) as (b' & -> & Hp & Ha).
    unfold awaiting. simpl. rewrite Hp, Ha. by split_and!.
Qed.

Lemma awaiting_fire behaviour w rid k cmd n :
  world_inv w → rid ≠ "" →
  awaiting rid k cmd n w →
  match n with
  | 0 => rejected rid k cmd (step behaviour OpTimer w)
  | S n' => awaiting rid k cmd n' (step behaviour OpTimer w)
  end.
Proof.
  intros Hw Hne (Hapi & Hk & Hn & Hbefore).
  destruct (timers w) as [|tm rest] eqn:Htm; [done|].
  simpl. rewrite Htm. unfold run_timer. rewrite exec_handleMessage.
  cbn [requestId payload error command pop_timer br timers log nextCont tail].
  destruct n as [|n'].
  - injection Hn as ->. cbn [t_requestId t_command].
    rewrite (proj2 (truthy_Some (Some rid) rid)) by done.
    rewrite Hk. unfold rejected, settlement. simpl.
    split_and!.
    + done.
    + rewrite settle_count_app. simpl.
      rewrite bool_decide_eq_true_2 by done.
      destruct (inv_pending w Hw _ _ Hk) as [_ ->]. done.
    + apply elem_of_app. right. by left.
    + apply lookup_delete_eq.
  - simpl in Hn.
    assert (t_requestId tm ≠ rid) as Hother.
    { apply (Hbefore 0 tm); [lia|done]. }
    assert (∀ i t, i < n' → rest !! i = Some t → t_requestId t ≠ rid) as Hrest.
    { intros i t Hi Ht. apply (Hbefore (S i) t); [lia|done]. }
    destruct (truthy (Some (t_requestId tm))) as [rid'|] eqn:Hrid'.
    + apply truthy_Some in Hrid' as [[= <-] _].
      destruct (pendingRequests (br w) !! t_requestId tm) as [k'|].
      * unfold awaiting. simpl. rewrite Htm. simpl. split_and!; try done.
        by rewrite lookup_delete_ne.
      * unfold awaiting. simpl. rewrite Htm. simpl. by split_and!.
    + unfold awaiting. simpl. rewrite Htm. simpl. by split_and!.
Qed.

Lemma awaiting_run behaviour ops : ∀ w rid k cmd n,
  world_inv w → rid ≠ "" →
  Forall (λ o, issued_id o ≠ Some rid) ops →
  n < timer_turns ops →
  awaiting rid k cmd n w → rejected rid k cmd (run behaviour ops w).
Proof.
  induction ops as [|o ops IH]; intros w rid k cmd n Hw Hne Hids Hturns Hwait.
  - simpl in Hturns. lia.
  - apply Forall_cons in Hids as [Hid Hids].
    pose proof (step_inv behaviour o w Hw) as Hw'.
    assert (o = OpTimer ∨ o ≠ OpTimer) as [->|Hnt]
      by (destruct o; (by left) || (by right)).
    + pose proof (awaiting_fire behaviour w rid k cmd n Hw Hne Hwait) as Hfire.
      simpl in Hturns. destruct n as [|n'].
      * simpl. by apply rejected_run.
      * simpl. apply (IH _ _ _ _ n'); try done. lia.
    + simpl. apply (IH _ _ _ _ n); try done.
      * destruct o; simpl in *; done || lia.
      * by apply awaiting_step.
Qed.




(** ** Requests that get no response *)

Lemma pending_step behaviour o w rid k :
  timers w = [] → vscodeApi (br w) = true →
  issued_id o ≠ Some rid → answered_id o ≠ Some rid →
  pendingRequests (br w) !! rid = Some k →
  timers (step behaviour o w) = [] ∧
  vscodeApi (br (step behaviour o w)) = true ∧
  pendingRequests (br (step behaviour o w)) !! rid = Some k.
Proof.
  intros Htm Hapi Hid Hans Hk.
  destruct o as [c v now rnd|m| |c cb|u].
  - rewrite step_request. simpl. rewrite Hapi, Htm. split_and!; try done.
    rewrite lookup_insert_ne; [done|]. simpl in Hid. congruence.
  - simpl in *. rewrite Hapi, exec_handleMessage.
    destruct (truthy (requestId m)) as [rid'|]; [|done].
    destruct (pendingRequests (br w) !! rid'); [|done].
    simpl. split_and!; try done. rewrite lookup_delete_ne; [done|]. congruence.
  - simpl. by rewrite Htm.
  - simpl. destruct (exec_subscribe c cb w) as (b' & -> & Hp & Ha).
    simpl. by rewrite Hp, Ha.
  - simpl. destruct (exec_unsubscribe u w) as (b' & -> & Hp & Ha).
    simpl. by rewrite Hp, Ha.
Qed.

(** On a page with a transport, a pending request stays pending, and its
    promise unsettled, for as long as no envelope with its id arrives
    (and no later call of [request] takes its id): nothing else settles
    it, there is no timeout. *)
Lemma unanswered_stays_pending behaviour ops : ∀ w rid k,
  world_inv w → timers w = [] → vscodeApi (br w) = true →
  pendingRequests (br w) !! rid = Some k →
  Forall (λ o, issued_id o ≠ Some rid ∧ answered_id o ≠ Some rid) ops →
  pendingRequests (br (run behaviour ops w)) !! rid = Some k ∧
  settle_count k (log (run behaviour ops w)) = 0.
Proof.
  induction ops as [|o ops IH]; intros w rid k Hw Htm Hapi Hk Hops.
  - simpl. split; [done|]. by destruct (inv_pending w Hw _ _ Hk).
  - apply Forall_cons in Hops as [[Hid Hans] Hops].
    destruct (pending_step behaviour o w rid k) as (? & ? & ?); try done.
    simpl. apply IH; try done. by apply step_inv.
Qed.

(** * Further properties of the bridge *)

(** ** Promises over whole runs *)

(** On every run of the page from the constructor, with or without a
    transport and whatever the ids of the requests are, [resolve] and
    [reject] of one promise are called at most once in total, only
    promises that [request] created are settled, and a request that still
    has an entry in the pending table has not been settled. *)
Theorem never_settled_twice behaviour acquired ops k :
  settle_count k (log (run behaviour ops (boot acquired))) ≤ 1 ∧
  (nextCont (run behaviour ops (boot acquired)) ≤ k →
   settle_count k (log (run behaviour ops (boot acquired))) = 0) ∧
  (∀ rid,
     pendingRequests (br (run behaviour ops (boot acquired))) !! rid = Some k →
     settle_count k (log (run behaviour ops (boot acquired))) = 0).
Proof.
  pose proof (run_inv behaviour ops _ (boot_inv acquired)) as [Hp _ Ho Hf _].
  split_and!; [done|by apply Hf|].
  intros rid Hk. by destruct (Hp _ _ Hk).
Qed.

(** A response is consumed by the first envelope that carries its id: once
    an envelope with a non-empty [requestId] has been handled, a second
    envelope with the same id is dropped, whatever it carries. *)
Theorem duplicate_response_dropped behaviour (b : bridge) (m m' : message)
    rid r b1 t :
  requestId m = Some rid →
  rid ≠ "" →
  requestId m' = Some rid →
  handleMessage behaviour m b = (r, b1, t) →
  handleMessage behaviour m' b1 = (Ok tt, b1, []).
Proof.
  intros Hm Hne Hm' Hfirst.
  rewrite (handleMessage_response _ _ rid) in Hfirst by by apply truthy_Some.
  rewrite (handleMessage_response _ _ rid) by by apply truthy_Some.
  destruct (pendingRequests b !! rid) as [k|] eqn:Hk;
    injection Hfirst as <- <- <-.
  - simpl. by rewrite lookup_delete_eq.
  - by rewrite Hk.
Qed.

Lemma duplicate_response_dropped_witness :
  handleMessage (λ _ _, None)
    {| command := "response"; payload := VStr "again";
       requestId := Some "r_1_0.5"; error := None |}
    {| vscodeApi := true; pendingRequests := delete "r_1_0.5" {["r_1_0.5" := 4]};
       subscribers := ∅; heap := [] |}
  = (Ok tt,
     {| vscodeApi := true; pendingRequests := delete "r_1_0.5" {["r_1_0.5" := 4]};
        subscribers := ∅; heap := [] |},
     []).
Proof.
  apply (duplicate_response_dropped (λ _ _, None)
           {| vscodeApi := true; pendingRequests := {["r_1_0.5" := 4]};
              subscribers := ∅; heap := [] |}
           {| command := "response"; payload := VStr "first";
              requestId := Some "r_1_0.5"; error := None |}
           _ "r_1_0.5" (Ok tt) _ [Resolve 4 (VStr "first")]);
    [reflexivity | discriminate | reflexivity | reflexivity].
Defined.

Lemma set_pendingRequests_delete_insert rid k b :
  pendingRequests b !! rid = None →
  set_pendingRequests (delete rid) (set_pendingRequests <[rid := k]> b) = b.
Proof.
  intros Hnone. destruct b as [a p s h]. unfold set_pendingRequests. simpl in *.
  f_equal. by rewrite delete_insert_eq, delete_id.
Qed.

(** A request and its response make a round trip.  With a transport,
    [request] posts one envelope and nothing else; when an envelope that
    echoes the [requestId] of the posted one comes back, the promise of the
    call is resolved with the payload that came back (or rejected with its
    error text) and the bridge is exactly as it was before the call,
    provided the id was not already pending. *)
Theorem request_response_round_trip behaviour (b : bridge) k cmd v now rnd
    (answer : message) :
  vscodeApi b = true →
  pendingRequests b !! make_requestId cmd now rnd = None →
  requestId answer = Some (make_requestId cmd now rnd) →
  ∃ b1 sent,
    request k cmd v now rnd b = (Ok tt, b1, [PostMessage sent]) ∧
    command sent = cmd ∧ payload sent = v ∧
    requestId sent = requestId answer ∧
    handleMessage behaviour answer b1
      = (Ok tt, b,
         [match error answer with
          | Some e => if String.eqb e "" then Resolve k (payload answer)
                      else Reject k e
          | None => Resolve k (payload answer)
          end]).
Proof.
  intros Hapi Hfresh Hanswer. rewrite request_eq, Hapi.
  eexists _, _. split_and!; try done.
  rewrite (handleMessage_response _ _ (make_requestId cmd now rnd)).
  - simpl. rewrite lookup_insert_eq.
    rewrite set_pendingRequests_delete_insert by done.
    unfold settlement, truthy. destruct (error answer) as [e|]; [|done].
    by destruct (String.eqb e "").
  - apply truthy_Some. split; [done|]. apply make_requestId_nonempty.
Qed.

Lemma request_response_round_trip_witness :
  ∃ b1 sent,
    request 0 "getFileContent" (VObj [("path", VStr "a.ts")]) "1" "0.5"
      (constructor true) = (Ok tt, b1, [PostMessage sent]) ∧
    command sent = "getFileContent" ∧
    payload sent = VObj [("path", VStr "a.ts")] ∧
    requestId sent = Some "getFileContent_1_0.5" ∧
    handleMessage (λ _ _, None)
      {| command := "response";
         payload := VObj [("content", VStr "x"); ("sha", VStr "7")];
         requestId := Some "getFileContent_1_0.5"; error := None |} b1
      = (Ok tt, constructor true,
         [Resolve 0 (VObj [("content", VStr "x"); ("sha", VStr "7")])]).
Proof.
  apply (request_response_round_trip (λ _ _, None) (constructor true) 0
           "getFileContent" (VObj [("path", VStr "a.ts")]) "1" "0.5"
           {| command := "response";
              payload := VObj [("content", VStr "x"); ("sha", VStr "7")];
              requestId := Some "getFileContent_1_0.5"; error := None |});
    reflexivity.
Defined.

Lemma orphan_step behaviour o w k :
  world_inv w →
  k < nextCont w ∧ (∀ rid, pendingRequests (br w) !! rid ≠ Some k) ∧
    settle_count k (log w) = 0 →
  k < nextCont (step behaviour o w) ∧
    (∀ rid, pendingRequests (br (step behaviour o w)) !! rid ≠ Some k) ∧
    settle_count k (log (step behaviour o w)) = 0.
Proof.
  intros Hw (Hlt & Hgone & Hzero).
  destruct (step_cases behaviour o w) as [_ [H|[H|H]]].
  - destruct H as (rid & t & _ & Hpend & Hnext & Hlog & Hquiet).
    rewrite Hpend, Hnext, Hlog, settle_count_app, Hquiet. split_and!; [lia| |lia].
    intros rid'. intros [[_ ?]|[_ ?]]%lookup_insert_Some; [lia|by eapply Hgone].
  - destruct H as (rid & k' & e & _ & Hk' & Hpend & Hnext & Hlog & He).
    rewrite Hpend, Hnext, Hlog, settle_count_app. simpl. rewrite He.
    split_and!; [done| |].
    + intros rid' [_ ?]%lookup_delete_Some. by eapply Hgone.
    + rewrite bool_decide_eq_false_2; [lia|]. intros ->. by eapply Hgone.
  - destruct H as (t & _ & Hpend & Hnext & Hlog & Hquiet).
    rewrite Hpend, Hnext, Hlog, settle_count_app, Hquiet. split_and!; [done..|lia].
Qed.

Lemma orphan_run behaviour ops : ∀ w k,
  world_inv w →
  k < nextCont w ∧ (∀ rid, pendingRequests (br w) !! rid ≠ Some k) ∧
    settle_count k (log w) = 0 →
  settle_count k (log (run behaviour ops w)) = 0.
Proof.
  induction ops as [|o ops IH]; intros w k Hw Horphan.
  - by destruct Horphan as (_ & _ & ?).
  - simpl. apply IH; [by apply step_inv|by apply orphan_step].
Qed.

(** [request] does not look whether the id it made is already in the
    pending table: a second request that gets the id of a pending one takes
    over its entry, and the promise of the first request is never settled,
    whatever happens afterwards (responses with that id settle the second
    promise). *)
Theorem overwritten_promise_never_settles behaviour (w : world)
    cmd v now rnd k (ops : list op) :
  world_inv w →
  pendingRequests (br w) !! make_requestId cmd now rnd = Some k →
  pendingRequests (br (step behaviour (OpRequest cmd v now rnd) w))
    !! make_requestId cmd now rnd = Some (nextCont w) ∧
  nextCont w ≠ k ∧
  settle_count k
    (log (run behaviour ops (step behaviour (OpRequest cmd v now rnd) w))) = 0.
Proof.
  intros Hw Hk. destruct (inv_pending w Hw _ _ Hk) as [Hlt Hzero].
  split_and!.
  - rewrite step_request. simpl. apply lookup_insert_eq.
  - lia.
  - apply orphan_run; [by apply step_inv|].
    rewrite step_request. simpl. split_and!.
    + lia.
    + intros rid [[_ ?]|[Hne Hk']]%lookup_insert_Some; [lia|].
      apply Hne. by eapply (inv_inj w Hw).
    + rewrite settle_count_app, Hzero. by destruct (vscodeApi (br w)).
Qed.

Lemma overwritten_promise_never_settles_witness :
  settle_count 0
    (log (run (λ _ _, None)
            [OpReceive {| command := "response"; payload := VStr "x";
                          requestId := Some "getFileContent_1_0.5";
                          error := None |}]
            (step (λ _ _, None)
               (OpRequest "getFileContent" (VObj [("path", VStr "b.ts")]) "1" "0.5")
               (run (λ _ _, None)
                  [OpRequest "getFileContent" (VObj [("path", VStr "a.ts")])
                     "1" "0.5"]
                  (boot true))))) = 0.
Proof.
  apply (overwritten_promise_never_settles (λ _ _, None)
           (run (λ _ _, None)
              [OpRequest "getFileContent" (VObj [("path", VStr "a.ts")]) "1" "0.5"]
              (boot true))
           "getFileContent" (VObj [("path", VStr "b.ts")]) "1" "0.5" 0).
  - apply run_inv, boot_inv.
  - reflexivity.
Defined.

(** ** With and without a transport *)

Lemma posted_delivery behaviour cmd v cbs :
  posted (flat_map (delivery behaviour cmd v) cbs) = [].
Proof.
  induction cbs as [|cb cbs IH]; [done|]. cbn [flat_map].
  unfold posted in *. rewrite omap_app, IH. unfold delivery.
  by destruct (behaviour cb v).
Qed.

Lemma posted_settlement k v e : posted [settlement k v e] = [].
Proof. unfold settlement. by destruct (truthy e). Qed.

Lemma step_transport behaviour o w :
  ∃ t, log (step behaviour o w) = log w ++ t ∧
    vscodeApi (br (step behaviour o w)) = vscodeApi (br w) ∧
    (vscodeApi (br w) = true → timers w = [] →
       timers (step behaviour o w) = [] ∧ scheduled t = []) ∧
    (vscodeApi (br w) = false → posted t = []).
Proof.
  assert (∀ m w0,
    ∃ t, log (exec (handleMessage behaviour m) 0 w0) = log w0 ++ t ∧
      vscodeApi (br (exec (handleMessage behaviour m) 0 w0)) = vscodeApi (br w0) ∧
      timers (exec (handleMessage behaviour m) 0 w0) = timers w0 ∧
      scheduled t = [] ∧ posted t = []) as Hhandle.
  { intros m w0. rewrite exec_handleMessage.
    destruct (truthy (requestId m)) as [rid|].
    - destruct (pendingRequests (br w0) !! rid) as [k|].
      + eexists. simpl. split_and!; try done;
          [apply scheduled_settlement|apply posted_settlement].
      + exists []. by rewrite app_nil_r.
    - eexists. simpl. split_and!; try done;
        [apply scheduled_delivery|apply posted_delivery]. }
  destruct o as [c v now rnd|m| |c cb|u].
  - rewrite step_request. simpl. eexists. split_and!; try done.
    + intros -> ->. done.
    + by intros ->.
  - simpl. destruct (vscodeApi (br w)) eqn:Hapi.
    + destruct (Hhandle m w) as (t & Hlog & Ha & Htm & Hs & Hp).
      exists t. rewrite Ha, Htm. split_and!; try done.
    + exists []. rewrite app_nil_r. by split_and!.
  - simpl. destruct (timers w) as [|tm rest] eqn:Htm.
    + exists []. rewrite app_nil_r. by split_and!.
    + unfold run_timer.
      destruct (Hhandle {| command := "response"; payload := VNull;
                           requestId := Some (t_requestId tm);
                           error := Some (mockError_message (t_command tm)) |}
                  (pop_timer w)) as (t & Hlog & Ha & Htm' & Hs & Hp).
      exists t. rewrite Ha, Htm'. split_and!; try done.
  - simpl. destruct (exec_subscribe c cb w) as (b' & -> & Hp & Ha).
    exists []. simpl. rewrite app_nil_r. by split_and!.
  - simpl. destruct (exec_unsubscribe u w) as (b' & -> & Hp & Ha).
    exists []. simpl. rewrite app_nil_r. by split_and!.
Qed.

Lemma scheduled_app t1 t2 : scheduled (t1 ++ t2) = scheduled t1 ++ scheduled t2.
Proof. unfold scheduled. apply omap_app. Qed.

Lemma posted_app t1 t2 : posted (t1 ++ t2) = posted t1 ++ posted t2.
Proof. unfold posted. apply omap_app. Qed.

Lemma attached_run behaviour ops : ∀ w,
  vscodeApi (br w) = true → timers w = [] → scheduled (log w) = [] →
  vscodeApi (br (run behaviour ops w)) = true ∧
  timers (run behaviour ops w) = [] ∧
  scheduled (log (run behaviour ops w)) = [].
Proof.
  induction ops as [|o ops IH]; intros w Hapi Htm Hlog; [done|].
  destruct (step_transport behaviour o w) as (t & Ht & Ha & Hon & _).
  destruct (Hon Hapi Htm) as [Htm' Hs].
  simpl. apply IH; [congruence|done|].
  by rewrite Ht, scheduled_app, Hlog, Hs.
Qed.

Lemma detached_run behaviour ops : ∀ w,
  vscodeApi (br w) = false → posted (log w) = [] →
  vscodeApi (br (run behaviour ops w)) = false ∧
  posted (log (run behaviour ops w)) = [].
Proof.
  induction ops as [|o ops IH]; intros w Hapi Hlog; [done|].
  destruct (step_transport behaviour o w) as (t & Ht & Ha & _ & Hoff).
  simpl. apply IH; [congruence|].
  by rewrite Ht, posted_app, Hlog, Hoff.
Qed.

(** The two modes of the bridge never mix.  A page whose constructor got
    the transport never sets a timer, in any run.  A page whose
    constructor did not get it never posts a message, and an envelope that
    arrives on its window changes nothing, since no listener was
    installed. *)
Theorem transport_modes_separate behaviour ops :
  (timers (run behaviour ops (boot true)) = [] ∧
   scheduled (log (run behaviour ops (boot true))) = []) ∧
  (posted (log (run behaviour ops (boot false))) = [] ∧
   ∀ m, step behaviour (OpReceive m) (run behaviour ops (boot false))
        = run behaviour ops (boot false)).
Proof.
  destruct (attached_run behaviour ops (boot true)) as (_ & ? & ?); try done.
  destruct (detached_run behaviour ops (boot false)) as (Hapi & ?); try done.
  split_and!; try done. intros m. simpl. by rewrite Hapi.
Qed.

(** There is no timeout with a transport.  A request that is pending
    after some run of such a page stays pending, and its promise
    unsettled, over any continuation of the run in which no envelope with
    its id arrives and no later call of [request] makes the same id. *)
Theorem no_timeout_with_transport behaviour ops1 ops2 rid k :
  pendingRequests (br (run behaviour ops1 (boot true))) !! rid = Some k →
  Forall (λ o, issued_id o ≠ Some rid ∧ answered_id o ≠ Some rid) ops2 →
  pendingRequests (br (run behaviour (ops1 ++ ops2) (boot true))) !! rid = Some k ∧
  settle_count k (log (run behaviour (ops1 ++ ops2) (boot true))) = 0.
Proof.
  intros Hk Hops. rewrite run_app.
  destruct (attached_run behaviour ops1 (boot true)) as (Hapi & Htm & _); try done.
  apply unanswered_stays_pending; try done.
  apply run_inv, boot_inv.
Qed.

Lemma no_timeout_with_transport_witness :
  pendingRequests
    (br (run (λ _ _, None)
           ([OpRequest "renameFile" (VObj []) "1" "0.5"] ++
            [OpTimer; OpSubscribe "refreshFileTree" 1;
             OpReceive (notification "refreshFileTree" VUndefined); OpTimer])
           (boot true)))
    !! "renameFile_1_0.5" = Some 0.
Proof.
  apply (no_timeout_with_transport (λ _ _, None)
           [OpRequest "renameFile" (VObj []) "1" "0.5"]
           [OpTimer; OpSubscribe "refreshFileTree" 1;
            OpReceive (notification "refreshFileTree" VUndefined); OpTimer]
           "renameFile_1_0.5" 0).
  - reflexivity.
  - repeat constructor; discriminate.
Defined.

Lemma issue_all_timers behaviour reqs : ∀ w,
  vscodeApi (br w) = false →
  timers (run behaviour (map issue reqs) w)
    = timers w ++ map (λ r, {| t_command := i_command r;
                               t_requestId := id_of r |}) reqs.
Proof.
  induction reqs as [|r reqs IH]; intros w Hapi.
  - simpl. by rewrite app_nil_r.
  - change (run behaviour (map issue (r :: reqs)) w)
      with (run behaviour (map issue reqs) (step behaviour (issue r) w)).
    rewrite IH.
    + unfold issue at 1. rewrite step_request. simpl. rewrite Hapi.
      by rewrite <- app_assoc.
    + unfold issue. rewrite step_request. simpl. done.
Qed.

Lemma run_cons behaviour o ops w :
  run behaviour (o :: ops) w = run behaviour ops (step behaviour o w).
Proof. reflexivity. Qed.

Lemma timer_turns_app ops1 ops2 :
  timer_turns (ops1 ++ ops2) = timer_turns ops1 + timer_turns ops2.
Proof.
  induction ops1 as [|o ops1 IH]; [done|]. destruct o; simpl; lia.
Qed.

Lemma timer_turns_issue reqs : timer_turns (map issue reqs) = 0.
Proof. induction reqs as [|r reqs IH]; [done|]. done. Qed.

Lemma timer_turns_replicate n : timer_turns (replicate n OpTimer) = n.
Proof. induction n as [|n IH]; simpl; lia. Qed.

Lemma timers_keep_absent behaviour n : ∀ w rid,
  pendingRequests (br w) !! rid = None →
  pendingRequests (br (run behaviour (replicate n OpTimer) w)) !! rid = None.
Proof.
  induction n as [|n IH]; intros w rid Hnone; [done|].
  change (run behaviour (replicate (S n) OpTimer) w)
    with (run behaviour (replicate n OpTimer) (step behaviour OpTimer w)).
  apply IH.
  destruct (step_cases behaviour OpTimer w) as [_ [H|[H|H]]].
  - by destruct H as (? & ? & ? & _).
  - destruct H as (rid' & k & e & _ & _ & -> & _).
    apply lookup_delete_None. by right.
  - destruct H as (t & _ & -> & _). done.
Qed.

(** Without a transport, N requests with pairwise distinct ids followed
    by N timers: every one of the N promises has been rejected exactly
    once, with the message that names its own command, and the pending
    table is empty. *)
Theorem detached_requests_all_rejected behaviour reqs :
  NoDup (map id_of reqs) →
  pendingRequests
    (br (run behaviour (map issue reqs ++ replicate (length reqs) OpTimer)
           (boot false))) = ∅ ∧
  (∀ i r, reqs !! i = Some r →
     settle_count i
       (log (run behaviour (map issue reqs ++ replicate (length reqs) OpTimer)
               (boot false))) = 1 ∧
     Reject i (mockError_message (i_command r))
       ∈ log (run behaviour (map issue reqs ++ replicate (length reqs) OpTimer)
                (boot false))).
Proof.
  intros Hnd.
  assert (∀ i r, reqs !! i = Some r →
    rejected (id_of r) i (i_command r)
      (run behaviour (map issue reqs ++ replicate (length reqs) OpTimer)
         (boot false))) as Hall.
  { intros i r Hi.
    pose proof (take_drop_middle reqs i r Hi) as Hsplit.
    assert (length (take i reqs) = i) as Hlen.
    { rewrite length_take. apply lookup_lt_Some in Hi. lia. }
    rewrite <- Hsplit in Hnd. rewrite map_app in Hnd. simpl in Hnd.
    apply NoDup_app in Hnd as (Hnd1 & Hdisj & Hnd2).
    apply NoDup_cons in Hnd2 as [Hr2 Hnd2].
    rewrite <- Hsplit at 1.
    rewrite map_app, <- app_assoc, run_app, map_cons, <- app_comm_cons, run_cons.
    set (w := run behaviour (map issue (take i reqs)) (boot false)).
    destruct (issue_all behaviour (take i reqs) (boot false) Hnd1)
      as (Hnext & Hapi & _ & _ & _).
    pose proof (issue_all_timers behaviour (take i reqs) (boot false) eq_refl)
      as Htimers.
    fold w in Hnext, Hapi, Htimers. simpl in Hnext, Hapi, Htimers.
    rewrite Hlen in Hnext.
    pose proof (run_inv behaviour (map issue (take i reqs)) _ (boot_inv false))
      as Hw. fold w in Hw.
    apply (awaiting_run _ _ _ _ _ _ i).
    - by apply step_inv.
    - apply make_requestId_nonempty.
    - apply Forall_app. split.
      + apply Forall_forall. intros o (r' & -> & Hr')%list_elem_of_fmap.
        simpl. intros [= E]. apply Hr2. apply list_elem_of_fmap.
        exists r'. by split.
      + apply Forall_forall. by intros o ->%elem_of_replicate_inv.
    - rewrite timer_turns_app, timer_turns_issue, timer_turns_replicate.
      apply lookup_lt_Some in Hi. lia.
    - unfold issue. rewrite step_request. fold (id_of r).
      unfold awaiting. simpl. rewrite Hapi, Htimers, Hnext. split_and!.
      + done.
      + apply lookup_insert_eq.
      + rewrite list_lookup_middle; [done|]. by rewrite length_map.
      + intros j t Hj.
        rewrite lookup_app_l by (rewrite length_map; lia).
        intros (r' & -> & Hr')%list_lookup_fmap_Some. simpl.
        intros E. apply (Hdisj (id_of r')).
        * apply list_elem_of_fmap. exists r'. split; [done|].
          by eapply list_elem_of_lookup_2.
        * rewrite E. by left. }
  split.
  - apply map_eq. intros rid. rewrite lookup_empty.
    destruct (decide (rid ∈ map id_of reqs)) as [Hin|Hnotin].
    + apply list_elem_of_fmap in Hin as (r & -> & [i Hi]%list_elem_of_lookup).
      by destruct (Hall i r Hi) as (_ & _ & _ & ?).
    + rewrite run_app. apply timers_keep_absent.
      destruct (issue_all behaviour reqs (boot false) Hnd) as (_ & _ & Hframe & _).
      by rewrite Hframe.
  - intros i r Hi. by destruct (Hall i r Hi) as (_ & ? & ? & _).
Qed.

Lemma detached_requests_all_rejected_witness :
  pendingRequests
    (br (run (λ _ _, None)
           (map issue
              [{| i_command := "getInitialData"; i_payload := VObj [];
                  i_now := "1"; i_rnd := "0.25" |};
               {| i_command := "getFileContent";
                  i_payload := VObj [("path", VStr "a.ts")];
                  i_now := "1"; i_rnd := "0.75" |}]
            ++ replicate 2 OpTimer)
           (boot false))) = ∅.
Proof.
  refine (proj1 (detached_requests_all_rejected (λ _ _, None)
    [{| i_command := "getInitialData"; i_payload := VObj [];
        i_now := "1"; i_rnd := "0.25" |};
     {| i_command := "getFileContent"; i_payload := VObj [("path", VStr "a.ts")];
        i_now := "1"; i_rnd := "0.75" |}] _)).
  apply (bool_decide_unpack _). vm_compute. exact I.
Defined.

(** ** Subscribing *)

Lemma members_alter_add cb l b :
  l < length (heap b) →
  members l (set_heap (alter (set_add cb) l) b) = set_add cb (members l b).
Proof.
  intros [s Hs]%lookup_lt_is_Some_2. unfold members.
  change (heap (set_heap (alter (set_add cb) l) b))
    with (alter (set_add cb) l (heap b)).
  by rewrite list_lookup_alter_eq, Hs.
Qed.

Lemma members_alter_add_ne cb l l' b :
  l ≠ l' →
  members l' (set_heap (alter (set_add cb) l) b) = members l' b.
Proof.
  intros Hne. unfold members.
  change (heap (set_heap (alter (set_add cb) l) b))
    with (alter (set_add cb) l (heap b)).
  by rewrite list_lookup_alter_ne.
Qed.

Lemma subscribe_spec cmd cb b :
  bridge_wf b →
  ∃ u b', subscribe cmd cb b = (Ok u, b', []) ∧
    bridge_wf b' ∧
    u_command u = cmd ∧ u_callback u = cb ∧
    subscribers b' !! cmd = Some (u_set u) ∧
    registered cmd b' = set_add cb (registered cmd b) ∧
    (∀ c, c ≠ cmd → registered c b' = registered c b) ∧
    pendingRequests b' = pendingRequests b.
Proof.
  intros Hwf. destruct (subscribers b !! cmd) as [l|] eqn:Hl.
  - pose proof (subscribe_old cmd cb b l Hl) as Hsub.
    eexists _, _. split; [exact Hsub|].
    split; [by eapply subscribe_wf|]. simpl. split_and!; try done.
    + unfold registered. simpl. rewrite Hl.
      apply members_alter_add. by eapply (wf_alloc b Hwf).
    + intros c Hc. unfold registered. simpl.
      destruct (subscribers b !! c) as [l'|] eqn:Hl'; [|done].
      apply members_alter_add_ne. intros <-. apply Hc. by eapply (wf_inj b Hwf).
  - pose proof (subscribe_new cmd cb b Hl) as Hsub.
    eexists _, _. split; [exact Hsub|].
    split; [by eapply subscribe_wf|]. simpl. split_and!; try done.
    + apply lookup_insert_eq.
    + unfold registered, members. simpl. rewrite lookup_insert_eq, Hl.
      by rewrite lookup_app_r, Nat.sub_diag.
    + intros c Hc. unfold registered, members. simpl.
      rewrite lookup_insert_ne by done.
      destruct (subscribers b !! c) as [l'|] eqn:Hl'; [|done].
      rewrite lookup_app_l; [done|]. by eapply (wf_alloc b Hwf).
Qed.

Lemma set_add_idemp cb s : set_add cb (set_add cb s) = set_add cb s.
Proof.
  unfold set_add. destruct (decide (cb ∈ s)) as [Hin|Hnotin].
  - by rewrite decide_True.
  - rewrite decide_True; [done|]. apply elem_of_app. right. by left.
Qed.

(** Subscribing a callback that is already subscribed to the command
    changes nothing: the bridge is left exactly as the first call left it
    and the same unsubscribe function is returned. *)
Theorem subscribe_idempotent cmd cb (b : bridge) r b1 t :
  subscribe cmd cb b = (r, b1, t) →
  subscribe cmd cb b1 = (r, b1, []).
Proof.
  destruct (subscribers b !! cmd) as [l|] eqn:Hl.
  - rewrite (subscribe_old _ _ _ l) by done. intros [= <- <- <-].
    rewrite (subscribe_old _ _ _ l) by done. do 2 f_equal.
    destruct b as [a p s h]. unfold set_heap. simpl. f_equal.
    rewrite list_alter_alter_eq. apply list_alter_ext; [|done].
    intros x _. apply set_add_idemp.
  - rewrite subscribe_new by done. intros [= <- <- <-].
    rewrite (subscribe_old _ _ _ (length (heap b)))
      by (simpl; apply lookup_insert_eq).
    do 2 f_equal. unfold set_heap. simpl. f_equal.
    rewrite alter_app_r_alt, Nat.sub_diag by done. simpl.
    unfold set_add. rewrite decide_True; [done|]. by left.
Qed.

Lemma subscribe_idempotent_witness :
  subscribe "refreshFileTree" 1
    {| vscodeApi := true; pendingRequests := ∅;
       subscribers := {["refreshFileTree" := 0]}; heap := [[1]] |}
  = (Ok {| u_command := "refreshFileTree"; u_set := 0; u_callback := 1 |},
     {| vscodeApi := true; pendingRequests := ∅;
        subscribers := {["refreshFileTree" := 0]}; heap := [[1]] |},
     []).
Proof.
  exact (subscribe_idempotent "refreshFileTree" 1 (constructor true)
           (Ok {| u_command := "refreshFileTree"; u_set := 0; u_callback := 1 |})
           {| vscodeApi := true; pendingRequests := ∅;
              subscribers := {["refreshFileTree" := 0]}; heap := [[1]] |}
           [] eq_refl).
Defined.

Lemma set_delete_add_fresh cb s : cb ∉ s → set_delete cb (set_add cb s) = s.
Proof.
  intros Hnotin. unfold set_add. rewrite decide_False by done.
  unfold set_delete. rewrite filter_app.
  rewrite filter_cons_False, filter_nil, app_nil_r by (intros Hne; by apply Hne).
  induction s as [|x s IH]; [done|].
  apply not_elem_of_cons in Hnotin as [Hx Hs].
  rewrite filter_cons_True by (intros ->; done). by rewrite IH.
Qed.

(** Subscribing and unsubscribing at once is a round trip.  When [cb] is
    not yet registered for [cmd], calling the function that
    [subscribe(cmd, cb)] returns right away puts every command back to the
    callbacks it had: no notification can tell the difference. *)
Theorem subscribe_unsubscribe_round_trip cmd cb (b : bridge) :
  bridge_wf b →
  cb ∉ registered cmd b →
  ∃ u b1 b2,
    subscribe cmd cb b = (Ok u, b1, []) ∧
    run_unsubscribe u b1 = (Ok tt, b2, []) ∧
    (∀ c, registered c b2 = registered c b) ∧
    pendingRequests b2 = pendingRequests b.
Proof.
  intros Hwf Hnew.
  destruct (subscribe_spec cmd cb b Hwf)
    as (u & b1 & Hsub & Hwf1 & Hc & Hcb & Hcur & Hreg & Hother & Hpend).
  rewrite <- Hc in Hcur.
  destruct (unsubscribe_while_current u b1 Hwf1 Hcur)
    as (b2 & Hun & Hreg2 & Hother2 & _).
  exists u, b1, b2. split_and!; try done.
  - intros c. destruct (decide (c = cmd)) as [->|Hne].
    + rewrite Hc, Hcb, Hreg in Hreg2. rewrite Hreg2.
      by apply set_delete_add_fresh.
    + rewrite Hother2 by by rewrite Hc. by apply Hother.
  - rewrite run_unsubscribe_eq in Hun. injection Hun as <-.
    rewrite <- Hpend. by case_decide.
Qed.

Lemma subscribe_unsubscribe_round_trip_witness :
  ∃ u b1 b2,
    subscribe "refreshFileTree" 2
      (br (run (λ _ _, None) [OpSubscribe "refreshFileTree" 1] (boot true)))
      = (Ok u, b1, []) ∧
    run_unsubscribe u b1 = (Ok tt, b2, []) ∧
    (∀ c, registered c b2
          = registered c
              (br (run (λ _ _, None) [OpSubscribe "refreshFileTree" 1]
                     (boot true)))) ∧
    pendingRequests b2
      = pendingRequests
          (br (run (λ _ _, None) [OpSubscribe "refreshFileTree" 1] (boot true))).
Proof.
  apply (subscribe_unsubscribe_round_trip "refreshFileTree" 2
           (br (run (λ _ _, None) [OpSubscribe "refreshFileTree" 1] (boot true)))).
  - apply boot_run_wf.
  - vm_compute. intros Hin. apply elem_of_cons in Hin as [Hin|Hin]; [discriminate|].
    by apply elem_of_nil in Hin.
Defined.

(** * Further properties of the dispatcher *)

(** With no workspace open the dispatcher touches nothing and answers
    every message, whatever its command and payload, with exactly one
    error response that carries the id of the message: "No workspace folder
    is open. ..." for [getInitialData], "No workspace is open." for
    anything else. *)
Theorem no_workspace_outcome env (h : host) (m : message) :
  workspaceFolder h = None →
  onDidReceiveMessage env m h =
    (Ok tt, h,
     [reply (requestId m) VNull
        (Some (if String.eqb (command m) "getInitialData"
               then "No workspace folder is open. Please open a project to use the assistant."
               else "No workspace is open."))]).
Proof.
  destruct m as [cmd v rid e]; simpl. intros Hnone.
  unfold bind, gets. rewrite Hnone. simpl.
  by destruct (String.eqb cmd "getInitialData").
Qed.

Lemma no_workspace_outcome_witness :
  onDidReceiveMessage
    {| confirmation := Some "Delete"; inputBox := Some "a.ts"; io_fault := None;
       found := []; clock := "0" |}
    {| command := "getInitialData"; payload := VObj [];
       requestId := Some "getInitialData_1_0.5"; error := None |}
    {| workspaceFolder := None; files := ∅ |}
  = (Ok tt, {| workspaceFolder := None; files := ∅ |},
     [{| command := "response"; payload := VNull;
         requestId := Some "getInitialData_1_0.5";
         error := Some "No workspace folder is open. Please open a project to use the assistant." |}]).
Proof.
  etrans; [apply no_workspace_outcome|]; reflexivity.
Defined.

(** Whatever the message, the environment and the host, the dispatcher
    posts nothing, or one response, or one [refreshFileTree] notification
    followed by one response without error; a response always carries the
    [requestId] of the message it answers.  A handler that ends with an
    exception has posted nothing. *)
Theorem dispatcher_reply_shape env (h : host) (m : message) r h' out :
  onDidReceiveMessage env m h = (r, h', out) →
  (out = [] ∨
   (∃ data err, out = [reply (requestId m) data err]) ∨
   (∃ data, out = [refreshFileTree; reply (requestId m) data None])) ∧
  (∀ e, r = Throw e → out = [] ∧ h' = h).
Proof.
  destruct m as [cmd v rid e0]. simpl.
  unfold bind at 1. unfold gets at 1.
  destruct (workspaceFolder h) as [f|] eqn:Hf; simpl.
  2:{ destruct (String.eqb cmd "getInitialData"); simpl;
      intros [= <- <- <-]; split; eauto; by intros. }
  destruct (String.eqb cmd "getInitialData");
    [intros [= <- <- <-]; split; eauto; by intros|].
  unfold try_catch, bind, gets, modify, emit, throw, ret, respond,
    get_prop, joinPath, uri_of, fs_readFile, fs_writeFile, fs_delete.
  repeat (case_match;
          unfold bind, gets, modify, emit, throw, ret in *; simplify_eq/=).
  all: intros; simplify_eq/=.
  all: split; [eauto 6|intros; by simplify_eq].
Qed.

Lemma dispatcher_reply_shape_witness :
  [refreshFileTree;
   reply (Some "deleteFile_1_0.5") (VObj [("success", VBool true)]) None] = [] ∨
  (∃ data err,
     [refreshFileTree;
      reply (Some "deleteFile_1_0.5") (VObj [("success", VBool true)]) None]
     = [reply (Some "deleteFile_1_0.5") data err]) ∨
  (∃ data,
     [refreshFileTree;
      reply (Some "deleteFile_1_0.5") (VObj [("success", VBool true)]) None]
     = [refreshFileTree; reply (Some "deleteFile_1_0.5") data None]).
Proof.
  exact (proj1 (dispatcher_reply_shape
    {| confirmation := Some "Delete"; inputBox := None; io_fault := None;
       found := []; clock := "0" |}
    {| workspaceFolder := Some {| f_uri := "/ws"; f_name := "ws" |};
       files := {["/ws/a.ts" := "x"]} |}
    {| command := "deleteFile"; payload := VObj [("path", VStr "a.ts")];
       requestId := Some "deleteFile_1_0.5"; error := None |}
    (Ok tt)
    (set_files (delete "/ws/a.ts")
       {| workspaceFolder := Some {| f_uri := "/ws"; f_name := "ws" |};
          files := {["/ws/a.ts" := "x"]} |})
    [refreshFileTree;
     reply (Some "deleteFile_1_0.5") (VObj [("success", VBool true)]) None]
    eq_refl)).
Defined.

(** [getFileContent] with a workspace open and a path given.  The file
    that is read is the one at the path joined to the folder and
    normalised; the reply carries its bytes decoded as UTF-8 (without a
    leading byte order mark, with U+FFFD for what is not well formed) and
    the clock as its [sha]; if the file does not exist or the file system
    fails, the reply is the error "Failed to read file <path>: <reason>",
    with the path as it was sent.  In no case is the host changed or a
    notification posted. *)
Theorem getFileContent_outcome env (h : host) (m : message) f fields path :
  workspaceFolder h = Some f →
  command m = "getFileContent" →
  payload m = VObj fields →
  lookup_field "path" fields = VStr path →
  onDidReceiveMessage env m h =
    (Ok tt, h,
     [match io_fault env, files h !! (posix.join (f_uri f) path) with
      | None, Some bytes =>
          reply (requestId m)
            (VObj [("content", VStr (TextDecoder_decode bytes));
                   ("sha", VStr (clock env))]) None
      | None, None =>
          reply (requestId m) VNull
            (Some ("Failed to read file " +:+ path +:+ ": FileNotFound"))
      | Some e, _ =>
          reply (requestId m) VNull
            (Some ("Failed to read file " +:+ path +:+ ": " +:+ e))
      end]).
Proof.
  destruct m as [cmd v rid e]; simpl. intros Hf -> -> Hpath.
  unfold bind at 1. unfold gets at 1. rewrite Hf. simpl.
  unfold try_catch, bind, get_prop, ret, respond, emit. rewrite Hpath. simpl.
  unfold fs_readFile. destruct (io_fault env) as [err|]; [done|].
  unfold bind, gets, throw, ret.
  by destruct (files h !! (posix.join (f_uri f) path)).
Qed.

Lemma getFileContent_outcome_witness :
  onDidReceiveMessage
    {| confirmation := None; inputBox := None; io_fault := None;
       found := []; clock := "1700" |}
    {| command := "getFileContent";
       payload := VObj [("path", VStr "src/../a.ts")];
       requestId := Some "getFileContent_1_0.5"; error := None |}
    {| workspaceFolder := Some {| f_uri := "/ws"; f_name := "ws" |};
       files := {["/ws/a.ts" := BOM +:+ "x"]} |}
  = (Ok tt,
     {| workspaceFolder := Some {| f_uri := "/ws"; f_name := "ws" |};
        files := {["/ws/a.ts" := BOM +:+ "x"]} |},
     [{| command := "response";
         payload := VObj [("content", VStr "x"); ("sha", VStr "1700")];
         requestId := Some "getFileContent_1_0.5";
         error := None |}]).
Proof.
  etrans;
    [apply (getFileContent_outcome _ _ _ {| f_uri := "/ws"; f_name := "ws" |}
              [("path", VStr "src/../a.ts")] "src/../a.ts"); reflexivity
    |vm_compute; reflexivity].
Defined.

(** [updateFileContent] with a workspace open and a path given replaces
    the whole content of the file at the path, joined to the folder and
    normalised, by the text of [newContent], creating the file if it did
    not exist, and replies with the clock as [newSha];
    a missing [newContent] empties the file.  If the file system fails,
    the reply is the error "Failed to write file <path>: <reason>" and
    nothing is written.  No notification is posted in either case. *)
Theorem updateFileContent_outcome env (h : host) (m : message) f fields path :
  workspaceFolder h = Some f →
  command m = "updateFileContent" →
  payload m = VObj fields →
  lookup_field "path" fields = VStr path →
  onDidReceiveMessage env m h =
    match io_fault env with
    | None =>
        (Ok tt,
         set_files <[posix.join (f_uri f) path :=
                       encode (lookup_field "newContent" fields)]> h,
         [reply (requestId m) (VObj [("newSha", VStr (clock env))]) None])
    | Some e =>
        (Ok tt, h,
         [reply (requestId m) VNull
            (Some ("Failed to write file " +:+ path +:+ ": " +:+ e))])
    end.
Proof.
  destruct m as [cmd v rid e]; simpl. intros Hf -> -> Hpath.
  unfold bind at 1. unfold gets at 1. rewrite Hf. simpl.
  unfold try_catch, bind, get_prop, ret, respond, emit. rewrite Hpath.
  cbn [joinPath]. unfold ret, fs_writeFile, modify, throw.
  by destruct (io_fault env).
Qed.

Lemma updateFileContent_outcome_witness :
  onDidReceiveMessage
    {| confirmation := None; inputBox := None; io_fault := None;
       found := []; clock := "1700" |}
    {| command := "updateFileContent";
       payload := VObj [("path", VStr "./a.ts"); ("newContent", VStr "new")];
       requestId := Some "updateFileContent_1_0.5"; error := None |}
    {| workspaceFolder := Some {| f_uri := "/ws"; f_name := "ws" |};
       files := {["/ws/a.ts" := "a long old text"]} |}
  = (Ok tt,
     {| workspaceFolder := Some {| f_uri := "/ws"; f_name := "ws" |};
        files := {["/ws/a.ts" := "new"]} |},
     [{| command := "response"; payload := VObj [("newSha", VStr "1700")];
         requestId := Some "updateFileContent_1_0.5"; error := None |}]).
Proof.
  etrans;
    [apply (updateFileContent_outcome _ _ _ {| f_uri := "/ws"; f_name := "ws" |}
              [("path", VStr "./a.ts"); ("newContent", VStr "new")] "./a.ts");
       reflexivity
    |vm_compute; reflexivity].
Defined.

(** What was written is what is read, but for a byte order mark: after
    an [updateFileContent] that the file system carried out, a
    [getFileContent] for the same path, or for any spelling of it that
    names the same file, replies with the text that was sent as
    [newContent] without the byte order mark it may start with (the
    decoder drops it). *)
Theorem write_then_read env env' (h : host) (w r : message) f path path'
    text res h1 out :
  workspaceFolder h = Some f →
  io_fault env = None → io_fault env' = None →
  posix.join (f_uri f) path' = posix.join (f_uri f) path →
  well_formed text = true →
  command w = "updateFileContent" →
  payload w = VObj [("path", VStr path); ("newContent", VStr text)] →
  command r = "getFileContent" →
  payload r = VObj [("path", VStr path')] →
  onDidReceiveMessage env w h = (res, h1, out) →
  onDidReceiveMessage env' r h1 =
    (Ok tt, h1,
     [reply (requestId r)
        (VObj [("content", VStr (strip_BOM text)); ("sha", VStr (clock env'))])
        None]).
Proof.
  destruct w as [cw vw ridw ew], r as [cr vr ridr er]; simpl.
  intros Hf Hio Hio' Hsame Hwf -> -> -> ->.
  unfold bind at 1. unfold gets at 1. rewrite Hf. simpl.
  unfold try_catch, bind, ret, respond, emit, fs_writeFile, modify. rewrite Hio.
  simpl. intros [= <- <- <-].
  unfold gets. simpl. rewrite Hf. simpl.
  unfold fs_readFile, bind, gets, ret. rewrite Hio'. simpl.
  rewrite Hsame, lookup_insert_eq.
  by rewrite TextDecoder_decode_well_formed.
Qed.

Lemma write_then_read_witness :
  onDidReceiveMessage
    {| confirmation := None; inputBox := None; io_fault := None;
       found := []; clock := "1701" |}
    {| command := "getFileContent"; payload := VObj [("path", VStr "./a.ts")];
       requestId := Some "getFileContent_2_0.5"; error := None |}
    {| workspaceFolder := Some {| f_uri := "/ws"; f_name := "ws" |};
       files := {["/ws/a.ts" := BOM +:+ "new"]} |}
  = (Ok tt,
     {| workspaceFolder := Some {| f_uri := "/ws"; f_name := "ws" |};
        files := {["/ws/a.ts" := BOM +:+ "new"]} |},
     [reply (Some "getFileContent_2_0.5")
        (VObj [("content", VStr "new"); ("sha", VStr "1701")]) None]).
Proof.
  apply (write_then_read
           {| confirmation := None; inputBox := None; io_fault := None;
              found := []; clock := "1700" |}
           {| confirmation := None; inputBox := None; io_fault := None;
              found := []; clock := "1701" |}
           {| workspaceFolder := Some {| f_uri := "/ws"; f_name := "ws" |};
              files := {["/ws/a.ts" := "old"]} |}
           {| command := "updateFileContent";
              payload := VObj [("path", VStr "a.ts");
                               ("newContent", VStr (BOM +:+ "new"))];
              requestId := Some "updateFileContent_1_0.5"; error := None |}
           {| command := "getFileContent";
              payload := VObj [("path", VStr "./a.ts")];
              requestId := Some "getFileContent_2_0.5"; error := None |}
           {| f_uri := "/ws"; f_name := "ws" |} "a.ts" "./a.ts"
           (BOM +:+ "new") (Ok tt) _
           [reply (Some "updateFileContent_1_0.5")
              (VObj [("newSha", VStr "1700")]) None]);
    vm_compute; reflexivity.
Defined.

(** [createFile] does not look whether the path the user typed is that of
    an existing file: the file is written empty.  After a [createFile]
    that the file system carried out, a [getFileContent] for the path that
    was typed replies with the empty text, whatever the file held before. *)
Theorem create_then_read env env' (h : host) (c r : message) f path
    res h1 out :
  workspaceFolder h = Some f →
  inputBox env = Some path → path ≠ "" →
  io_fault env = None → io_fault env' = None →
  command c = "createFile" →
  command r = "getFileContent" →
  payload r = VObj [("path", VStr path)] →
  onDidReceiveMessage env c h = (res, h1, out) →
  onDidReceiveMessage env' r h1 =
    (Ok tt, h1,
     [reply (requestId r)
        (VObj [("content", VStr ""); ("sha", VStr (clock env'))]) None]).
Proof.
  destruct c as [cc vc ridc ec], r as [cr vr ridr er]; simpl.
  intros Hf Hin Hne Hio Hio' -> -> ->.
  unfold bind at 1. unfold gets at 1. rewrite Hf. simpl.
  rewrite Hin. simpl. apply String.eqb_neq in Hne. rewrite Hne.
  unfold try_catch, bind, ret, respond, emit, fs_writeFile, modify. rewrite Hio.
  simpl. intros [= <- <- <-].
  unfold gets. simpl. rewrite Hf. simpl.
  unfold fs_readFile, bind, gets, ret. rewrite Hio'. simpl.
  by rewrite lookup_insert_eq.
Qed.

Lemma create_then_read_witness :
  onDidReceiveMessage
    {| confirmation := None; inputBox := None; io_fault := None;
       found := []; clock := "1701" |}
    {| command := "getFileContent"; payload := VObj [("path", VStr "a.ts")];
       requestId := Some "getFileContent_2_0.5"; error := None |}
    {| workspaceFolder := Some {| f_uri := "/ws"; f_name := "ws" |};
       files := {["/ws/a.ts" := ""]} |}
  = (Ok tt,
     {| workspaceFolder := Some {| f_uri := "/ws"; f_name := "ws" |};
        files := {["/ws/a.ts" := ""]} |},
     [reply (Some "getFileContent_2_0.5")
        (VObj [("content", VStr ""); ("sha", VStr "1701")]) None]).
Proof.
  apply (create_then_read
           {| confirmation := None; inputBox := Some "a.ts"; io_fault := None;
              found := []; clock := "1700" |}
           {| confirmation := None; inputBox := None; io_fault := None;
              found := []; clock := "1701" |}
           {| workspaceFolder := Some {| f_uri := "/ws"; f_name := "ws" |};
              files := {["/ws/a.ts" := "precious"]} |}
           {| command := "createFile"; payload := VObj [];
              requestId := Some "createFile_1_0.5"; error := None |}
           {| command := "getFileContent"; payload := VObj [("path", VStr "a.ts")];
              requestId := Some "getFileContent_2_0.5"; error := None |}
           {| f_uri := "/ws"; f_name := "ws" |} "a.ts" (Ok tt) _
           [refreshFileTree;
            reply (Some "createFile_1_0.5")
              (VObj [("success", VBool true); ("path", VStr "a.ts")]) None]);
    reflexivity || discriminate.
Defined.



(** A file command whose payload is [null] or [undefined] is never
    answered: reading [payload.path] throws inside the [try], the [catch]
    reads [payload.path] again to build its message and throws too, and the
    handler ends with that exception, having posted nothing and changed
    nothing. *)
Theorem null_payload_unanswered env (h : host) (m : message) f :
  workspaceFolder h = Some f →
  command m ∈ ["getFileContent"; "updateFileContent"; "deleteFile"] →
  payload m = VNull ∨ payload m = VUndefined →
  ∃ e, onDidReceiveMessage env m h = (Throw e, h, []).
Proof.
  destruct m as [cmd v rid e0]; simpl. intros Hf Hcmd Hv.
  unfold bind at 1. unfold gets at 1. rewrite Hf. simpl.
  repeat (apply elem_of_cons in Hcmd as [->|Hcmd]);
    [| | |by apply elem_of_nil in Hcmd];
    destruct Hv as [-> | ->]; simpl; eexists; reflexivity.
Qed.

Lemma null_payload_unanswered_witness :
  ∃ e, onDidReceiveMessage
         {| confirmation := Some "Delete"; inputBox := None; io_fault := None;
            found := []; clock := "0" |}
         {| command := "deleteFile"; payload := VNull;
            requestId := Some "deleteFile_1_0.5"; error := None |}
         {| workspaceFolder := Some {| f_uri := "/ws"; f_name := "ws" |};
            files := {["/ws/a.ts" := "x"]} |}
       = (Throw e,
          {| workspaceFolder := Some {| f_uri := "/ws"; f_name := "ws" |};
             files := {["/ws/a.ts" := "x"]} |}, []).
Proof.
  apply (null_payload_unanswered _ _
           {| command := "deleteFile"; payload := VNull;
              requestId := Some "deleteFile_1_0.5"; error := None |}
           {| f_uri := "/ws"; f_name := "ws" |}).
  - reflexivity.
  - simpl. right. right. left.
  - by left.
Defined.

(** * The bridge and the dispatcher together *)





(** * Callbacks that use the bridge *)

Lemma called_app t1 t2 : called (t1 ++ t2) = called t1 ++ called t2.
Proof. unfold called. apply omap_app. Qed.

Lemma called_nil_calls_of cb t : called t = [] → calls_of cb t = [].
Proof.
  induction t as [|e t IH]; [done|]. destruct e; try exact IH. discriminate.
Qed.

Lemma exec_result_subscribe cmd cb w :
  ∃ u b', Live.exec_result (subscribe cmd cb) 0 w =
            (Ok u, {| br := b'; timers := timers w; log := log w;
                      nextCont := nextCont w |}) ∧
    subscribe cmd cb (br w) = (Ok u, b', []).
Proof.
  unfold Live.exec_result.
  destruct (subscribers (br w) !! cmd) as [l|] eqn:Hl.
  - rewrite (subscribe_old _ _ _ _ Hl). eexists _, _.
    by rewrite !app_nil_r, Nat.add_0_r.
  - rewrite (subscribe_new _ _ _ Hl). eexists _, _.
    by rewrite !app_nil_r, Nat.add_0_r.
Qed.

Lemma exec_request k cmd v now rnd w :
  exec (request k cmd v now rnd) 1 w =
    {| br := set_pendingRequests <[make_requestId cmd now rnd := k]> (br w);
       timers := timers w ++
         (if vscodeApi (br w) then []
          else [{| t_command := cmd; t_requestId := make_requestId cmd now rnd |}]);
       log := log w ++
         (if vscodeApi (br w) then
            [PostMessage {| command := cmd; payload := v;
                            requestId := Some (make_requestId cmd now rnd);
                            error := None |}]
          else
            [ConsoleWarn ("VS Code API not available. Rejecting request for command: "
                          +:+ cmd);
             SetTimeout {| t_command := cmd;
                           t_requestId := make_requestId cmd now rnd |} 100]);
       nextCont := nextCont w + 1 |}.
Proof.
  unfold exec. rewrite request_eq. by destruct (vscodeApi (br w)).
Qed.

(** What a callback can do to the page, whatever its script is: it calls
    no callback and settles no promise, it keeps the invariant of the
    bridge, and with a transport every entry of the pending table stays
    unless the callback posted a request with the same id. *)
Lemma perform_trace l s : ∀ position w r position' w',
  Live.perform l s position w = (r, position', w') →
  vscodeApi (br w') = vscodeApi (br w) ∧
  (bridge_wf (br w) → bridge_wf (br w')) ∧
  ∃ t, log w' = log w ++ t ∧ called t = [] ∧
    (∀ k, settle_count k t = 0) ∧
    (vscodeApi (br w) = true → timers w' = timers w) ∧
    (vscodeApi (br w) = true → ∀ rid k,
       pendingRequests (br w) !! rid = Some k →
       pendingRequests (br w') !! rid = Some k ∨
       ∃ m, m ∈ posted t ∧ requestId m = Some rid).
Proof.
  induction s as [|e|cmd cb rest IH|u rest IH|cmd v now rnd rest IH];
    intros position w r position' w' Hrun; cbn [Live.perform] in Hrun.
  - injection Hrun as <- <- <-. split_and!; try done.
    exists []. rewrite app_nil_r. split_and!; try done. intros; by left.
  - injection Hrun as <- <- <-. split_and!; try done.
    exists []. rewrite app_nil_r. split_and!; try done. intros; by left.
  - destruct (exec_result_subscribe cmd cb w) as (u & b' & Hdo & Hsub).
    rewrite Hdo in Hrun.
    destruct (exec_subscribe cmd cb w) as (b'' & Hexec & Hpend & Hapi).
    assert (b'' = b') as ->.
    { unfold exec in Hexec. rewrite Hsub in Hexec. by injection Hexec. }
    destruct (IH u _ _ _ _ _ Hrun) as (Hapi' & Hwf' & t & Ht & Hc & Hs & Htm & Hp).
    cbn [br log timers] in *. split_and!.
    + congruence.
    + intros Hwf. apply Hwf'. by eapply subscribe_wf.
    + exists t. split_and!; try done.
      * intros Ha. apply Htm. congruence.
      * intros Ha rid k Hk. apply Hp; [congruence|]. by rewrite Hpend.
  - destruct (exec_unsubscribe u w) as (b' & Hexec & Hpend & Hapi).
    rewrite Hexec in Hrun.
    destruct (IH _ _ _ _ _ Hrun) as (Hapi' & Hwf' & t & Ht & Hc & Hs & Htm & Hp).
    cbn [br log timers] in *. split_and!.
    + congruence.
    + intros Hwf. apply Hwf'.
      unfold exec in Hexec.
      destruct (run_unsubscribe u (br w)) as [[r0 b0] t0] eqn:Hu.
      injection Hexec as -> _ _. by eapply run_unsubscribe_wf.
    + exists t. split_and!; try done.
      * intros Ha. apply Htm. congruence.
      * intros Ha rid k Hk. apply Hp; [congruence|]. by rewrite Hpend.
  - rewrite exec_request in Hrun.
    destruct (IH _ _ _ _ _ Hrun) as (Hapi' & Hwf' & t & Ht & Hc & Hs & Htm & Hp).
    cbn [br log timers vscodeApi set_pendingRequests pendingRequests] in *.
    split_and!.
    + done.
    + intros Hwf. apply Hwf'.
      eapply (request_wf (nextCont w) cmd v now rnd (br w)); [done|].
      apply request_eq.
    + destruct (vscodeApi (br w)) eqn:Ha.
      * eexists (_ :: t). rewrite Ht, <- app_assoc. split; [done|].
        split_and!; try done.
        -- intros _. rewrite Htm by done. by rewrite app_nil_r.
        -- intros _ rid k Hk.
           destruct (decide (rid = make_requestId cmd now rnd)) as [->|Hne].
           ++ right. eexists. split; [by left|done].
           ++ destruct (Hp eq_refl rid k) as [?|(m & Hm & Hrid)].
              ** by rewrite lookup_insert_ne.
              ** by left.
              ** right. exists m. split; [|done]. by right.
      * eexists (_ :: _ :: t). rewrite Ht, <- app_assoc. split; [done|].
        split_and!; try done.
Qed.

(** A script that leaves the subscriptions of [cmd] alone does not move
    [forEach] in the set of [cmd] and leaves that set as it is. *)
Lemma perform_leaves_alone l cmd s : ∀ position w r position' w',
  bridge_wf (br w) →
  subscribers (br w) !! cmd = Some l →
  leaves_alone l cmd s →
  Live.perform l s position w = (r, position', w') →
  position' = position ∧
  subscribers (br w') !! cmd = Some l ∧
  members l (br w') = members l (br w) ∧
  (∀ e, raises s e → r = Some e).
Proof.
  induction s as [|e|c cb rest IH|u rest IH|c v now rnd rest IH];
    intros position w r position' w' Hwf Hl Halone Hrun;
    cbn [Live.perform] in Hrun.
  - injection Hrun as <- <- <-. by split_and!.
  - injection Hrun as <- <- <-. split_and!; try done. by intros ? ->.
  - destruct Halone as [Hc Halone].
    destruct (exec_result_subscribe c cb w) as (u & b' & Hdo & Hsub).
    rewrite Hdo in Hrun.
    assert (subscribers b' !! cmd = Some l ∧ members l b' = members l (br w))
      as [Hl' Hm'].
    { destruct (subscribers (br w) !! c) as [l'|] eqn:Hl'.
      - rewrite (subscribe_old _ _ _ _ Hl') in Hsub. injection Hsub as _ <-.
        split; [done|]. apply members_alter_add_ne.
        intros ->. apply Hc. by eapply (wf_inj _ Hwf).
      - rewrite (subscribe_new _ _ _ Hl') in Hsub. injection Hsub as _ <-.
        cbn [subscribers]. rewrite lookup_insert_ne by done. split; [done|].
        unfold members. cbn [heap]. rewrite lookup_app_l; [done|].
        by eapply (wf_alloc _ Hwf). }
    assert (bridge_wf b') as Hwf' by by eapply subscribe_wf.
    eapply IH in Hrun as (-> & ? & Hm & Hr); [|exact Hwf'|exact Hl'|apply Halone].
    cbn [br] in Hm. split_and!; try done.
    + by rewrite Hm.
    + intros e He. apply Hr, He.
  - destruct Halone as (Hset & Hc & Halone).
    rewrite decide_False in Hrun by done.
    assert (exec (run_unsubscribe u) 0 w =
              {| br := (run_unsubscribe u (br w)).1.2; timers := timers w;
                 log := log w; nextCont := nextCont w |}) as Hexec.
    { unfold exec. rewrite run_unsubscribe_eq. cbn [fst snd].
      by rewrite !app_nil_r, Nat.add_0_r. }
    rewrite Hexec in Hrun.
    assert (subscribers (run_unsubscribe u (br w)).1.2 !! cmd = Some l ∧
            members l (run_unsubscribe u (br w)).1.2 = members l (br w))
      as [Hl' Hm'].
    { rewrite run_unsubscribe_eq. cbn [fst snd]. case_decide.
      - cbn [subscribers set_subscribers]. rewrite lookup_delete_ne by done.
        split; [done|].
        change (members l (set_subscribers ?f ?b)) with (members l b).
        rewrite members_alter_delete. by rewrite decide_False.
      - split; [done|]. rewrite members_alter_delete. by rewrite decide_False. }
    assert (bridge_wf (run_unsubscribe u (br w)).1.2) as Hwf'.
    { destruct (run_unsubscribe u (br w)) as [[r0 b0] t0] eqn:Hu.
      by eapply run_unsubscribe_wf. }
    eapply IH in Hrun as (-> & ? & Hm & Hr); [|exact Hwf'|exact Hl'|exact Halone].
    cbn [br] in Hm. split_and!; try done. by rewrite Hm.
  - rewrite exec_request in Hrun.
    assert (bridge_wf (set_pendingRequests
                         <[make_requestId c now rnd := nextCont w]> (br w)))
      as Hwf'.
    { eapply (request_wf (nextCont w) c v now rnd (br w)); [done|].
      apply request_eq. }
    eapply IH in Hrun as (-> & ? & Hm & Hr); [|exact Hwf'|exact Hl|exact Halone].
    by split_and!.
Qed.

Lemma calls_of_cons_call cb x v t :
  calls_of cb (Call x v :: t) =
    (if decide (x = cb) then [v] else []) ++ calls_of cb t.
Proof. unfold calls_of. simpl. by destruct (decide (x = cb)). Qed.

(** The walk over the set of [cmd] when the callbacks leave it alone. *)
Lemma forEach_leaves_alone react l cmd v cbs : ∀ n fuel position w,
  length cbs - position = n → n < fuel →
  bridge_wf (br w) →
  subscribers (br w) !! cmd = Some l →
  members l (br w) = cbs →
  (∀ w' cb, cb ∈ cbs → leaves_alone l cmd (react w' cb v)) →
  ∃ w', Live.forEach react fuel l cmd v position w = Some w' ∧
    bridge_wf (br w') ∧
    subscribers (br w') !! cmd = Some l ∧
    members l (br w') = cbs ∧
    vscodeApi (br w') = vscodeApi (br w) ∧
    ∃ t, log w' = log w ++ t ∧
      called t = drop position cbs ∧
      (∀ cb, calls_of cb t =
             flat_map (λ x, if decide (x = cb) then [v] else [])
                      (drop position cbs)) ∧
      (∀ cb e, cb ∈ drop position cbs →
               (∀ w', raises (react w' cb v) e) → ConsoleError cmd e ∈ t).
Proof.
  induction n as [|n IH]; intros fuel position w Hn Hfuel Hwf Hl Hm Halone.
  - destruct fuel as [|fuel]; [lia|]. cbn [Live.forEach].
    rewrite Hm, lookup_ge_None_2 by lia.
    exists w. split_and!; try done. exists [].
    rewrite app_nil_r, drop_ge by lia. split_and!; try done.
    by intros ?? ?%elem_of_nil.
  - destruct fuel as [|fuel]; [lia|]. cbn [Live.forEach].
    destruct (lookup_lt_is_Some_2 cbs position) as [cb Hcb]; [lia|].
    rewrite Hm, Hcb.
    destruct (Live.perform l (react w cb v) (S position)
                (record (Call cb v) w)) as [[r position'] w1] eqn:Hrun.
    assert (cb ∈ cbs) as Hin by by eapply list_elem_of_lookup_2.
    destruct (perform_leaves_alone l cmd _ (S position) (record (Call cb v) w) _ _ _
                Hwf Hl
                (Halone w cb Hin) Hrun) as (-> & Hl1 & Hm1 & Hr).
    destruct (perform_trace l _ _ _ _ _ _ Hrun)
      as (Hapi1 & Hwf1 & t1 & Ht1 & Hc1 & _).
    cbn [br log record] in *. specialize (Hwf1 Hwf).
    rewrite (drop_S _ _ _ Hcb).
    assert (∀ w2 t2,
      bridge_wf (br w2) → subscribers (br w2) !! cmd = Some l →
      members l (br w2) = cbs → vscodeApi (br w2) = vscodeApi (br w) →
      log w2 = log w ++ Call cb v :: t2 → called t2 = [] →
      (∀ e, (∀ w', raises (react w' cb v) e) → ConsoleError cmd e ∈ t2) →
      ∃ w', Live.forEach react fuel l cmd v (S position) w2 = Some w' ∧
        bridge_wf (br w') ∧ subscribers (br w') !! cmd = Some l ∧
        members l (br w') = cbs ∧ vscodeApi (br w') = vscodeApi (br w) ∧
        ∃ t, log w' = log w ++ t ∧
          called t = cb :: drop (S position) cbs ∧
          (∀ cb0, calls_of cb0 t =
             (if decide (cb = cb0) then [v] else []) ++
             flat_map (λ x, if decide (x = cb0) then [v] else [])
                      (drop (S position) cbs)) ∧
          (∀ cb0 e, cb0 ∈ cb :: drop (S position) cbs →
             (∀ w', raises (react w' cb0 v) e) → ConsoleError cmd e ∈ t))
      as Hnext.
    { intros w2 t2 Hwf2 Hl2 Hm2 Hapi2 Hlog2 Hc2 He2.
      destruct (IH fuel (S position) w2) as
        (w' & Hrun' & ? & ? & ? & Hapi' & t & Ht & Hcalled & Hcalls & Herr);
        try done; [lia|lia|].
      exists w'. split_and!; try done; [congruence|].
      exists (Call cb v :: t2 ++ t). split_and!.
      - rewrite Ht, Hlog2. by rewrite <- app_assoc.
      - change (Call cb v :: t2 ++ t) with ([Call cb v] ++ t2 ++ t).
        rewrite !called_app, Hc2, Hcalled. done.
      - intros cb0. rewrite calls_of_cons_call, calls_of_app, Hcalls.
        by rewrite (called_nil_calls_of _ _ Hc2).
      - intros cb0 e [->|Hin0]%elem_of_cons Hraise.
        + right. apply elem_of_app. left. by apply He2.
        + right. apply elem_of_app. right. by eapply Herr. }
    destruct r as [e|].
    + apply (Hnext _ (t1 ++ [ConsoleError cmd e])); cbn [br log record]; try done.
      * by rewrite Hm1.
      * rewrite Ht1. by rewrite <- !app_assoc.
      * by rewrite called_app, Hc1.
      * intros e' He'. apply elem_of_app. right.
        specialize (Hr e' (He' w)). injection Hr as ->. by left.
    + apply (Hnext _ t1); try done.
      * by rewrite Hm1.
      * rewrite Ht1. by rewrite <- !app_assoc.
      * intros e' He'. by specialize (Hr e' (He' w)).
Qed.

Lemma flat_map_calls_present (v : value) (cb : nat) cbs :
  NoDup cbs → cb ∈ cbs →
  flat_map (λ x, if decide (x = cb) then [v] else []) cbs = [v].
Proof.
  induction 1 as [|x cbs Hx Hnd IH]; [by intros ?%elem_of_nil|].
  intros Hin. cbn [flat_map]. destruct (decide (x = cb)) as [->|Hne].
  - cbn [app]. f_equal. clear IH Hin Hnd. induction cbs as [|y cbs IH]; [done|].
    apply not_elem_of_cons in Hx as [Hy Hx]. cbn [flat_map].
    rewrite decide_False by done. by apply IH.
  - apply elem_of_cons in Hin as [->|Hin]; [done|]. by apply IH.
Qed.


(** The delivery of a notification to callbacks that leave the
    subscriptions of its command alone. *)
Lemma handleMessage_leaves_alone react (w : world) (m : message) (fuel : nat) :
  bridge_wf (br w) →
  truthy (requestId m) = None →
  (∀ l w' cb, subscribers (br w) !! command m = Some l →
     cb ∈ registered (command m) (br w) →
     leaves_alone l (command m) (react w' cb (payload m))) →
  length (registered (command m) (br w)) < fuel →
  ∃ w' t, Live.handleMessage react fuel m w = Some w' ∧
    log w' = log w ++ t ∧
    registered (command m) (br w') = registered (command m) (br w) ∧
    called t = registered (command m) (br w) ∧
    (∀ cb, calls_of cb t =
           flat_map (λ x, if decide (x = cb) then [payload m] else [])
                    (registered (command m) (br w))) ∧
    (∀ cb e, cb ∈ registered (command m) (br w) →
       (∀ w', raises (react w' cb (payload m)) e) →
       ConsoleError (command m) e ∈ t).
Proof.
  intros Hwf Hnotif Halone Hfuel.
  destruct m as [cmd v rid err]. cbn [command payload requestId] in *.
  cbn [Live.handleMessage]. rewrite Hnotif. unfold registered in *.
  destruct (subscribers (br w) !! cmd) as [l|] eqn:Hl.
  - destruct (forEach_leaves_alone react l cmd v (members l (br w))
                (length (members l (br w))) fuel 0 w)
      as (w' & Hrun & _ & Hl' & Hm' & _ & t & Ht & Hcalled & Hcalls & Herr);
      try done; [lia|by intros; eapply Halone|].
    rewrite drop_0 in *.
    exists w', t. rewrite Hl'. by split_and!.
  - exists w, []. rewrite app_nil_r, Hl. split_and!; try done.
    by intros ?? ?%elem_of_nil.
Qed.


Lemma forEach_plain behaviour react l cmd v :
  (∀ w cb, react w cb v = plain (behaviour cb v)) →
  ∀ n fuel position w,
    length (members l (br w)) - position = n → n < fuel →
    Live.forEach react fuel l cmd v position w =
      Some {| br := br w; timers := timers w;
              log := log w ++ flat_map (delivery behaviour cmd v)
                                (drop position (members l (br w)));
              nextCont := nextCont w |}.
Proof.
  intros Hplain. induction n as [|n IH]; intros fuel position w Hn Hfuel.
  - destruct fuel as [|fuel]; [lia|]. cbn [Live.forEach].
    rewrite lookup_ge_None_2, drop_ge by lia. cbn [flat_map].
    rewrite app_nil_r. by destruct w.
  - destruct fuel as [|fuel]; [lia|]. cbn [Live.forEach].
    destruct (lookup_lt_is_Some_2 (members l (br w)) position) as [cb Hcb];
      [lia|].
    rewrite Hcb, Hplain, (drop_S _ _ _ Hcb). cbn [flat_map]. unfold delivery at 1.
    destruct (behaviour cb v) as [e|]; cbn [plain Live.perform];
      rewrite IH by (cbn [br record]; lia); cbn [br record timers log nextCont];
      by rewrite <- !app_assoc.
Qed.

(** When the callbacks only return or throw, the handler is the one of
    the runs above. *)
Lemma handleMessage_plain behaviour react m w fuel :
  (∀ w cb, react w cb (payload m) = plain (behaviour cb (payload m))) →
  length (registered (command m) (br w)) < fuel →
  Live.handleMessage react fuel m w = Some (exec (handleMessage behaviour m) 0 w).
Proof.
  intros Hplain Hfuel. rewrite exec_handleMessage.
  destruct m as [cmd v rid err]. cbn [command payload requestId error] in *.
  cbn [Live.handleMessage].
  destruct (truthy rid) as [rid'|] eqn:Hrid.
  - f_equal. unfold exec, Live.settle, bind, gets, modify, emit, ret, settlement.
    destruct (pendingRequests (br w) !! rid') as [k|]; cbn.
    + destruct (truthy err); cbn; by rewrite !app_nil_r, Nat.add_0_r.
    + rewrite !app_nil_r, Nat.add_0_r. by destruct w.
  - unfold registered in *.
    destruct (subscribers (br w) !! cmd) as [l|] eqn:Hl.
    + rewrite (forEach_plain behaviour react l cmd v Hplain
                 (length (members l (br w)) - 0)) by lia.
      by rewrite drop_0.
    + cbn [flat_map]. rewrite app_nil_r. by destruct w.
Qed.

Lemma settle_count_snoc k t e :
  settle_count k (t ++ [e]) = settle_count k t + (if settles k e then 1 else 0).
Proof. rewrite settle_count_app. simpl. lia. Qed.

(** What a delivery can do to the page, whatever the callbacks do. *)
Lemma forEach_trace react l cmd v : ∀ fuel position w w',
  Live.forEach react fuel l cmd v position w = Some w' →
  vscodeApi (br w') = vscodeApi (br w) ∧
  (bridge_wf (br w) → bridge_wf (br w')) ∧
  ∃ t, log w' = log w ++ t ∧
    (∀ k, settle_count k t = 0) ∧
    (vscodeApi (br w) = true → timers w' = timers w) ∧
    (vscodeApi (br w) = true → ∀ rid k,
       pendingRequests (br w) !! rid = Some k →
       pendingRequests (br w') !! rid = Some k ∨
       ∃ m, m ∈ posted t ∧ requestId m = Some rid).
Proof.
  induction fuel as [|fuel IH]; intros position w w' Hrun; [done|].
  cbn [Live.forEach] in Hrun.
  destruct (members l (br w) !! position) as [cb|].
  2:{ injection Hrun as <-. split_and!; try done. exists [].
      rewrite app_nil_r. split_and!; try done. intros; by left. }
  destruct (Live.perform l (react w cb v) (S position) (record (Call cb v) w))
    as [[r position'] w1] eqn:Hcb.
  destruct (perform_trace l _ _ _ _ _ _ Hcb)
    as (Hapi1 & Hwf1 & t1 & Ht1 & _ & Hs1 & Htm1 & Hp1).
  cbn [br log timers record] in *.
  assert (∀ w2 t2,
    vscodeApi (br w2) = vscodeApi (br w) →
    (bridge_wf (br w) → bridge_wf (br w2)) →
    log w2 = log w ++ t2 → (∀ k, settle_count k t2 = 0) →
    (vscodeApi (br w) = true → timers w2 = timers w) →
    (vscodeApi (br w) = true → ∀ rid k,
       pendingRequests (br w) !! rid = Some k →
       pendingRequests (br w2) !! rid = Some k ∨
       ∃ m, m ∈ posted t2 ∧ requestId m = Some rid) →
    Live.forEach react fuel l cmd v position' w2 = Some w' →
    vscodeApi (br w') = vscodeApi (br w) ∧
    (bridge_wf (br w) → bridge_wf (br w')) ∧
    ∃ t, log w' = log w ++ t ∧
      (∀ k, settle_count k t = 0) ∧
      (vscodeApi (br w) = true → timers w' = timers w) ∧
      (vscodeApi (br w) = true → ∀ rid k,
         pendingRequests (br w) !! rid = Some k →
         pendingRequests (br w') !! rid = Some k ∨
         ∃ m, m ∈ posted t ∧ requestId m = Some rid)) as Hnext.
  { intros w2 t2 Hapi2 Hwf2 Ht2 Hs2 Htm2 Hp2 Hrest.
    destruct (IH _ _ _ Hrest) as (Hapi' & Hwf' & t & Ht & Hs & Htm & Hp).
    split_and!; [congruence|by auto|].
    exists (t2 ++ t). split_and!.
    - by rewrite Ht, Ht2, <- app_assoc.
    - intros k. by rewrite settle_count_app, Hs2, Hs.
    - intros Ha. rewrite Htm, Htm2; [done|done|congruence].
    - intros Ha rid k Hk. rewrite posted_app.
      destruct (Hp2 Ha rid k Hk) as [Hk2|(m & Hm & Hrid)].
      + destruct (Hp (eq_trans Hapi2 Ha) rid k Hk2) as [?|(m & Hm & Hrid)];
          [by left|].
        right. exists m. split; [|done]. apply elem_of_app. by right.
      + right. exists m. split; [|done]. apply elem_of_app. by left. }
  destruct r as [e|].
  - apply (Hnext (record (ConsoleError cmd e) w1)
                   (Call cb v :: t1 ++ [ConsoleError cmd e]));
      cbn [br log timers record]; try done.
    + rewrite Ht1, <- !app_assoc. done.
    + intros k. cbn [settle_count settles]. rewrite settle_count_snoc, Hs1. done.
    + intros Ha rid k Hk. destruct (Hp1 Ha rid k Hk) as [?|(m & Hm & Hrid)];
        [by left|].
      right. exists m. split; [|done].
      cbn [posted omap list_omap]. unfold posted in *.
      rewrite omap_app. apply elem_of_app. by left.
  - apply (Hnext w1 (Call cb v :: t1)); try done.
    rewrite Ht1, <- !app_assoc. done.
Qed.

Lemma handleMessage_trace react fuel m w w' :
  truthy (requestId m) = None →
  Live.handleMessage react fuel m w = Some w' →
  vscodeApi (br w') = vscodeApi (br w) ∧
  (bridge_wf (br w) → bridge_wf (br w')) ∧
  ∃ t, log w' = log w ++ t ∧
    (∀ k, settle_count k t = 0) ∧
    (vscodeApi (br w) = true → timers w' = timers w) ∧
    (vscodeApi (br w) = true → ∀ rid k,
       pendingRequests (br w) !! rid = Some k →
       pendingRequests (br w') !! rid = Some k ∨
       ∃ m, m ∈ posted t ∧ requestId m = Some rid).
Proof.
  destruct m as [cmd v rid err]. cbn [requestId Live.handleMessage].
  intros -> Hrun.
  destruct (subscribers (br w) !! cmd) as [l|].
  - by eapply forEach_trace.
  - injection Hrun as <-. split_and!; try done. exists [].
    rewrite app_nil_r. split_and!; try done. intros; by left.
Qed.

(** [request('createFile', {})] carried to the host and back, when the
    user types a path and the file is written.  The notification arrives
    first: whatever the subscribers of [refreshFileTree] do with the
    bridge (those of the page ask for the initial data again), if their
    delivery ends and none of them made a request with the id of the call,
    no promise is settled during the delivery, and then the promise of the
    call is resolved with [{success: true, path}] and its entry, and only
    its entry, is removed.  The host has the new, empty file at the
    normalised path. *)
Theorem createFile_end_to_end react fuel env (h : host) (w w2 : world)
    f path now rnd :
  vscodeApi (br w) = true →
  workspaceFolder h = Some f →
  inputBox env = Some path → path ≠ "" →
  io_fault env = None →
  Live.handleMessage react fuel refreshFileTree
    (Live.request "createFile" (VObj []) now rnd w) = Some w2 →
  (∀ m, m ∈ posted (drop (S (length (log w))) (log w2)) →
        requestId m ≠ Some (make_requestId "createFile" now rnd)) →
  Live.round_trip react fuel env h "createFile" (VObj []) now rnd w =
    Some ({| br := set_pendingRequests
                     (delete (make_requestId "createFile" now rnd)) (br w2);
             timers := timers w;
             log := log w2 ++
                    [Resolve (nextCont w)
                       (VObj [("success", VBool true); ("path", VStr path)])];
             nextCont := nextCont w2 |},
          set_files <[posix.join (f_uri f) path := ""]> h) ∧
  ∃ t, log w2 = log w ++
         PostMessage {| command := "createFile"; payload := VObj [];
                        requestId := Some (make_requestId "createFile" now rnd);
                        error := None |} :: t ∧
       ∀ k, settle_count k t = 0.
Proof.
  intros Hapi Hf Hin Hpath Hio Hdeliver Hids.
  pose proof (make_requestId_nonempty "createFile" now rnd) as Hne.
  assert (Live.request "createFile" (VObj []) now rnd w =
            {| br := set_pendingRequests
                       <[make_requestId "createFile" now rnd := nextCont w]> (br w);
               timers := timers w;
               log := log w ++
                 [PostMessage {| command := "createFile"; payload := VObj [];
                    requestId := Some (make_requestId "createFile" now rnd);
                    error := None |}];
               nextCont := nextCont w + 1 |}) as Hreq.
  { unfold Live.request. rewrite exec_request, Hapi. by rewrite app_nil_r. }
  destruct (handleMessage_trace react fuel refreshFileTree _ _ eq_refl Hdeliver)
    as (Hapi2 & _ & t & Ht & Hs & Htm & Hp).
  rewrite Hreq in Hapi2, Ht, Htm, Hp. cbn [br log timers vscodeApi
    set_pendingRequests pendingRequests] in Hapi2, Ht, Htm, Hp.
  rewrite <- app_assoc in Ht. cbn [app] in Ht.
  assert (drop (S (length (log w))) (log w2) = t) as Hdrop.
  { rewrite Ht. change (?x :: t) with ([x] ++ t). rewrite app_assoc.
    rewrite drop_app_length'; [done|]. rewrite length_app. simpl. lia. }
  rewrite Hdrop in Hids.
  assert (pendingRequests (br w2) !! make_requestId "createFile" now rnd
          = Some (nextCont w)) as Hk.
  { destruct (Hp Hapi (make_requestId "createFile" now rnd) (nextCont w))
      as [?|(m & Hm & Hrid)]; [apply lookup_insert_eq|done|].
    by destruct (Hids m Hm). }
  split.
  - unfold Live.round_trip. rewrite Hreq. cbn [log].
    rewrite drop_app_length. cbn [posted omap list_omap deliver].
    assert (onDidReceiveMessage env
              {| command := "createFile"; payload := VObj [];
                 requestId := Some (make_requestId "createFile" now rnd);
                 error := None |} h
            = (Ok tt, set_files <[posix.join (f_uri f) path := ""]> h,
               [refreshFileTree;
                reply (Some (make_requestId "createFile" now rnd))
                  (VObj [("success", VBool true); ("path", VStr path)]) None]))
      as ->.
    { simpl. unfold bind at 1. unfold gets at 1. rewrite Hf. simpl.
      rewrite Hin. simpl. apply String.eqb_neq in Hpath. rewrite Hpath.
      unfold try_catch, bind, ret, respond, emit, fs_writeFile, modify.
      by rewrite Hio. }
    rewrite app_nil_r. cbn [Live.receive br vscodeApi set_pendingRequests].
    rewrite Hapi. rewrite <- Hreq, Hdeliver. rewrite Hapi2.
    cbn [Live.handleMessage reply truthy].
    apply String.eqb_neq in Hne. rewrite Hne.
    unfold exec, Live.settle, bind, gets, modify, emit, ret.
    rewrite Hk. cbn. rewrite Htm by done.
    by rewrite Hapi, !app_nil_r, Nat.add_0_r.
  - by exists t.
Qed.

Lemma createFile_end_to_end_witness :
  Live.round_trip
    (λ _ cb _, if decide (cb = 7) then fetchVsCodeInitialData "2" "0.7"
                 else Return) 2
    {| confirmation := None; inputBox := Some "src/new.ts"; io_fault := None;
       found := []; clock := "1700" |}
    {| workspaceFolder := Some {| f_uri := "/ws"; f_name := "ws" |};
       files := ∅ |}
    "createFile" (VObj []) "1" "0.5"
    (run (λ _ _, None) [OpSubscribe "refreshFileTree" 7] (boot true))
  = Some
      ({| br := {| vscodeApi := true;
                   pendingRequests := {["getInitialData_2_0.7" := 1]};
                   subscribers := {["refreshFileTree" := 0]};
                   heap := [[7]] |};
          timers := [];
          log := [PostMessage {| command := "createFile"; payload := VObj [];
                                 requestId := Some "createFile_1_0.5";
                                 error := None |};
                  Call 7 VUndefined;
                  PostMessage {| command := "getInitialData"; payload := VObj [];
                                 requestId := Some "getInitialData_2_0.7";
                                 error := None |};
                  Resolve 0 (VObj [("success", VBool true);
                                   ("path", VStr "src/new.ts")])];
          nextCont := 2 |},
       {| workspaceFolder := Some {| f_uri := "/ws"; f_name := "ws" |};
          files := {["/ws/src/new.ts" := ""]} |}).
Proof.
  etrans;
    [apply (createFile_end_to_end
              (λ _ cb _, if decide (cb = 7) then fetchVsCodeInitialData "2" "0.7"
                 else Return) 2 _ _ _
              (Live.request "getInitialData" (VObj []) "2" "0.7"
                 (record (Call 7 VUndefined)
                    (Live.request "createFile" (VObj []) "1" "0.5"
                       (run (λ _ _, None) [OpSubscribe "refreshFileTree" 7]
                          (boot true)))))
              {| f_uri := "/ws"; f_name := "ws" |} "src/new.ts" "1" "0.5")
    |vm_compute; reflexivity].
  - reflexivity.
  - reflexivity.
  - reflexivity.
  - discriminate.
  - reflexivity.
  - vm_compute. reflexivity.
  - intros m Hm. vm_compute in Hm.
    apply elem_of_cons in Hm as [->|Hm]; [discriminate|].
    by apply elem_of_nil in Hm.
Defined.

(** What a notification does after [subscribe(cmd, cb)].  The callbacks
    registered for [cmd] are those that were, in their order, and [cb],
    after them if it is new and at its old place if it was registered
    already; those of any other command are unchanged.  A notification
    that is then delivered to callbacks that leave the subscriptions of its
    command alone calls exactly these, in this order, and [cb] once if the
    notification is for [cmd]. *)
Theorem subscribe_then_notify react cmd cb (w : world) (m : message)
    (fuel : nat) :
  bridge_wf (br w) →
  truthy (requestId m) = None →
  ∃ u b',
    subscribe cmd cb (br w) = (Ok u, b', []) ∧
    registered (command m) b' =
      (if decide (command m = cmd) then set_add cb (registered cmd (br w))
       else registered (command m) (br w)) ∧
    ((∀ l w' x, subscribers b' !! command m = Some l →
        x ∈ registered (command m) b' →
        leaves_alone l (command m) (react w' x (payload m))) →
     length (registered (command m) b') < fuel →
     ∃ w' t,
       Live.handleMessage react fuel m
         {| br := b'; timers := timers w; log := log w;
            nextCont := nextCont w |} = Some w' ∧
       log w' = log w ++ t ∧
       called t = registered (command m) b' ∧
       (command m = cmd → calls_of cb t = [payload m])).
Proof.
  intros Hwf Hnotif.
  destruct (subscribe_spec cmd cb (br w) Hwf)
    as (u & b' & Hsub & Hwf' & _ & _ & _ & Hreg & Hother & _).
  exists u, b'. split; [done|]. split.
  { case_decide as Hc; [subst; exact Hreg|by apply Hother]. }
  intros Halone Hfuel.
  destruct (handleMessage_leaves_alone react
              {| br := b'; timers := timers w; log := log w;
                 nextCont := nextCont w |} m fuel)
    as (w' & t & Hrun & Ht & _ & Hcalled & Hcalls & _); try done.
  exists w', t. split_and!; try done.
  intros Hc. rewrite Hcalls. cbn [br].
  apply flat_map_calls_present; [by apply registered_NoDup|].
  rewrite Hc, Hreg. unfold set_add.
  case_decide; [done|]. apply elem_of_app. right. by left.
Qed.



Lemma subscribe_then_notify_witness :
  ∃ w' t,
    Live.handleMessage
      (λ _ cb _, if decide (cb = 2) then Raise "boom"
                 else if decide (cb = 1)
                      then fetchVsCodeInitialData "2" "0.7"
                      else Return)
      3 (notification "refreshFileTree" VUndefined)
      (run (λ _ _, None)
         [OpSubscribe "refreshFileTree" 1; OpSubscribe "refreshFileTree" 2]
         (boot true)) = Some w' ∧
    log w' = t ∧
    called t = [1; 2] ∧
    calls_of 2 t = [VUndefined].
Proof.
  destruct (subscribe_then_notify
              (λ _ cb _, if decide (cb = 2) then Raise "boom"
                 else if decide (cb = 1)
                      then fetchVsCodeInitialData "2" "0.7"
                      else Return) "refreshFileTree" 2
              (run (λ _ _, None) [OpSubscribe "refreshFileTree" 1] (boot true))
              (notification "refreshFileTree" VUndefined) 3)
    as (u & b' & Hsub & Hreg & Hnotify).
  - apply boot_run_wf.
  - reflexivity.
  - vm_compute in Hsub. injection Hsub as <- <-.
    destruct Hnotify as (w' & t & Hrun & Ht & Hcalled & Hcalls).
    + intros l w' x _ _. cbn beta. unfold fetchVsCodeInitialData. by repeat case_decide.
    + vm_compute. lia.
    + exists w', t. split_and!; [exact Hrun|exact Ht|exact Hcalled|by apply Hcalls].
Defined.

(** * The tabs of the assistant *)

Lemma findIndex_from_spec path fs : ∀ i,
  (findIndex_from i path fs = (-1)%Z ∧ Forall (λ g, of_path g ≠ path) fs) ∨
  (∃ l1 f l2, fs = l1 ++ f :: l2 ∧ of_path f = path ∧
     Forall (λ g, of_path g ≠ path) l1 ∧
     findIndex_from i path fs = (i + Z.of_nat (length l1))%Z).
Proof.
  induction fs as [|g fs IH]; intros i; simpl.
  - left. by split.
  - destruct (String.eqb_spec (of_path g) path) as [Hg|Hg].
    + right. exists [], g, fs. split_and!; try done. simpl. lia.
    + destruct (IH (i + 1)%Z) as [[Hi Hall]|(l1 & f & l2 & -> & Hf & Hall & Hi)].
      * left. split; [done|]. by constructor.
      * right. exists (g :: l1), f, l2. split_and!; try done.
        -- by constructor.
        -- rewrite Hi. simpl. lia.
Qed.

Lemma filter_keep_all path (fs : list OpenFile) :
  Forall (λ g, of_path g ≠ path) fs → filter (λ f, of_path f ≠ path) fs = fs.
Proof.
  induction 1 as [|g fs Hg Hall IH]; [done|].
  by rewrite filter_cons_True, IH.
Qed.

(** The index [closeTab] computes for the tab to activate is always that
    of a tab that is left. *)
Lemma closeTab_index_in_range path fs :
  filter (λ f, of_path f ≠ path) fs ≠ [] →
  is_Some (filter (λ f, of_path f ≠ path) fs
             !! Z.to_nat (Z.max 0 (findIndex path fs - 1))).
Proof.
  intros Hne. apply lookup_lt_is_Some_2. unfold findIndex.
  destruct (findIndex_from_spec path fs 0)
    as [[-> Hall]|(l1 & f & l2 & -> & Hf & Hall & ->)].
  - simpl. destruct (filter _ fs); [done|]. simpl. lia.
  - rewrite filter_app, filter_cons_False by (intros Hx; by apply Hx).
    rewrite filter_keep_all by done. rewrite length_app.
    rewrite filter_app, filter_cons_False, filter_keep_all in Hne
      by (done || intros Hx; by apply Hx).
    destruct l1 as [|g l1]; simpl in *.
    + destruct (filter _ l2); [done|]. simpl. lia.
    + lia.
Qed.

Lemma closeTab_eq files active path s :
  ∃ a, closeTab files active path s =
         (Ok tt,
          {| openFiles := filter (λ f, of_path f ≠ path) files;
             activeFilePath := a |}, []) ∧
    (active ≠ Some path → a = activeFilePath s) ∧
    (active = Some path →
     a = of_path <$> (filter (λ f, of_path f ≠ path) files
                        !! Z.to_nat (Z.max 0 (findIndex path files - 1)))).
Proof.
  unfold closeTab, bind, gets, modify, ret, throw. simpl.
  case_bool_decide as Hactive.
  - case_bool_decide as Hempty.
    + eexists. split; [done|]. split; [done|]. intros _.
      apply nil_length_inv in Hempty. by rewrite Hempty.
    + destruct (closeTab_index_in_range path files) as [f Hf].
      { intros E. apply Hempty. by rewrite E. }
      rewrite Hf. eexists. split; [done|]. split; [done|]. done.
  - eexists. split; [done|]. split; [done|]. done.
Qed.

Lemma closeTab_keeps_active_open path s a :
  (activeFilePath s ≠ Some path → a = activeFilePath s) →
  (activeFilePath s = Some path →
   a = of_path <$> (filter (λ f, of_path f ≠ path) (openFiles s)
                      !! Z.to_nat (Z.max 0 (findIndex path (openFiles s) - 1)))) →
  active_is_open s →
  active_is_open {| openFiles := filter (λ f, of_path f ≠ path) (openFiles s);
                    activeFilePath := a |}.
Proof.
  intros Hkeep Hnew. unfold active_is_open. simpl. intros Hopen.
  destruct (decide (activeFilePath s = Some path)) as [Hactive|Hactive].
  - rewrite (Hnew Hactive).
    destruct (filter _ (openFiles s) !! _) as [f|] eqn:Hf; [|done]. simpl.
    apply list_elem_of_fmap. exists f. split; [done|].
    by eapply list_elem_of_lookup_2.
  - rewrite (Hkeep Hactive).
    destruct (activeFilePath s) as [p|]; [|done].
    apply list_elem_of_fmap in Hopen as (f & -> & Hf).
    apply list_elem_of_fmap. exists f. split; [done|].
    apply list_elem_of_filter. split; [|done]. congruence.
Qed.

(** [closeTab] never fails, whatever the tabs and the active path of its
    render, the path and the state are (the index it computes is never out
    of range).  The tabs become those of its render without the files of
    that path, in their order.  When it closes the tab that was active in
    its render, the new active path is that of a tab that is left, or
    [null]; otherwise the active path is not touched; and when its render
    is that of the state as it is, an active path that had a tab still has
    one. *)
Theorem closeTab_safe files active path (s : tabs) :
  ∃ s', closeTab files active path s = (Ok tt, s', []) ∧
    openFiles s' = filter (λ f, of_path f ≠ path) files ∧
    (path ∉ map of_path (openFiles s')) ∧
    (active ≠ Some path → activeFilePath s' = activeFilePath s) ∧
    (active = Some path → active_is_open s') ∧
    (files = openFiles s → active = activeFilePath s →
     active_is_open s → active_is_open s').
Proof.
  destruct (closeTab_eq files active path s) as (a & Heq & Hkeep & Hnew).
  eexists. split; [exact Heq|]. simpl. split_and!.
  - done.
  - intros (f & Hf & [Hne _]%list_elem_of_filter)%list_elem_of_fmap. done.
  - done.
  - intros Hactive. rewrite (Hnew Hactive). unfold active_is_open. simpl.
    destruct (filter _ files !! _) as [f|] eqn:Hf; [|done]. simpl.
    apply list_elem_of_fmap. exists f. split; [done|].
    by eapply list_elem_of_lookup_2.
  - intros -> ->. by apply closeTab_keeps_active_open.
Qed.

(** Closing the active tab activates its left neighbour, or the tab that
    was to its right when it was the first, or nothing when it was the
    only one.  (So closing a file right after it was opened, at the end of
    the row, activates the last of the tabs that were there before.) *)
Theorem closeTab_activates_neighbour path l1 f l2 (s : tabs) :
  of_path f = path →
  path ∉ map of_path l1 →
  path ∉ map of_path l2 →
  closeTab (l1 ++ f :: l2) (Some path) path s =
    (Ok tt,
     {| openFiles := l1 ++ l2;
        activeFilePath :=
          match last l1 with
          | Some g => Some (of_path g)
          | None => of_path <$> head l2
          end |}, []).
Proof.
  intros Hf H1 H2.
  assert (∀ l, path ∉ map of_path l → Forall (λ g, of_path g ≠ path) l) as Hall.
  { intros l Hl. apply Forall_forall. intros g Hg E. apply Hl.
    apply list_elem_of_fmap. by exists g. }
  destruct (closeTab_eq (l1 ++ f :: l2) (Some path) path s)
    as (a & Heq & _ & Hnew).
  rewrite Heq. simpl in *. rewrite (Hnew eq_refl). clear Heq Hnew.
  rewrite filter_app, filter_cons_False by (intros Hx; by apply Hx).
  rewrite !filter_keep_all by by apply Hall.
  do 3 f_equal. unfold findIndex.
  destruct (findIndex_from_spec path (l1 ++ f :: l2) 0)
    as [[_ Hno]|(k1 & g & k2 & Hsplit & Hg & Hk1 & ->)].
  { apply Forall_app in Hno as [_ Hno]. apply Forall_cons in Hno as [Hno _].
    done. }
  assert (length k1 = length l1) as Hlen.
  { destruct (Nat.lt_trichotomy (length k1) (length l1)) as [Hlt|[?|Hlt]]; [|done|].
    - exfalso. assert ((l1 ++ f :: l2) !! length k1 = Some g) as Hk.
      { rewrite Hsplit. by apply list_lookup_middle. }
      rewrite lookup_app_l in Hk by done.
      apply (proj1 (Forall_forall _ _) (Hall l1 H1) g); [|done].
      by eapply list_elem_of_lookup_2.
    - exfalso. assert ((k1 ++ g :: k2) !! length l1 = Some f) as Hk.
      { rewrite <- Hsplit. by apply list_lookup_middle. }
      rewrite lookup_app_l in Hk by done.
      apply (proj1 (Forall_forall _ _) Hk1 f); [|done].
      by eapply list_elem_of_lookup_2. }
  rewrite Hlen. clear.
  destruct l1 as [|g l1] using rev_ind; simpl.
  - by destruct l2.
  - rewrite last_snoc, length_app. simpl.
    replace (Z.to_nat (Z.max 0 (0 + Z.of_nat (length l1 + 1) - 1)))
      with (length l1) by lia.
    rewrite <- app_assoc. simpl. by rewrite list_lookup_middle.
Qed.

Lemma closeTab_activates_neighbour_witness :
  closeTab
    ([{| of_path := "a.ts"; of_content := "1"; of_sha := "" |}] ++
     {| of_path := "b.ts"; of_content := "2"; of_sha := "" |} ::
     [{| of_path := "c.ts"; of_content := "3"; of_sha := "" |}])
    (Some "b.ts") "b.ts" {| openFiles := []; activeFilePath := None |}
  = (Ok tt,
     {| openFiles := [{| of_path := "a.ts"; of_content := "1"; of_sha := "" |};
                      {| of_path := "c.ts"; of_content := "3"; of_sha := "" |}];
        activeFilePath := Some "a.ts" |}, []).
Proof.
  apply (closeTab_activates_neighbour "b.ts"
           [{| of_path := "a.ts"; of_content := "1"; of_sha := "" |}]
           {| of_path := "b.ts"; of_content := "2"; of_sha := "" |}
           [{| of_path := "c.ts"; of_content := "3"; of_sha := "" |}]
           {| openFiles := []; activeFilePath := None |}).
  - reflexivity.
  - simpl. intros Hin. apply elem_of_cons in Hin as [Hin|Hin]; [discriminate|].
    by apply elem_of_nil in Hin.
  - simpl. intros Hin. apply elem_of_cons in Hin as [Hin|Hin]; [discriminate|].
    by apply elem_of_nil in Hin.
Defined.

Lemma tab_step_inv o s :
  active_is_open s →
  ∃ s', tab_step o s = (Ok tt, s', []) ∧ active_is_open s'.
Proof.
  intros Hopen. destruct o as [path|path content sha|path|i|path content sha].
  - unfold tab_step, fileSelected, bind, gets, modify, ret. simpl.
    case_bool_decide as Hex; simpl; eexists; (split; [done|]); [|done].
    unfold active_is_open. simpl.
    apply Exists_exists in Hex as (f & Hf & <-).
    apply list_elem_of_fmap. by exists f.
  - unfold tab_step, fileLoaded, bind, modify. simpl.
    eexists. split; [done|]. unfold active_is_open. simpl.
    rewrite map_app. apply elem_of_app. right. by left.
  - destruct (closeTab_eq (openFiles s) (activeFilePath s) path s)
      as (a & Heq & Hkeep & Hnew).
    eexists. split; [|by apply (closeTab_keeps_active_open path s a)].
    unfold tab_step, handleCloseTab, bind, gets. by rewrite Heq.
  - unfold tab_step, bind, gets, modify, ret. simpl.
    destruct (openFiles s !! i) as [f|] eqn:Hf; eexists; (split; [done|]); [|done].
    unfold active_is_open. simpl. apply list_elem_of_fmap. exists f.
    split; [done|]. by eapply list_elem_of_lookup_2.
  - unfold tab_step, fileUpdated, modify. eexists. split; [done|].
    unfold active_is_open in *. simpl.
    destruct (activeFilePath s) as [p|]; [|done].
    rewrite map_map.
    replace (map (λ x, of_path (if String.eqb (of_path x) path
                                then {| of_path := of_path x;
                                        of_content := content; of_sha := sha |}
                                else x)) (openFiles s))
      with (map of_path (openFiles s)); [done|].
    apply map_ext. intros x. by destruct (String.eqb (of_path x) path).
Qed.

(** Whatever the user does with the tabs (select files, click tabs,
    close them with their button, apply changes) and in whatever order the
    contents of the selected files arrive, as long as every handler is that
    of the render of the state as it is: no handler throws and the active
    path is always [null] or the path of a file that is open in a tab. *)
Theorem tabs_active_is_open (ops : list tab_op) :
  ∃ s, run_tabs ops {| openFiles := []; activeFilePath := None |}
       = (Ok tt, s, []) ∧
       active_is_open s.
Proof.
  unfold run_tabs.
  assert (∀ s0, active_is_open s0 →
            ∃ s, forEach ops tab_step s0 = (Ok tt, s, []) ∧ active_is_open s)
    as Hrun.
  { induction ops as [|o ops IH]; intros s0 Hs0.
    - exists s0. by split.
    - destruct (tab_step_inv o s0 Hs0) as (s1 & Hstep & Hs1).
      destruct (IH s1 Hs1) as (s & Hrest & Hs).
      exists s. split; [|done]. cbn [forEach]. unfold bind.
      by rewrite Hstep, Hrest. }
  apply Hrun. done.
Qed.

(** [closeTab] of an older render.  [handleDeleteFile] calls [closeTab]
    when its request has been answered, so with the tabs of the render in
    which it was started.  A file that was loaded in between, and is the
    active one, then loses its tab and stays the active path: the active
    path is that of no open file. *)
Theorem closeTab_of_old_render files active path q (s : tabs) :
  active ≠ Some path →
  activeFilePath s = Some q →
  q ∉ map of_path files →
  ∃ s', closeTab files active path s = (Ok tt, s', []) ∧
    activeFilePath s' = Some q ∧
    (q ∉ map of_path (openFiles s')) ∧
    ¬ active_is_open s'.
Proof.
  intros Hactive Hq Hnew.
  destruct (closeTab_eq files active path s) as (a & Heq & Hkeep & _).
  eexists. split; [exact Heq|]. simpl. rewrite (Hkeep Hactive), Hq.
  assert (q ∉ map of_path (filter (λ f, of_path f ≠ path) files)) as Hgone.
  { intros (f & -> & [_ Hf]%list_elem_of_filter)%list_elem_of_fmap.
    apply Hnew. apply list_elem_of_fmap. by exists f. }
  split_and!; [done|done|]. unfold active_is_open. simpl. done.
Qed.

Lemma closeTab_of_old_render_witness :
  ∃ s', closeTab [{| of_path := "a.ts"; of_content := "1"; of_sha := "" |}]
          None "a.ts"
          {| openFiles := [{| of_path := "a.ts"; of_content := "1"; of_sha := "" |};
                           {| of_path := "b.ts"; of_content := "2"; of_sha := "" |}];
             activeFilePath := Some "b.ts" |} = (Ok tt, s', []) ∧
    activeFilePath s' = Some "b.ts" ∧
    ("b.ts" ∉ map of_path (openFiles s')) ∧
    ¬ active_is_open s'.
Proof.
  apply (closeTab_of_old_render
           [{| of_path := "a.ts"; of_content := "1"; of_sha := "" |}]
           None "a.ts" "b.ts").
  - discriminate.
  - reflexivity.
  - simpl. intros Hin. apply elem_of_cons in Hin as [Hin|Hin]; [discriminate|].
    by apply elem_of_nil in Hin.
Defined.

Lemma cleanup_closed_cons files r results :
  cleanup_closed files (r :: results) =
    (if bool_decide (r.2 = true ∧ Exists (λ f, of_path f = r.1) files)
     then [r.1] else []) ++ cleanup_closed files results.
Proof.
  unfold cleanup_closed. case_bool_decide.
  - by rewrite filter_cons_True.
  - by rewrite filter_cons_False.
Qed.

Lemma cleanup_tabs_spec files active results : ∀ s,
  ∃ s', cleanup_tabs files active results s = (Ok tt, s', []) ∧
    openFiles s' =
      match last (cleanup_closed files results) with
      | Some p => filter (λ f, of_path f ≠ p) files
      | None => openFiles s
      end.
Proof.
  induction results as [|[path ok] results IH]; intros s.
  - exists s. by split.
  - assert (∃ s1, try_catch
              (if ok then
                 if bool_decide (Exists (λ f, of_path f = path) files)
                 then closeTab files active path else ret tt
               else throw "deleteFile") (λ _, ret tt) s = (Ok tt, s1, []) ∧
             openFiles s1 =
               if bool_decide (ok = true ∧ Exists (λ f, of_path f = path) files)
               then filter (λ f, of_path f ≠ path) files else openFiles s)
      as (s1 & Hstep & Hs1).
    { unfold try_catch. destruct ok.
      - case_bool_decide as Hopen.
        + destruct (closeTab_eq files active path s) as (a & -> & _).
          eexists. split; [done|]. simpl. by rewrite bool_decide_eq_true_2.
        + exists s. split; [done|]. rewrite bool_decide_eq_false_2; [done|].
          by intros [_ ?].
      - exists s. split; [done|]. rewrite bool_decide_eq_false_2; [done|].
        by intros [? _]. }
    destruct (IH s1) as (s' & Hrest & Hs').
    exists s'. split.
    + unfold cleanup_tabs in *. cbn [forEach]. unfold bind. simpl.
      by rewrite Hstep, Hrest.
    + rewrite Hs', cleanup_closed_cons. simpl.
      destruct (cleanup_closed files results) as [|q l] using rev_ind.
      * rewrite app_nil_r. simpl. rewrite Hs1. by case_bool_decide.
      * by rewrite app_assoc, !last_snoc.
Qed.

(** The cleanup closes one tab only.  When the loop of
    [handleConfirmCleanup] has deleted files that were open in tabs, the
    tabs are those of the render in which the loop was started without the
    last of these files: the tab of every other deleted file is still
    there (and a file opened while the loop ran has lost its tab). *)
Theorem cleanup_closes_last_tab_only files active results p (s : tabs) :
  last (cleanup_closed files results) = Some p →
  ∃ s', cleanup_tabs files active results s = (Ok tt, s', []) ∧
    openFiles s' = filter (λ f, of_path f ≠ p) files ∧
    ∀ q, q ∈ cleanup_closed files results → q ≠ p →
         q ∈ map of_path (openFiles s').
Proof.
  intros Hlast.
  destruct (cleanup_tabs_spec files active results s) as (s' & Heq & Hs').
  rewrite Hlast in Hs'. exists s'. split_and!; [done|done|].
  intros q Hq Hne. rewrite Hs'.
  apply list_elem_of_fmap in Hq as ([q' ok] & -> & Hq).
  apply list_elem_of_filter in Hq as [[_ Hopen] _]. simpl in *.
  apply Exists_exists in Hopen as (f & Hf & Hpath).
  apply list_elem_of_fmap. exists f. split; [done|].
  apply list_elem_of_filter. split; [congruence|done].
Qed.

Lemma cleanup_closes_last_tab_only_witness :
  ∃ s', cleanup_tabs
          [{| of_path := "a.ts"; of_content := "1"; of_sha := "" |};
           {| of_path := "b.ts"; of_content := "2"; of_sha := "" |}]
          (Some "a.ts") [("a.ts", true); ("b.ts", true)]
          {| openFiles := [{| of_path := "a.ts"; of_content := "1"; of_sha := "" |};
                           {| of_path := "b.ts"; of_content := "2"; of_sha := "" |}];
             activeFilePath := Some "a.ts" |} = (Ok tt, s', []) ∧
    openFiles s' = [{| of_path := "a.ts"; of_content := "1"; of_sha := "" |}].
Proof.
  destruct (cleanup_closes_last_tab_only
              [{| of_path := "a.ts"; of_content := "1"; of_sha := "" |};
               {| of_path := "b.ts"; of_content := "2"; of_sha := "" |}]
              (Some "a.ts") [("a.ts", true); ("b.ts", true)] "b.ts"
              {| openFiles := [{| of_path := "a.ts"; of_content := "1"; of_sha := "" |};
                               {| of_path := "b.ts"; of_content := "2"; of_sha := "" |}];
                 activeFilePath := Some "a.ts" |})
    as (s' & Heq & Hfiles & _).
  - vm_compute. reflexivity.
  - exists s'. split; [exact Heq|]. rewrite Hfiles. vm_compute. reflexivity.
Defined.

(** * The panel of the extension *)

Lemma dispose_loop_spec p : ∀ ds fuel s,
  disposables s !! p = Some ds →
  length ds ≤ fuel →
  dispose_loop fuel p s =
    (Ok tt, set_disposables <[p := []]> s, map (DisposeListener p) (rev ds)).
Proof.
  induction ds as [|d ds IH] using rev_ind; intros fuel s Hds Hfuel.
  - destruct fuel as [|fuel]; simpl.
    + unfold ret. do 2 f_equal. destruct s as [c dd]. unfold set_disposables.
      simpl in *. f_equal. symmetry. by apply list_insert_id.
    + unfold bind, gets, ret. rewrite Hds. simpl. do 2 f_equal.
      destruct s as [c dd]. unfold set_disposables.
      simpl in *. f_equal. symmetry. by apply list_insert_id.
  - rewrite length_app in Hfuel. simpl in Hfuel.
    destruct fuel as [|fuel]; [lia|]. simpl.
    unfold bind at 1. unfold gets at 1. rewrite Hds. simpl.
    rewrite last_snoc. unfold bind, modify, emit.
    rewrite (IH fuel); [| |lia].
    + rewrite rev_app_distr. simpl. do 2 f_equal.
      destruct s as [c dd]. unfold set_disposables. simpl. f_equal.
      rewrite list_insert_alter, list_alter_alter_eq.
      rewrite list_insert_alter. by apply list_alter_ext.
    + simpl. rewrite list_lookup_alter_eq, Hds. simpl.
      by rewrite removelast_last.
Qed.

(** [dispose] releases every listener its instance registered, each one
    once, the last registered first, leaves [_disposables] empty and
    clears [currentPanel]: the loop ends and nothing is left behind. *)
Theorem dispose_releases_listeners p ds (s : extension) :
  disposables s !! p = Some ds →
  dispose p s =
    (Ok tt,
     {| currentPanel := None; disposables := <[p := []]> (disposables s) |},
     DisposePanel p :: map (DisposeListener p) (rev ds)).
Proof.
  intros Hds. unfold dispose, bind, modify, emit, gets. simpl.
  rewrite Hds. simpl.
  rewrite (dispose_loop_spec p ds) by done. done.
Qed.

Lemma dispose_releases_listeners_witness :
  dispose 0 {| currentPanel := Some 0;
               disposables := [[OnDidDispose; OnDidReceiveMessage]] |}
  = (Ok tt, {| currentPanel := None; disposables := [[]] |},
     [DisposePanel 0; DisposeListener 0 OnDidReceiveMessage;
      DisposeListener 0 OnDidDispose]).
Proof.
  apply (dispose_releases_listeners 0 [OnDidDispose; OnDidReceiveMessage]
           {| currentPanel := Some 0;
              disposables := [[OnDidDispose; OnDidReceiveMessage]] |}).
  reflexivity.
Defined.

Lemma created_panels_app t1 t2 :
  created_panels (t1 ++ t2) = created_panels t1 ++ created_panels t2.
Proof. unfold created_panels. apply omap_app. Qed.

Lemma disposed_panels_app t1 t2 :
  disposed_panels (t1 ++ t2) = disposed_panels t1 ++ disposed_panels t2.
Proof. unfold disposed_panels. apply omap_app. Qed.

Lemma created_panels_listeners p ds :
  created_panels (map (DisposeListener p) ds) = [].
Proof. induction ds as [|d ds IH]; [done|]. done. Qed.

Lemma disposed_panels_listeners p ds :
  disposed_panels (map (DisposeListener p) ds) = [].
Proof. induction ds as [|d ds IH]; [done|]. done. Qed.

Lemma panel_step_inv o s t0 :
  panel_inv s t0 →
  ∃ s' t, panel_step o s = (Ok tt, s', t) ∧ panel_inv s' (t0 ++ t).
Proof.
  intros [Hc Hd Hcur Hl]. destruct o.
  - (* the command is run *)
    unfold panel_step, render, bind, gets, modify, emit. simpl.
    destruct (currentPanel s) as [p|] eqn:Hp; simpl.
    + eexists _, _. split; [done|].
      split; rewrite ?created_panels_app, ?disposed_panels_app; simpl;
        rewrite ?app_nil_r, ?Hp; done.
    + eexists _, _. split; [done|]. split; simpl.
      * rewrite created_panels_app, Hc, length_app. simpl.
        by rewrite Nat.add_1_r, seq_S.
      * intros p. rewrite disposed_panels_app, app_nil_r, Hd, length_app. simpl.
        split.
        -- intros [? _]. split; [lia|]. intros [= <-]. lia.
        -- intros [? Hne]. split; [|done].
           destruct (decide (p = length (disposables s))) as [->|]; [done|lia].
      * intros p [= <-]. rewrite length_app. simpl. lia.
      * intros p ds Hds. apply lookup_app_Some in Hds as [Hds|[Hle Hds]].
        -- rewrite (Hl _ _ Hds). apply lookup_lt_Some in Hds.
           repeat case_decide; simplify_eq; try done; lia.
        -- apply list_lookup_singleton_Some in Hds as [Hi <-].
           case_decide as Hx; [done|]. exfalso. apply Hx. f_equal. lia.
  - (* the current panel is closed *)
    unfold panel_step, bind at 1, gets at 1.
    destruct (currentPanel s) as [p|] eqn:Hp.
    + destruct (lookup_lt_is_Some_2 (disposables s) p (Hcur p eq_refl))
        as [ds Hds].
      unfold dispose, bind, modify, emit, gets. simpl. rewrite Hds. simpl.
      rewrite (dispose_loop_spec p ds) by done.
      eexists _, _. split; [done|]. split; simpl.
      * rewrite created_panels_app. simpl.
        by rewrite created_panels_listeners, app_nil_r, length_insert.
      * intros p'. rewrite disposed_panels_app. simpl.
        rewrite disposed_panels_listeners, length_insert.
        rewrite elem_of_app, Hd, list_elem_of_singleton. split.
        -- intros [[? ?]| ->]; (split; [|done]); [done|]. by apply Hcur.
        -- intros [? _]. destruct (decide (p' = p)) as [->|]; [by right|].
           left. split; [done|]. congruence.
      * done.
      * intros p' ds'. destruct (decide (p = p')) as [<-|Hne].
        -- rewrite list_lookup_insert_eq by by apply Hcur.
           by intros [= <-].
        -- rewrite list_lookup_insert_ne by done. intros Hds'.
           rewrite (Hl _ _ Hds'). case_decide; simplify_eq; done.
    + unfold ret. eexists _, _. split; [done|]. rewrite app_nil_r.
      split; by rewrite ?Hp.
Qed.

Lemma live_panels_current s t :
  panel_inv s t →
  length (live_panels t) ≤ 1 ∧
  ∀ p, p ∈ live_panels t ↔ currentPanel s = Some p.
Proof.
  intros [Hc Hd Hcur Hl].
  assert (∀ p, p ∈ live_panels t ↔ currentPanel s = Some p) as Hlive.
  { intros p. unfold live_panels. rewrite list_elem_of_filter, Hc, Hd.
    rewrite elem_of_seq. split.
    - intros [Hnot ?]. destruct (decide (currentPanel s = Some p)); [done|].
      exfalso. apply Hnot. split; [lia|done].
    - intros Hp. split; [|specialize (Hcur p Hp); lia]. intros [_ ?]. done. }
  split; [|done].
  assert (NoDup (live_panels t)) as Hnd.
  { unfold live_panels. apply NoDup_filter. rewrite Hc. apply NoDup_seq. }
  destruct (live_panels t) as [|p [|q l]] eqn:E; simpl; [lia|lia|].
  exfalso. apply NoDup_cons in Hnd as [Hp _]. apply Hp.
  assert (currentPanel s = Some p) as H1 by (apply Hlive; by left).
  assert (currentPanel s = Some q) as H2 by (apply Hlive; right; by left).
  rewrite H1 in H2. injection H2 as ->. by left.
Qed.

(** The panel is a singleton.  Whatever the sequence of runs of the
    command and closings of the panel, no handler throws, at most one panel
    is open at any time and it is the one [currentPanel] names (so running
    the command while a panel is open only reveals it), the instance of
    the open panel holds its two listeners, and the instances of the panels
    that were closed hold none. *)
Theorem panel_singleton (ops : list panel_op) :
  ∃ s t, run_panel ops {| currentPanel := None; disposables := [] |}
         = (Ok tt, s, t) ∧
    length (live_panels t) ≤ 1 ∧
    (∀ p, p ∈ live_panels t ↔ currentPanel s = Some p) ∧
    (∀ p ds, disposables s !! p = Some ds →
       ds = if decide (currentPanel s = Some p)
            then [OnDidDispose; OnDidReceiveMessage] else []).
Proof.
  unfold run_panel.
  assert (∀ s0 t0, panel_inv s0 t0 →
            ∃ s t, forEach ops panel_step s0 = (Ok tt, s, t) ∧
                   panel_inv s (t0 ++ t)) as Hrun.
  { induction ops as [|o ops IH]; intros s0 t0 Hinv.
    - exists s0, []. by rewrite app_nil_r.
    - destruct (panel_step_inv o s0 t0 Hinv) as (s1 & t1 & Hstep & Hinv1).
      destruct (IH s1 _ Hinv1) as (s & t & Hrest & Hinv2).
      exists s, (t1 ++ t). split; [|by rewrite app_assoc].
      cbn [forEach]. unfold bind. by rewrite Hstep, Hrest. }
  destruct (Hrun {| currentPanel := None; disposables := [] |} []) as
    (s & t & Heq & Hinv).
  { split; simpl; try done.
    - intros p. split; [by intros ?%elem_of_nil|]. intros [? _]. lia. }
  exists s, t. split; [done|]. simpl in Hinv.
  destruct (live_panels_current s t Hinv). split_and!; try done.
  by destruct Hinv.
Qed.
